(** * git-phabricator-mirror: the reconciliation engine, embedded and verified

    A shallow embedding of the Go sources of the mirror:

    - [go]: the functions of Go's [strings] and [strconv] the sources call;
    - [comment], [review], [request], [ci], [analyses], [repository]: the data
      and operations the mirror receives from the git-appraise library (the
      fields and methods the sources use);
    - [review_utils]: the comment deduplicator of package [mirror/review];
    - [arcanist]: package [arcanist], the adapter that reconciles one local
      review with Phabricator's Differential through conduit calls;
    - [mirror]: package [mirror], one pass over a repository;
    - [main]: the search for repositories of the command;
    - [twice]: what two calls in a row ask of the review tool.

    Go strings are byte sequences and [len] counts bytes; they are modelled
    as [string] (a list of 8-bit [ascii]).  Go's [int] is modelled as [Z],
    [map[string]T] as [gmap string T], a nil-able pointer as [option]. *)

From Stdlib Require Import String Ascii ZArith List Bool Lia DecimalString.
From stdpp Require Import base gmap strings list.
Import ListNotations.

#[local] Set Warnings "-register-all".
#[local] Open Scope string_scope.
#[local] Open Scope list_scope.

(* ===================================================================== *)
(** ** Go idioms and library functions                                    *)
(* ===================================================================== *)

Module go.

(** A Go result made of a pointer and an error: an error, a nil pointer
    without error, or a value. *)
Inductive PtrResult (A : Type) : Type :=
| Err (msg : string)
| Nil
| Ptr (a : A).
Arguments Err {A} msg.
Arguments Nil {A}.
Arguments Ptr {A} a.

(** A Go result made of a value and an error. *)
Inductive Result (A : Type) : Type :=
| Failed (msg : string)
| Ok (a : A).
Arguments Failed {A} msg.
Arguments Ok {A} a.

(** [strings.Split(s, "\n")]: the pieces of [s] between line feeds; never
    empty. *)
Fixpoint SplitLines (s : string) : list string :=
  match s with
  | EmptyString => [""]
  | String c r =>
      if Ascii.eqb c "010" then "" :: SplitLines r
      else match SplitLines r with
           | l :: ls => String c l :: ls
           | [] => [String c ""]
           end
  end.

(** The bounds of Go's [int] on a 64-bit platform. *)
Definition maxInt : Z := 9223372036854775807.
Definition minInt : Z := -9223372036854775808.

Definition digitValue (c : ascii) : option Z :=
  let n := Z.of_N (N_of_ascii c) in
  if (48 <=? n)%Z && (n <=? 57)%Z then Some (n - 48)%Z else None.

Fixpoint parseDigits (acc : Z) (s : string) : option Z :=
  match s with
  | EmptyString => Some acc
  | String c r =>
      match digitValue c with
      | Some v => parseDigits (10 * acc + v)%Z r
      | None => None
      end
  end.

(** [strconv.Atoi]: an optional sign and at least one decimal digit, within
    the range of [int]; [None] is the error. *)
Definition Atoi (s : string) : option Z :=
  let '(neg, digits) :=
    match s with
    | String "+" r => (false, r)
    | String "-" r => (true, r)
    | _ => (false, s)
    end in
  match digits with
  | EmptyString => None
  | _ =>
      match parseDigits 0 digits with
      | Some n =>
          let v := if neg : bool then (- n)%Z else n in
          if (minInt <=? v)%Z && (v <=? maxInt)%Z then Some v else None
      | None => None
      end
  end.

(** [strconv.Itoa]. *)
Definition Itoa (z : Z) : string := NilZero.string_of_int (Z.to_int z).

End go.

(* ===================================================================== *)
(** ** Data of the git-appraise library, as the sources use it            *)
(* ===================================================================== *)

Module comment.

(** [comment.Range]: only [StartLine] (a [uint32]) is read. *)
Record Range : Type := mkRange { StartLine : Z }.

(** [comment.Location]: [Range] is a pointer, nil when absent. *)
Record Location : Type := mkLocation {
  Commit : string;
  Path : string;
  Range_ : option Range
}.

(** [comment.Comment]: [Location] and [Resolved] are pointers. *)
Record Comment : Type := mkComment {
  Timestamp : string;
  Author : string;
  Location_ : option Location;
  Description : string;
  Resolved : option bool
}.

End comment.

Module request.

(** [request.Request]. *)
Record Request : Type := mkRequest {
  ReviewRef : string;
  TargetRef : string;
  Requester : string;
  Reviewers : list string;
  Description : string
}.

End request.

Module review.

(** [review.CommentThread]: a comment and the threads that reply to it. *)
Inductive CommentThread : Type := mkThread {
  Hash : string;
  Comment : comment.Comment;
  Children : list CommentThread
}.

(** Induction over a thread with the hypothesis for every child. *)
Fixpoint CommentThread_forall_ind (P : CommentThread -> Prop)
    (step : forall h c ch, Forall P ch -> P (mkThread h c ch))
    (t : CommentThread) : P t :=
  match t with
  | mkThread h c ch =>
      step h c ch
        ((fix all (l : list CommentThread) : Forall P l :=
            match l with
            | [] => @List.Forall_nil _ P
            | x :: r =>
                @List.Forall_cons _ P x r (CommentThread_forall_ind P step x) (all r)
            end) ch)
  end.

(** The comments of a thread, parent before children, children in their
    original order. *)
Fixpoint threadComments (t : CommentThread) : list comment.Comment :=
  Comment t :: flat_map threadComments (Children t).

Definition allComments (threads : list CommentThread) : list comment.Comment :=
  flat_map threadComments threads.

(** [review.Review]: the local review.  Its [Repo] field is the repository
    the mirror passes along with it, see [repository.Repo]. *)
Record Review : Type := mkReview {
  Revision : string;
  Request : request.Request;
  Comments : list CommentThread;
  Submitted : bool
}.

End review.

Module ci.

(** [ci.Report]. *)
Record Report : Type := mkReport {
  URL : string;
  Agent : string;
  Status : string
}.

End ci.

Module analyses.

Record Range : Type := mkRange { StartLine : Z }.

Record Location : Type := mkLocation {
  Path : string;
  Range_ : option Range
}.

Record Note : Type := mkNote {
  Location_ : option Location;
  Category : string;
  Description : string
}.

(** [analyses.AnalyzeResponse]. *)
Record AnalyzeResponse : Type := mkAnalyzeResponse { Notes : list Note }.

(** [analyses.Report]: a pointer to results stored elsewhere. *)
Record Report : Type := mkReport { URL : string }.

End analyses.

Module repository.

(** The local side of a reconciliation pass: what the sources ask of
    [repository.Repo] and of the review's own methods, which read the same
    repository.  The state of the local review is this record together with
    the [review.Review]; nothing in package [arcanist] writes to it.

    - [MergeBase]: [repo.MergeBase(ref, commit)]; [None] is the error.
    - [GetBaseCommit], [GetHeadCommit]: the review's methods of these names;
      [None] is the error.
    - [GetLatestCIReport]: [ci.GetLatestCIReport] of the valid notes under
      [ci.Ref] of a commit.
    - [GetLatestAnalysesReport]: [analyses.GetLatestAnalysesReport] of the
      valid notes under [analyses.Ref] of a commit.
    - [GetLintReportResult]: the report's method of this name. *)
Record Repo : Type := mkRepo {
  MergeBase : string -> string -> option string;
  GetBaseCommit : review.Review -> option string;
  GetHeadCommit : review.Review -> option string;
  GetLatestCIReport : string -> go.PtrResult ci.Report;
  GetLatestAnalysesReport : string -> go.PtrResult analyses.Report;
  GetLintReportResult : analyses.Report -> go.Result (list analyses.AnalyzeResponse)
}.

End repository.

(* ===================================================================== *)
(** ** Package mirror/review: the comment deduplicator                    *)
(* ===================================================================== *)

Module review_utils.

Section Deduplicator.

(** Modelled from the spec: [QuoteDescription] of mirror/review is not
    among the sources; the spec leaves the quotation format open, so the
    quoting function is a parameter of the deduplicator. *)
Variable QuoteDescription : comment.Comment -> string.

(** The [resolved] flags agree: both absent, or both set to the same
    boolean. *)
Definition resolvedAgree (a b : option bool) : bool :=
  match a, b with
  | None, None => true
  | Some x, Some y => Bool.eqb x y
  | _, _ => false
  end.

(** Modelled from the spec: [Overlaps] of mirror/review is not among the
    sources (only its test is).  Two comments overlap if they share the
    timestamp token, their [resolved] flags agree, and either one
    description is the quotation of the other or the raw descriptions are
    equal. *)
Definition Overlaps (a b : comment.Comment) : bool :=
  String.eqb (comment.Timestamp a) (comment.Timestamp b)
  && resolvedAgree (comment.Resolved a) (comment.Resolved b)
  && (String.eqb (comment.Description a) (QuoteDescription b)
      || String.eqb (comment.Description b) (QuoteDescription a)
      || String.eqb (comment.Description a) (comment.Description b)).

End Deduplicator.

End review_utils.

(* ===================================================================== *)
(** ** Package arcanist: requests, responses and the conduit              *)
(* ===================================================================== *)

Module arcanist.

Definition commitHashType : string := "gtcm".
Definition differentialTitleLengthLimit : nat := 256.
Definition differentialNeedsReviewStatus : string := "0".
Definition differentialClosedStatus : string := "3".
Definition differentialAbandonedStatus : string := "4".
Definition unitDiffPropertyName : string := "arc:unit".
Definition lintDiffPropertyName : string := "arc:lint".

Module DifferentialReview.
Record t : Type := mk {
  ID : string;
  PHID : string;
  Title : string;
  Branch : string;
  Status : string;
  StatusName : string;
  AuthorPHID : string;
  Reviewers : list string;
  Hashes : list (list string);
  Diffs : list string
}.
End DifferentialReview.

Module queryRequest.
Record t : Type := mk { CommitHashes : list (list string); Status : string }.
End queryRequest.

Module queryResponse.
Record t : Type := mk {
  Error : string;
  ErrorMessage : string;
  Response : list DifferentialReview.t
}.
End queryResponse.

Module revisionFields.
Record t : Type := mk {
  Title : string;
  Summary : string;
  Reviewers : list string;
  CCs : list string
}.
End revisionFields.

Module createRevisionRequest.
Record t : Type := mk { DiffID : Z; Fields : revisionFields.t }.
End createRevisionRequest.

Module differentialRevision.
Record t : Type := mk {
  RevisionID : Z;
  URI : string;
  Title : string;
  Branch : string;
  Hashes : list (list string)
}.
End differentialRevision.

Module createRevisionResponse.
Record t : Type := mk {
  Error : string;
  ErrorMessage : string;
  Response : differentialRevision.t
}.
End createRevisionResponse.

(** [differentialUpdateRevisionRequest]; its [Fields] map is never filled by
    the sources and is left out. *)
Module differentialUpdateRevisionRequest.
Record t : Type := mk { ID : string; DiffID : string }.
End differentialUpdateRevisionRequest.

Module differentialUpdateRevisionResponse.
Record t : Type := mk { Error : string; ErrorMessage : string }.
End differentialUpdateRevisionResponse.

Module differentialCloseRequest.
Record t : Type := mk { ID : Z }.
End differentialCloseRequest.

Module differentialCloseResponse.
Record t : Type := mk { Error : string; ErrorMessage : string }.
End differentialCloseResponse.

Module createCommentRequest.
Record t : Type := mk {
  RevisionID : string;
  Message : string;
  Action : string;
  AttachInlines : bool
}.
End createCommentRequest.

Module createInlineRequest.
Record t : Type := mk {
  RevisionID : string;
  DiffID : string;
  FilePath : string;
  LineNumber : Z;
  Content : string;
  IsNewFile : Z
}.
End createInlineRequest.

Module createInlineResponse.
Record t : Type := mk { Error : string; ErrorMessage : string }.
End createInlineResponse.

Module createCommentResponse.
Record t : Type := mk { Error : string; ErrorMessage : string }.
End createCommentResponse.

Module differentialUnitDiffProperty.
Record t : Type := mk { Name : string; Link : string; Result : string }.
End differentialUnitDiffProperty.

Module LintDiffProperty.
Record t : Type := mk {
  Code : string;
  Severity : string;
  Path : string;
  Line : Z;
  Description : string
}.
End LintDiffProperty.

(** Modelled from the spec: the type [differentialDiff] and its method
    [findLastCommit] are declared in a file of package [arcanist] that is not
    among the sources.  The sources read the diff's [ID]; by the spec a diff
    carries exactly one last-commit identity, which [findLastCommit]
    returns. *)
Module differentialDiff.
Record t : Type := mk { ID : Z; findLastCommit : string }.
End differentialDiff.

(** The user record [queryUser] returns (not among the sources); the sources
    read its [PHID]. *)
Module user.
Record t : Type := mk { PHID : string }.
End user.

(** One entry of the conduit log: every request [runArcCommandOrDie] prints
    before it runs [arc], and every invocation of an operation of package
    [arcanist] whose body is not among the sources. *)
Inductive Call : Type :=
| CallQuery (req : queryRequest.t)
| CallCreateRevision (req : createRevisionRequest.t)
| CallUpdateRevision (req : differentialUpdateRevisionRequest.t)
| CallClose (req : differentialCloseRequest.t)
| CallCreateInline (req : createInlineRequest.t)
| CallCreateComment (req : createCommentRequest.t)
| CallCreateDiff (mergeBase revision : string) (req : request.Request)
    (priorDiffs : list string)
| CallReadDiff (diffID : Z)
| CallLoadComments (differentialReview : DifferentialReview.t)
| CallSetDiffProperty (diffID : Z) (name value : string)
| CallQueryUser (email : string).

(** A remote operation on the state [R] of the review tool: [None] when the
    command dies ([runArcCommandOrDie] panics), else the answer and the new
    state. *)
Definition Handler (R A : Type) : Type := R -> option (A * R).

(** What package [arcanist] runs against.

    - [do_differential_*]: the conduit methods the sources run through
      [runArcCommandOrDie].
    - [do_createDifferentialDiff], [do_readDiff], [do_LoadComments],
      [do_setDiffProperty], [do_queryUser]: functions of package [arcanist]
      whose bodies are not among the sources, with their Go results.
    - [Overlaps], [QuoteDescription]: package mirror/review.
    - [marshalUnit], [marshalLint]: [json.Marshal] at the two types the
      sources marshal. *)
Record Env (R : Type) : Type := mkEnv {
  do_differential_query : queryRequest.t -> Handler R queryResponse.t;
  do_differential_createrevision :
    createRevisionRequest.t -> Handler R createRevisionResponse.t;
  do_differential_updaterevision :
    differentialUpdateRevisionRequest.t -> Handler R differentialUpdateRevisionResponse.t;
  do_differential_close : differentialCloseRequest.t -> Handler R differentialCloseResponse.t;
  do_differential_createinline : createInlineRequest.t -> Handler R createInlineResponse.t;
  do_differential_createcomment : createCommentRequest.t -> Handler R createCommentResponse.t;
  do_createDifferentialDiff :
    string -> string -> request.Request -> list string ->
    Handler R (go.PtrResult differentialDiff.t);
  do_readDiff : Z -> Handler R (go.Result differentialDiff.t);
  do_LoadComments : DifferentialReview.t -> Handler R (list comment.Comment);
  do_setDiffProperty : Z -> string -> string -> Handler R (option string);
  do_queryUser : string -> Handler R (go.PtrResult user.t);
  Overlaps : comment.Comment -> comment.Comment -> bool;
  QuoteDescription : comment.Comment -> string;
  marshalUnit : list differentialUnitDiffProperty.t -> go.Result string;
  marshalLint : list LintDiffProperty.t -> go.Result string
}.
Arguments do_differential_query {R} _.
Arguments do_differential_createrevision {R} _.
Arguments do_differential_updaterevision {R} _.
Arguments do_differential_close {R} _.
Arguments do_differential_createinline {R} _.
Arguments do_differential_createcomment {R} _.
Arguments do_createDifferentialDiff {R} _.
Arguments do_readDiff {R} _.
Arguments do_LoadComments {R} _.
Arguments do_setDiffProperty {R} _.
Arguments do_queryUser {R} _.
Arguments Overlaps {R} _.
Arguments QuoteDescription {R} _.
Arguments marshalUnit {R} _.
Arguments marshalLint {R} _.

(** The state of one running process: the review tool and the package
    variable [closedRevisionsMap]. *)
Record State (R : Type) : Type := mkState {
  remote : R;
  closedRevisionsMap : gmap string bool
}.
Arguments mkState {R}.
Arguments remote {R}.
Arguments closedRevisionsMap {R}.

(** One run of a function: the conduit log it wrote, its result ([None] when
    it panicked) and the state it left. *)
Record Run (R A : Type) : Type := mkRun {
  calls : list Call;
  result : option A;
  after : State R
}.
Arguments mkRun {R A}.
Arguments calls {R A}.
Arguments result {R A}.
Arguments after {R A}.

Definition M (R A : Type) : Type := State R -> Run R A.

Definition ret {R A} (a : A) : M R A :=
  fun s => mkRun [] (Some a) s.

Definition bind {R A B} (m : M R A) (f : A -> M R B) : M R B :=
  fun s =>
    let r := m s in
    match result r with
    | None => mkRun (calls r) None (after r)
    | Some a =>
        let r' := f a (after r) in
        mkRun (calls r ++ calls r') (result r') (after r')
    end.

(** [log.Panic]. *)
Definition panic {R A} : M R A :=
  fun s => mkRun [] None s.

(** Log the call, then run it against the review tool. *)
Definition invoke {R A} (c : Call) (h : Handler R A) : M R A :=
  fun s =>
    match h (remote s) with
    | Some (a, r') => mkRun [c] (Some a) (mkState r' (closedRevisionsMap s))
    | None => mkRun [c] None s
    end.

Definition getClosed {R} (revision : string) : M R bool :=
  fun s => mkRun [] (Some (default false (closedRevisionsMap s !! revision))) s.

Definition setClosed {R} (revision : string) : M R unit :=
  fun s => mkRun [] (Some tt) (mkState (remote s) (<[revision := true]> (closedRevisionsMap s))).

Declare Scope go_scope.
Delimit Scope go_scope with go.
Notation "x <- m ;; f" := (bind m (fun x => f))
  (at level 100, m at next level, right associativity) : go_scope.
Notation "m ;;; f" := (bind m (fun _ => f))
  (at level 100, f at level 200, right associativity) : go_scope.

(** [for _, x := range l { body x }]. *)
Fixpoint forEach {R A} (l : list A) (body : A -> M R unit) : M R unit :=
  match l with
  | [] => ret tt
  | x :: rest => bind (body x) (fun _ => forEach rest body)
  end.

(** A loop that carries a value from one round to the next. *)
Fixpoint foldEach {R A B} (l : list A) (acc : B) (body : B -> A -> M R B) : M R B :=
  match l with
  | [] => ret acc
  | x :: rest => bind (body acc x) (fun acc' => foldEach rest acc' body)
  end.

(* ===================================================================== *)
(** ** Package arcanist: the functions                                    *)
(* ===================================================================== *)

Section Functions.

Context {R : Type} (env : Env R).
#[local] Open Scope go_scope.

Definition isClosed (differentialReview : DifferentialReview.t) : bool :=
  String.eqb (DifferentialReview.Status differentialReview) differentialClosedStatus
  || String.eqb (DifferentialReview.Status differentialReview) differentialAbandonedStatus.

Definition listDifferentialReviewsOrDie (revision : string) :
    M R (list DifferentialReview.t) :=
  let request := queryRequest.mk [[commitHashType; revision]] "" in
  response <- invoke (CallQuery request) (do_differential_query env request) ;;
  ret (queryResponse.Response response).

(** The functions of the package that are not among the sources: each
    invocation is logged and answered by the environment. *)
Definition createDifferentialDiff (mergeBase revision : string) (req : request.Request)
    (priorDiffs : list string) : M R (go.PtrResult differentialDiff.t) :=
  invoke (CallCreateDiff mergeBase revision req priorDiffs)
    (do_createDifferentialDiff env mergeBase revision req priorDiffs).

Definition readDiff (diffID : Z) : M R (go.Result differentialDiff.t) :=
  invoke (CallReadDiff diffID) (do_readDiff env diffID).

Definition LoadComments (differentialReview : DifferentialReview.t) :
    M R (list comment.Comment) :=
  invoke (CallLoadComments differentialReview) (do_LoadComments env differentialReview).

Definition setDiffProperty (diffID : Z) (name value : string) : M R (option string) :=
  invoke (CallSetDiffProperty diffID name value) (do_setDiffProperty env diffID name value).

Definition queryUser (email : string) : M R (go.PtrResult user.t) :=
  invoke (CallQueryUser email) (do_queryUser env email).

(** The first lines of [createDifferentialRevision]: the title and the
    summary of the new revision. *)
Definition titleAndSummary (req : request.Request) : revisionFields.t :=
  let title := hd "" (go.SplitLines (request.Description req)) in
  let title :=
    if (differentialTitleLengthLimit <? String.length title)%nat then
      let truncatedLimit := (differentialTitleLengthLimit - 4)%nat in
      substring 0 truncatedLimit title +:+ "..."
    else title in
  let summary :=
    if negb (String.eqb title (request.Description req))
    then request.Description req else "" in
  revisionFields.mk title summary [] [].

Definition createDifferentialRevision (repo : repository.Repo) (revision : string)
    (diffID : Z) (req : request.Request) : M R (go.Result differentialRevision.t) :=
  let fields := titleAndSummary req in
  reviewers <-
    foldEach (request.Reviewers req) (revisionFields.Reviewers fields)
      (fun acc reviewer =>
         user <- queryUser reviewer ;;
         match user with
         | go.Err _ => ret acc
         | go.Nil => ret acc
         | go.Ptr u => ret (acc ++ [user.PHID u])
         end) ;;
  ccs <-
    (if negb (String.eqb (request.Requester req) "") then
       user <- queryUser (request.Requester req) ;;
       match user with
       | go.Err _ => ret (revisionFields.CCs fields)
       | go.Nil => ret (revisionFields.CCs fields)
       | go.Ptr u => ret (revisionFields.CCs fields ++ [user.PHID u])
       end
     else ret (revisionFields.CCs fields)) ;;
  let fields :=
    revisionFields.mk (revisionFields.Title fields) (revisionFields.Summary fields)
      reviewers ccs in
  let createRequest := createRevisionRequest.mk diffID fields in
  createResponse <-
    invoke (CallCreateRevision createRequest)
      (do_differential_createrevision env createRequest) ;;
  if negb (String.eqb (createRevisionResponse.Error createResponse) "") then
    ret (go.Failed ("Failed to create the differential revision: "
                    +:+ createRevisionResponse.ErrorMessage createResponse))
  else ret (go.Ok (createRevisionResponse.Response createResponse)).

(** [differentialReview.close()]: a response with an error is logged. *)
Definition close (differentialReview : DifferentialReview.t) : M R unit :=
  match go.Atoi (DifferentialReview.ID differentialReview) with
  | None => panic
  | Some reviewID =>
      let closeRequest := differentialCloseRequest.mk reviewID in
      closeResponse <-
        invoke (CallClose closeRequest) (do_differential_close env closeRequest) ;;
      ret tt
  end.

Definition findCommitForDiff (diffIDString : string) : M R string :=
  match go.Atoi diffIDString with
  | None => ret ""
  | Some diffID =>
      diff <- readDiff diffID ;;
      match diff with
      | go.Failed _ => ret ""
      | go.Ok d => ret (differentialDiff.findLastCommit d)
      end
  end.

Definition overlapsAny (c : comment.Comment) (existingComments : list comment.Comment) :
    bool :=
  existsb (fun existing => Overlaps env c existing) existingComments.

Fixpoint buildCommentRequestsForThread (differentialReview : DifferentialReview.t)
    (existingComments : list comment.Comment) (commentThread : review.CommentThread)
    (diffID path : string) (lineNumber : Z) : list createInlineRequest.t :=
  (if negb (overlapsAny (review.Comment commentThread) existingComments) then
     let content := QuoteDescription env (review.Comment commentThread) in
     [createInlineRequest.mk (DifferentialReview.ID differentialReview) diffID path
        lineNumber content 1]
   else [])
  ++ flat_map
       (fun child =>
          buildCommentRequestsForThread differentialReview existingComments child
            diffID path lineNumber)
       (review.Children commentThread).

(** The inline requests one thread of the loop of [buildCommentRequests]
    adds. *)
Definition inlineRequestsOfThread (differentialReview : DifferentialReview.t)
    (existingComments : list comment.Comment) (commitToDiffMap : gmap string string)
    (c : review.CommentThread) : list createInlineRequest.t :=
  match comment.Location_ (review.Comment c) with
  | Some location =>
      if negb (String.eqb (comment.Path location) "") then
        let lineNumber :=
          match comment.Range_ location with
          | Some range => comment.StartLine range
          | None => 1%Z
          end in
        let diffID := default "" (commitToDiffMap !! comment.Commit location) in
        if negb (String.eqb diffID "") then
          buildCommentRequestsForThread differentialReview existingComments c diffID
            (comment.Path location) lineNumber
        else []
      else []
  | None => []
  end.

Definition buildCommentRequests (differentialReview : DifferentialReview.t)
    (commentThreads : list review.CommentThread)
    (existingComments : list comment.Comment) (commitToDiffMap : gmap string string) :
    list createInlineRequest.t * list createCommentRequest.t :=
  let inlineRequests :=
    flat_map (inlineRequestsOfThread differentialReview existingComments commitToDiffMap)
      commentThreads in
  let commentRequests :=
    if (0 <? length inlineRequests)%nat then
      [createCommentRequest.mk (DifferentialReview.ID differentialReview) "" "comment" true]
    else [] in
  (inlineRequests, commentRequests).

Definition translateReportStatusToDifferentialUnitResult (status : string) : string :=
  if String.eqb status "success" then "pass"
  else if String.eqb status "failure" then "fail"
  else "skip".

Definition generateUnitDiffProperty (report : ci.Report) : go.Result string :=
  if String.eqb (ci.URL report) "" then go.Ok ""
  else
    let unitDiffProperty :=
      differentialUnitDiffProperty.mk (ci.Agent report) (ci.URL report)
        (translateReportStatusToDifferentialUnitResult (ci.Status report)) in
    match marshalUnit env [unitDiffProperty] with
    | go.Failed err => go.Failed err
    | go.Ok propertyBytes => go.Ok propertyBytes
    end.

(** The end of [reportUnitResults] and of [reportLintResults]: post a
    non-empty property, panic on any error. *)
Definition postDiffProperty (diffID : Z) (name : string) (generated : go.Result string) :
    M R unit :=
  match generated with
  | go.Failed _ => panic
  | go.Ok diffProperty =>
      if negb (String.eqb diffProperty "") then
        err <- setDiffProperty diffID name diffProperty ;;
        match err with
        | Some _ => panic
        | None => ret tt
        end
      else ret tt
  end.

Definition reportUnitResults (diffID : Z) (unitReport : ci.Report) : M R unit :=
  postDiffProperty diffID unitDiffPropertyName (generateUnitDiffProperty unitReport).

Definition lintPropertiesOfNote (note : analyses.Note) : list LintDiffProperty.t :=
  match analyses.Location_ note with
  | Some location =>
      match analyses.Range_ location with
      | Some range =>
          [LintDiffProperty.mk (analyses.Category note) "warning" (analyses.Path location)
             (analyses.StartLine range) (analyses.Description note)]
      | None => []
      end
  | None => []
  end.

Definition generateLintDiffProperty (lintResults : list analyses.AnalyzeResponse) :
    go.Result string :=
  let lintDiffProperties :=
    flat_map (fun analyzeResponse =>
                flat_map lintPropertiesOfNote (analyses.Notes analyzeResponse))
      lintResults in
  match lintDiffProperties with
  | [] => go.Ok ""
  | _ => marshalLint env lintDiffProperties
  end.

Definition reportLintResults (diffID : Z) (lintResults : list analyses.AnalyzeResponse) :
    M R unit :=
  postDiffProperty diffID lintDiffPropertyName (generateLintDiffProperty lintResults).

(** [mirrorStatusesForEachCommit]: Go ranges over the map in an order it does
    not specify; the model takes the order of [map_to_list]. *)
Definition mirrorStatusesForEachCommit (repo : repository.Repo) (r : review.Review)
    (commitToDiffIDMap : gmap string Z) : M R unit :=
  forEach (map_to_list commitToDiffIDMap) (fun '(commitHash, diffID) =>
    (match repository.GetLatestCIReport repo commitHash with
     | go.Err _ => ret tt
     | go.Nil => ret tt
     | go.Ptr latestCIReport => reportUnitResults diffID latestCIReport
     end) ;;;
    (match repository.GetLatestAnalysesReport repo commitHash with
     | go.Err _ => ret tt
     | go.Nil => ret tt
     | go.Ptr latestAnalysesReport =>
         match repository.GetLintReportResult repo latestAnalysesReport with
         | go.Failed _ => ret tt
         | go.Ok lintResults => reportLintResults diffID lintResults
         end
     end)).

Definition mirrorCommentsIntoReview (repo : repository.Repo)
    (differentialReview : DifferentialReview.t) (r : review.Review) : M R unit :=
  maps <-
    foldEach (DifferentialReview.Diffs differentialReview)
      ((∅ : gmap string string), (∅ : gmap string Z))
      (fun '(commitToDiffMap, commitToDiffIDMap) diffIDString =>
         lastCommit <- findCommitForDiff diffIDString ;;
         let commitToDiffMap := <[lastCommit := diffIDString]> commitToDiffMap in
         match go.Atoi diffIDString with
         | Some diffID => ret (commitToDiffMap, <[lastCommit := diffID]> commitToDiffIDMap)
         | None => ret (commitToDiffMap, commitToDiffIDMap)
         end) ;;
  let '(commitToDiffMap, commitToDiffIDMap) := maps in
  mirrorStatusesForEachCommit repo r commitToDiffIDMap ;;;
  existingComments <- LoadComments differentialReview ;;
  let '(inlineRequests, commentRequests) :=
    buildCommentRequests differentialReview (review.Comments r) existingComments
      commitToDiffMap in
  forEach inlineRequests (fun request =>
    response <- invoke (CallCreateInline request)
                  (do_differential_createinline env request) ;;
    ret tt) ;;;
  forEach commentRequests (fun request =>
    response <- invoke (CallCreateComment request)
                  (do_differential_createcomment env request) ;;
    ret tt).

(** A hash pair of exactly two elements, [commitHashType] and the commit. *)
Definition isCommitHash (commit : string) (hashPair : list string) : bool :=
  match hashPair with
  | [kind; value] => String.eqb kind commitHashType && String.eqb value commit
  | _ => false
  end.

(** [updateReviewDiffs]: the loop over the hashes returns at the first pair
    that names the head commit. *)
Definition updateReviewDiffs (repo : repository.Repo)
    (differentialReview : DifferentialReview.t) (headCommit : string)
    (req : request.Request) (r : review.Review) : M R unit :=
  if isClosed differentialReview then ret tt
  else
    let headRevision := headCommit in
    match repository.MergeBase repo (request.TargetRef req) headRevision with
    | None => panic
    | Some mergeBase =>
        if existsb (isCommitHash headCommit) (DifferentialReview.Hashes differentialReview)
        then mirrorCommentsIntoReview repo differentialReview r
        else
          diff <- createDifferentialDiff mergeBase headRevision req
                    (DifferentialReview.Diffs differentialReview) ;;
          match diff with
          | go.Err _ => panic
          | go.Nil => ret tt
          | go.Ptr d =>
              let updateRequest :=
                differentialUpdateRevisionRequest.mk
                  (DifferentialReview.ID differentialReview)
                  (go.Itoa (differentialDiff.ID d)) in
              updateResponse <-
                invoke (CallUpdateRevision updateRequest)
                  (do_differential_updaterevision env updateRequest) ;;
              if negb (String.eqb
                         (differentialUpdateRevisionResponse.Error updateResponse) "")
              then panic
              else ret tt
          end
    end.

Definition EnsureRequestExists (repo : repository.Repo) (review : review.Review) :
    M R unit :=
  let revision := review.Revision review in
  let req := review.Request review in
  closed <- getClosed revision ;;
  if closed : bool then ret tt
  else
    existingReviews <- listDifferentialReviewsOrDie revision ;;
    if review.Submitted review then
      forEach existingReviews (fun differentialReview =>
        if negb (isClosed differentialReview) then close differentialReview
        else ret tt) ;;;
      setClosed revision
    else
      match repository.GetBaseCommit repo review with
      | None => ret tt
      | Some base =>
          match repository.GetHeadCommit repo review with
          | None => ret tt
          | Some head =>
              if (0 <? length existingReviews)%nat then
                forEach existingReviews (fun existing =>
                  updateReviewDiffs repo existing head req review)
              else
                diff <- createDifferentialDiff base revision req [] ;;
                match diff with
                | go.Err _ => panic
                | go.Nil => ret tt
                | go.Ptr d =>
                    rev <- createDifferentialRevision repo revision
                             (differentialDiff.ID d) req ;;
                    match rev with
                    | go.Failed _ => panic
                    | go.Ok _ =>
                        existingReviews <- listDifferentialReviewsOrDie revision ;;
                        forEach existingReviews (fun existing =>
                          updateReviewDiffs repo existing head req review)
                    end
                end
          end
      end.

End Functions.

(** The remote mutations: revision create, revision update, diff create,
    close, comment post and diff-property set.  The other calls read. *)
Definition isMutation (c : Call) : bool :=
  match c with
  | CallCreateRevision _ | CallUpdateRevision _ | CallClose _
  | CallCreateInline _ | CallCreateComment _
  | CallCreateDiff _ _ _ _ | CallSetDiffProperty _ _ _ => true
  | CallQuery _ | CallReadDiff _ | CallLoadComments _ | CallQueryUser _ => false
  end.

(** The calls that create a diff or create, update or close a revision. *)
Definition isDiffOrRevisionCall (c : Call) : bool :=
  match c with
  | CallCreateRevision _ | CallUpdateRevision _ | CallClose _
  | CallCreateDiff _ _ _ _ => true
  | _ => false
  end.

(** The calls of comment and report mirroring. *)
Definition isMirroringCall (c : Call) : bool :=
  match c with
  | CallReadDiff _ | CallSetDiffProperty _ _ _ | CallLoadComments _
  | CallCreateInline _ | CallCreateComment _ => true
  | _ => false
  end.

(** The revisions the close calls of a log name. *)
Fixpoint closedIDs (log : list Call) : list Z :=
  match log with
  | [] => []
  | CallClose req :: rest => differentialCloseRequest.ID req :: closedIDs rest
  | _ :: rest => closedIDs rest
  end.

(** A process that reconciles one review after the other. *)
Definition EnsureAll {R} (env : Env R) (repo : repository.Repo)
    (reviews : list review.Review) : M R unit :=
  forEach reviews (EnsureRequestExists env repo).

(** The query [listDifferentialReviewsOrDie] sends for a revision. *)
Definition revisionQuery (revision : string) : queryRequest.t :=
  queryRequest.mk [[commitHashType; revision]] "".

Definition closeCall (id : Z) : Call := CallClose (differentialCloseRequest.mk id).

(** The body of the closing loop of [EnsureRequestExists]. *)
Definition closeIfOpen {R} (env : Env R) (differentialReview : DifferentialReview.t) :
    M R unit :=
  if negb (isClosed differentialReview) then close env differentialReview else ret tt.

Definition mirrors (c : Call) : Prop := isMirroringCall c = true.

(** The revisions listed for a pending review leave nothing to create or
    update: there is at least one, and each is closed or carries the head
    commit of the review. *)
Definition settled (head : option string) (listed : list DifferentialReview.t) : Prop :=
  listed <> []
  /\ forall h, head = Some h ->
       Forall (fun d => isClosed d = true
                        \/ In [commitHashType; h] (DifferentialReview.Hashes d)) listed.

(** A thread the loop of [buildCommentRequests] passes over: its root comment
    has no location, or no file path, or a commit without a diff in the
    map. *)
Definition unanchored (commitToDiffMap : gmap string string) (t : review.CommentThread) :
    Prop :=
  match comment.Location_ (review.Comment t) with
  | None => True
  | Some location =>
      comment.Path location = "" \/ commitToDiffMap !! comment.Commit location = None
  end.

(** Every call a function logs satisfies [P], and the function leaves
    [closedRevisionsMap] as it found it. *)
Definition emits {R A} (P : Call -> Prop) (m : M R A) : Prop :=
  forall s, Forall P (calls (m s))
            /\ closedRevisionsMap (after (m s)) = closedRevisionsMap s.

(** The calls of [createDifferentialRevision] for a diff and a request: user
    queries, and revision creations with the title and summary of
    [titleAndSummary]. *)
Definition createsWith (diffID : Z) (req : request.Request) (c : Call) : Prop :=
  (exists email, c = CallQueryUser email)
  \/ (exists fields,
        c = CallCreateRevision (createRevisionRequest.mk diffID fields)
        /\ revisionFields.Title fields = revisionFields.Title (titleAndSummary req)
        /\ revisionFields.Summary fields = revisionFields.Summary (titleAndSummary req)).

End arcanist.

(* ===================================================================== *)
(** ** Concrete reviews and a small review tool, to run the functions on  *)
(* ===================================================================== *)

Module examples.
Import arcanist.

(** A quotation with an attribution prefix. *)
Definition quote (c : comment.Comment) : string :=
  comment.Author c +:+ " wrote: " +:+ comment.Description c.

(** The comments of [TestResolvedOverlaps]. *)
Definition rejected : comment.Comment :=
  comment.mkComment "012345" "bar@foo.com" None "" (Some false).
Definition accepted : comment.Comment :=
  comment.mkComment "012345" "bar@foo.com" None "" (Some true).
Definition unresolved : comment.Comment :=
  comment.mkComment "012345" "bar@foo.com" None "" None.

(** An inline comment on [hello.txt] at commit [ABCDEFG], and a reply. *)
Definition hello : comment.Location :=
  comment.mkLocation "ABCDEFG" "hello.txt" (Some (comment.mkRange 42)).
Definition original : comment.Comment :=
  comment.mkComment "012345" "foo@bar.com" (Some hello) "Some comment description" None.
Definition reply : comment.Comment :=
  comment.mkComment "456789" "bot@robots-r-us.com" (Some hello) "Actually, I disagree" None.
Definition thread : review.CommentThread :=
  review.mkThread "0" original [review.mkThread "1" reply []].

(** A comment on the whole review: it has a location without a path. *)
Definition wholeReview : review.CommentThread :=
  review.mkThread "2"
    (comment.mkComment "222222" "foo@bar.com" (Some (comment.mkLocation "ABCDEFG" "" None))
       "Looks good" None) [].

Fixpoint repeatString (n : nat) (s : string) : string :=
  match n with
  | O => ""
  | S k => s +:+ repeatString k s
  end.

Definition lineFeed : string := String "010" "".
Definition doubleQuote : string := String "034" "".

(** Three descriptions: a first line of 257 bytes, two short lines, and one
    short line. *)
Definition longRequest : request.Request :=
  request.mkRequest "refs/heads/feature" "refs/heads/master" "" []
    (repeatString 257 "a").
Definition twoLineRequest : request.Request :=
  request.mkRequest "refs/heads/feature" "refs/heads/master" "" []
    ("Fix bug" +:+ lineFeed +:+ "Details here").
Definition shortRequest : request.Request :=
  request.mkRequest "refs/heads/feature" "refs/heads/master" "" [] "Fix bug".

(** A review tool that keeps its revisions and diffs and the properties set
    on diffs.  It lists the revisions that carry every queried hash, closes
    a revision by setting its status, stores diff properties, and accepts
    comments without keeping them; it creates no diff. *)
Record Phabricator : Type := mkPhabricator {
  revisions : list DifferentialReview.t;
  diffs : list differentialDiff.t;
  properties : list (Z * string * string)
}.

Definition sameHash (a b : list string) : bool :=
  bool_decide (a = b).

Definition carries (hashes : list (list string)) (r : DifferentialReview.t) : bool :=
  forallb (fun h => existsb (sameHash h) (DifferentialReview.Hashes r)) hashes.

Definition withStatus (status : string) (r : DifferentialReview.t) : DifferentialReview.t :=
  DifferentialReview.mk (DifferentialReview.ID r) (DifferentialReview.PHID r)
    (DifferentialReview.Title r) (DifferentialReview.Branch r) status
    (DifferentialReview.StatusName r) (DifferentialReview.AuthorPHID r)
    (DifferentialReview.Reviewers r) (DifferentialReview.Hashes r)
    (DifferentialReview.Diffs r).

Definition closeRevision (id : Z) (r : DifferentialReview.t) : DifferentialReview.t :=
  if String.eqb (DifferentialReview.ID r) (go.Itoa id)
  then withStatus differentialClosedStatus r else r.

Definition jsonField (name value : string) : string :=
  doubleQuote +:+ name +:+ doubleQuote +:+ ":" +:+ doubleQuote +:+ value +:+ doubleQuote.

(** [json.Marshal] for values without characters to escape. *)
Definition marshalUnitPlain (l : list differentialUnitDiffProperty.t) : go.Result string :=
  go.Ok ("[" +:+ String.concat ","
           (map (fun p =>
                   "{" +:+ jsonField "name" (differentialUnitDiffProperty.Name p)
                   +:+ "," +:+ jsonField "link" (differentialUnitDiffProperty.Link p)
                   +:+ "," +:+ jsonField "result" (differentialUnitDiffProperty.Result p)
                   +:+ "}") l)
         +:+ "]").

Definition marshalLintPlain (l : list LintDiffProperty.t) : go.Result string :=
  go.Ok ("[" +:+ String.concat ","
           (map (fun p =>
                   "{" +:+ jsonField "code" (LintDiffProperty.Code p)
                   +:+ "," +:+ jsonField "severity" (LintDiffProperty.Severity p)
                   +:+ "," +:+ jsonField "path" (LintDiffProperty.Path p)
                   +:+ "," +:+ doubleQuote +:+ "line" +:+ doubleQuote +:+ ":"
                   +:+ go.Itoa (LintDiffProperty.Line p)
                   +:+ "," +:+ jsonField "description" (LintDiffProperty.Description p)
                   +:+ "}") l)
         +:+ "]").

Definition phabricator : Env Phabricator :=
  mkEnv Phabricator
    (fun req p =>
       Some (queryResponse.mk "" ""
               (List.filter (carries (queryRequest.CommitHashes req)) (revisions p)), p))
    (fun req p =>
       Some (createRevisionResponse.mk "" "" (differentialRevision.mk 0 "" "" "" []), p))
    (fun req p => Some (differentialUpdateRevisionResponse.mk "" "", p))
    (fun req p =>
       Some (differentialCloseResponse.mk "" "",
             mkPhabricator
               (map (closeRevision (differentialCloseRequest.ID req)) (revisions p))
               (diffs p) (properties p)))
    (fun req p => Some (createInlineResponse.mk "" "", p))
    (fun req p => Some (createCommentResponse.mk "" "", p))
    (fun mergeBase revision req priorDiffs p => Some (go.Nil, p))
    (fun diffID p =>
       Some (match List.find (fun d => Z.eqb (differentialDiff.ID d) diffID) (diffs p) with
             | Some d => go.Ok d
             | None => go.Failed "no such diff"
             end, p))
    (fun differentialReview p => Some ([], p))
    (fun diffID name value p =>
       Some (None, mkPhabricator (revisions p) (diffs p)
                     (properties p ++ [(diffID, name, value)])))
    (fun email p => Some (go.Nil, p))
    (review_utils.Overlaps quote)
    quote
    marshalUnitPlain
    marshalLintPlain.

(** A repository whose review branch has base [BASE] and head [HEAD]; the
    head has a successful CI report with a link and no analyses. *)
Definition repo : repository.Repo :=
  repository.mkRepo
    (fun ref commit => Some "BASE")
    (fun r => Some "BASE")
    (fun r => Some "HEAD")
    (fun commit =>
       if String.eqb commit "HEAD"
       then go.Ptr (ci.mkReport "http://ci.example/1" "jenkins" "success")
       else go.Nil)
    (fun commit => go.Nil)
    (fun report => go.Ok []).

Definition pending : review.Review :=
  review.mkReview "FIRST" shortRequest [] false.
Definition submitted : review.Review :=
  review.mkReview "FIRST" shortRequest [] true.

(** Revision 12 is open and carries the first and the head commit in its
    diff 7; revision 13, of the same change, is closed. *)
Definition revision12 : DifferentialReview.t :=
  DifferentialReview.mk "12" "PHID-DREV-12" "Fix bug" "feature"
    differentialNeedsReviewStatus "Needs Review" "PHID-USER-1" []
    [[commitHashType; "FIRST"]; [commitHashType; "HEAD"]] ["7"].
Definition revision13 : DifferentialReview.t :=
  DifferentialReview.mk "13" "PHID-DREV-13" "Fix bug" "feature"
    differentialClosedStatus "Closed" "PHID-USER-1" []
    [[commitHashType; "FIRST"]] ["5"].

(** The request [createDifferentialRevision] sends for [longRequest],
    [twoLineRequest] and [shortRequest] on diff 7. *)
Definition longRevisionRequest : createRevisionRequest.t :=
  createRevisionRequest.mk 7
    (revisionFields.mk (repeatString 252 "a" +:+ "...") (repeatString 257 "a") [] []).
Definition twoLineRevisionRequest : createRevisionRequest.t :=
  createRevisionRequest.mk 7
    (revisionFields.mk "Fix bug" ("Fix bug" +:+ lineFeed +:+ "Details here") [] []).
Definition shortRevisionRequest : createRevisionRequest.t :=
  createRevisionRequest.mk 7 (revisionFields.mk "Fix bug" "" [] []).

(** The unit property of the CI report of [HEAD]. *)
Definition passProperty : string :=
  "[{" +:+ jsonField "name" "jenkins" +:+ "," +:+ jsonField "link" "http://ci.example/1"
  +:+ "," +:+ jsonField "result" "pass" +:+ "}]".

Definition start : State Phabricator :=
  mkState
    (mkPhabricator [revision12; revision13]
       [differentialDiff.mk 7 "HEAD"; differentialDiff.mk 5 "FIRST"] [])
    ∅.

End examples.

(* ===================================================================== *)
(** ** Package arcanist: vocabulary for the functions above               *)
(* ===================================================================== *)

Module arcanist_facts.
Import arcanist.

(** The user identifiers [createDifferentialRevision] collects from a list
    of identities when [queryUser] answers from a directory: one per identity
    the directory resolves, in order. *)
Definition resolvedPHIDs (directory : string -> go.PtrResult user.t)
    (identities : list string) : list string :=
  flat_map (fun identity =>
              match directory identity with
              | go.Ptr u => [user.PHID u]
              | _ => []
              end) identities.

(** The identities [createDifferentialRevision] looks up as CCs. *)
Definition requesters (req : request.Request) : list string :=
  if String.eqb (request.Requester req) "" then [] else [request.Requester req].

(** The line an inline comment is posted on: the start of the range of the
    root comment's location, line 1 without a range. *)
Definition lineOf (location : comment.Location) : Z :=
  match comment.Range_ location with
  | Some range => comment.StartLine range
  | None => 1%Z
  end.

(** The inline request for one comment at a given anchor. *)
Definition inlineRequestFor {R} (env : Env R) (differentialReview : DifferentialReview.t)
    (diffID path : string) (lineNumber : Z) (c : comment.Comment) : createInlineRequest.t :=
  createInlineRequest.mk (DifferentialReview.ID differentialReview) diffID path lineNumber
    (QuoteDescription env c) 1.

(** A note of a static analysis that names a line of a file. *)
Definition located (note : analyses.Note) : bool :=
  match analyses.Location_ note with
  | Some location =>
      match analyses.Range_ location with
      | Some _ => true
      | None => false
      end
  | None => false
  end.

(** A lint property renders a note. *)
Definition rendersNote (note : analyses.Note) (p : LintDiffProperty.t) : Prop :=
  LintDiffProperty.Code p = analyses.Category note
  /\ LintDiffProperty.Severity p = "warning"
  /\ LintDiffProperty.Description p = analyses.Description note
  /\ exists location range,
       analyses.Location_ note = Some location
       /\ analyses.Range_ location = Some range
       /\ LintDiffProperty.Path p = analyses.Path location
       /\ LintDiffProperty.Line p = analyses.StartLine range.

(** A call that sets the unit or the lint property, to a non-empty value, on
    a diff of the map. *)
Definition setsReportOn (commitToDiffIDMap : gmap string Z) (c : Call) : Prop :=
  exists commitHash diffID name value,
    c = CallSetDiffProperty diffID name value
    /\ commitToDiffIDMap !! commitHash = Some diffID
    /\ (name = unitDiffPropertyName \/ name = lintDiffPropertyName)
    /\ value <> "".

(** The first loop of [mirrorCommentsIntoReview]: the last commit of every
    diff of the revision, mapped to the diff. *)
Definition commitMaps {R} (env : Env R) (diffs : list string) :
    M R (gmap string string * gmap string Z) :=
  foldEach diffs ((∅ : gmap string string), (∅ : gmap string Z))
    (fun '(commitToDiffMap, commitToDiffIDMap) diffIDString =>
       bind (findCommitForDiff env diffIDString)
         (fun lastCommit =>
            let commitToDiffMap := <[lastCommit := diffIDString]> commitToDiffMap in
            match go.Atoi diffIDString with
            | Some diffID =>
                ret (commitToDiffMap, <[lastCommit := diffID]> commitToDiffIDMap)
            | None => ret (commitToDiffMap, commitToDiffIDMap)
            end)).

(** The calls [mirrorCommentsIntoReview] makes before it posts comments:
    reading a diff, setting a diff property, loading the comments. *)
Definition prepares (c : Call) : Prop :=
  match c with
  | CallReadDiff _ | CallSetDiffProperty _ _ _ | CallLoadComments _ => True
  | _ => False
  end.

(** The query or a close call. *)
Definition queriesOrCloses (c : Call) : Prop :=
  match c with
  | CallQuery _ | CallClose _ => True
  | _ => False
  end.

Definition closes (c : Call) : Prop :=
  match c with
  | CallClose _ => True
  | _ => False
  end.

Definition neverCloses (c : Call) : Prop := ~ closes c.

(** Every listed revision is closed or abandoned. *)
Definition allClosed (listed : list DifferentialReview.t) : Prop :=
  Forall (fun d => isClosed d = true) listed.

End arcanist_facts.

(* ===================================================================== *)
(** ** Package arcanist: the remaining functions                          *)
(* ===================================================================== *)

Module arcanist_reviews.
Import arcanist.

Definition defaultRepoDirPrefix : string := "/var/repo/".

(** [strings.HasPrefix(s, prefix)]. *)
Definition HasPrefix (s prefix : string) : bool := String.prefix prefix s.

(** The Go slice [s[n:]], for [n] at most the length of [s] (Go panics
    beyond; the sources slice only behind [HasPrefix]). *)
Fixpoint sliceFrom (n : nat) (s : string) : string :=
  match n, s with
  | O, _ => s
  | S k, String _ r => sliceFrom k r
  | S _, EmptyString => EmptyString
  end.

(** [strings.TrimPrefix(s, prefix)]. *)
Definition TrimPrefix (s prefix : string) : string :=
  if HasPrefix s prefix then sliceFrom (String.length prefix) s else s.

Definition abbreviateRefName (ref : string) : string :=
  if HasPrefix ref "refs/heads/" then sliceFrom (String.length "refs/heads/") ref
  else ref.

(** What [GetFirstCommit] asks of the repository; [None] is the error. *)
Record History : Type := mkHistory {
  GetLastParent : string -> option string;
  GetCommitTime : string -> option string
}.

(** [sort.Ints]. *)
Fixpoint insertInt (x : Z) (sorted : list Z) : list Z :=
  match sorted with
  | [] => [x]
  | y :: rest => if (x <=? y)%Z then x :: y :: rest else y :: insertInt x rest
  end.

Fixpoint sortInts (l : list Z) : list Z :=
  match l with
  | [] => []
  | x :: rest => insertInt x (sortInts rest)
  end.

(** The first loop of [GetFirstCommit]: the values of the hash pairs of
    exactly two elements whose first is [commitHashType]. *)
Definition commitsOf (hashes : list (list string)) : list string :=
  flat_map (fun hashPair =>
              match hashPair with
              | [kind; value] => if String.eqb kind commitHashType then [value] else []
              | _ => []
              end) hashes.

(** One round of the second loop of [GetFirstCommit]. *)
Definition recordCommit (repo : History) (acc : list Z * gmap Z string) (commit : string) :
    list Z * gmap Z string :=
  let '(commitTimestamps, commitsByTimestamp) := acc in
  match GetLastParent repo commit with
  | Some _ =>
      match GetCommitTime repo commit with
      | Some timeString =>
          match go.Atoi timeString with
          | Some timestamp =>
              (commitTimestamps ++ [timestamp], <[timestamp := commit]> commitsByTimestamp)
          | None => acc
          end
      | None => acc
      end
  | None => acc
  end.

Definition GetFirstCommit (r : DifferentialReview.t) (repo : History) : string :=
  let commits := commitsOf (DifferentialReview.Hashes r) in
  let '(commitTimestamps, commitsByTimestamp) :=
    fold_left (recordCommit repo) commits ([], ∅) in
  if (length commitTimestamps =? 0)%nat then ""
  else
    let sorted := sortInts commitTimestamps in
    default "" (commitsByTimestamp !! hd 0%Z sorted).

(** A commit [GetFirstCommit] can choose, with its time: one that has a
    parent and a commit time that is a decimal number. *)
Definition dated (repo : History) (commit : string) : list (Z * string) :=
  match GetLastParent repo commit, GetCommitTime repo commit with
  | Some _, Some timeString =>
      match go.Atoi timeString with
      | Some timestamp => [(timestamp, commit)]
      | None => []
      end
  | _, _ => []
  end.

(** The commits [GetFirstCommit] chooses among, in the order of the hashes. *)
Definition datedCommits (repo : History) (hashes : list (list string)) :
    list (Z * string) :=
  flat_map (dated repo) (commitsOf hashes).

(** The map of [GetFirstCommit] after one more dated commit. *)
Definition recordDated (m : gmap Z string) (p : Z * string) : gmap Z string :=
  <[fst p := snd p]> m.

Definition ListOpenReviews {R} (env : Env R) : M R (list DifferentialReview.t) :=
  let request := queryRequest.mk [] "status-open" in
  bind (invoke (CallQuery request) (do_differential_query env request))
    (fun response => ret (queryResponse.Response response)).

End arcanist_reviews.

(* ===================================================================== *)
(** ** Package mirror: one pass over a repository                         *)
(* ===================================================================== *)

Module mirror.
Import arcanist arcanist_reviews.

(** What a pass does to the world outside the process: a conduit call of
    package [arcanist], the conduit method diffusion.looksoon, and the
    operations of the repository that write. *)
Inductive Effect : Type :=
| Conduit (c : Call)
| LookSoon (callsigns : list string)
| PullNotes (remote pattern : string)
| AppendNote (ref commit note : string)
| PushNotes (remote pattern : string).

(** The repository a pass works on, in a state [L] that the writing
    operations change.

    - [GetPath], [GetRepoStateHash], [PullNotes_], [AppendNote_],
      [PushNotes_]: the methods of [repository.Repo] of these names; [None]
      is the error of [GetRepoStateHash], [Some] the error of [PushNotes_].
    - [ListAll]: [review.ListAll(repo)]; [GetSummary]:
      [review.GetSummary(repo, commit)]; [GetJSON], [Details]: the methods of
      a review summary; [Write]: the method of a comment; [commentRef]:
      [comment.Ref].
    - [reads], [history]: the reading methods package [arcanist] calls, in
      the current state. *)
Record Repository (L : Type) : Type := mkRepository {
  GetPath : L -> string;
  GetRepoStateHash : L -> option string;
  PullNotes_ : string -> string -> L -> L;
  AppendNote_ : string -> string -> string -> L -> L;
  PushNotes_ : string -> string -> L -> option string * L;
  ListAll : L -> list review.Review;
  GetSummary : L -> string -> go.PtrResult review.Review;
  GetJSON : review.Review -> option string;
  Details : L -> review.Review -> option review.Review;
  Write : comment.Comment -> option string;
  commentRef : string;
  reads : L -> repository.Repo;
  history : L -> History
}.
Arguments GetPath {L} _.
Arguments GetRepoStateHash {L} _.
Arguments PullNotes_ {L} _.
Arguments AppendNote_ {L} _.
Arguments PushNotes_ {L} _.
Arguments ListAll {L} _.
Arguments GetSummary {L} _.
Arguments GetJSON {L} _.
Arguments Details {L} _.
Arguments Write {L} _.
Arguments commentRef {L} _.
Arguments reads {L} _.
Arguments history {L} _.

(** The state of the process during a pass: the repository, the state of
    package [arcanist], and the package variables [processedStates],
    [existingComments] and [openReviews]. *)
Record Process (L R : Type) : Type := mkProcess {
  local : L;
  arc : State R;
  processedStates : gmap string string;
  existingComments : gmap string (list review.CommentThread);
  openReviews : gmap string (list DifferentialReview.t)
}.
Arguments mkProcess {L R}.
Arguments local {L R}.
Arguments arc {L R}.
Arguments processedStates {L R}.
Arguments existingComments {L R}.
Arguments openReviews {L R}.

(** One run: its effects in order, its result ([None] when it panicked) and
    the state it left. *)
Record Pass (L R A : Type) : Type := mkPass {
  effects : list Effect;
  outcome : option A;
  final : Process L R
}.
Arguments mkPass {L R A}.
Arguments effects {L R A}.
Arguments outcome {L R A}.
Arguments final {L R A}.

Definition P (L R A : Type) : Type := Process L R -> Pass L R A.

Definition done {L R A} (a : A) : P L R A :=
  fun s => mkPass [] (Some a) s.

Definition andThen {L R A B} (m : P L R A) (f : A -> P L R B) : P L R B :=
  fun s =>
    let r := m s in
    match outcome r with
    | None => mkPass (effects r) None (final r)
    | Some a =>
        let r' := f a (final r) in
        mkPass (effects r ++ effects r') (outcome r') (final r')
    end.

(** [orPanic] on an error. *)
Definition abort {L R A} : P L R A :=
  fun s => mkPass [] None s.

(** Read the repository. *)
Definition ask {L R A} (f : L -> A) : P L R A :=
  fun s => mkPass [] (Some (f (local s))) s.

(** Write to the repository. *)
Definition writeRepo {L R} (e : Effect) (f : L -> L) : P L R unit :=
  fun s =>
    mkPass [e] (Some tt)
      (mkProcess (f (local s)) (arc s) (processedStates s) (existingComments s)
         (openReviews s)).

(** Run a function of package [arcanist] on the repository as it is. *)
Definition runArc {L R A} (repo : Repository L) (m : repository.Repo -> M R A) : P L R A :=
  fun s =>
    let r := m (reads repo (local s)) (arc s) in
    mkPass (map Conduit (calls r)) (result r)
      (mkProcess (local s) (after r) (processedStates s) (existingComments s)
         (openReviews s)).

Definition getVariables {L R} : P L R (Process L R) :=
  fun s => mkPass [] (Some s) s.

Definition setProcessedState {L R} (path stateHash : string) : P L R unit :=
  fun s =>
    mkPass [] (Some tt)
      (mkProcess (local s) (arc s) (<[path := stateHash]> (processedStates s))
         (existingComments s) (openReviews s)).

Definition setExistingComments {L R} (revision : string)
    (comments : list review.CommentThread) : P L R unit :=
  fun s =>
    mkPass [] (Some tt)
      (mkProcess (local s) (arc s) (processedStates s)
         (<[revision := comments]> (existingComments s)) (openReviews s)).

Definition setOpenReviews {L R} (path : string) (reviews : list DifferentialReview.t) :
    P L R unit :=
  fun s =>
    mkPass [] (Some tt)
      (mkProcess (local s) (arc s) (processedStates s) (existingComments s)
         (<[path := reviews]> (openReviews s))).

Fixpoint each {L R A} (l : list A) (body : A -> P L R unit) : P L R unit :=
  match l with
  | [] => done tt
  | x :: rest => andThen (body x) (fun _ => each rest body)
  end.

Section Mirror.

Context {L R : Type} (env : Env R) (repo : Repository L).

(** The conduit method diffusion.looksoon, run through
    [runArcCommandOrDie]; its response is not read. *)
Variable do_diffusion_looksoon : list string -> Handler R unit.

(** [arc.Refresh(repo)]. *)
Definition Refresh : P L R unit :=
  andThen (ask (GetPath repo)) (fun path =>
    if HasPrefix path defaultRepoDirPrefix then
      let possibleCallsign := TrimPrefix path defaultRepoDirPrefix in
      fun s =>
        match do_diffusion_looksoon [possibleCallsign] (remote (arc s)) with
        | Some (_, r') =>
            mkPass [LookSoon [possibleCallsign]] (Some tt)
              (mkProcess (local s) (mkState r' (closedRevisionsMap (arc s)))
                 (processedStates s) (existingComments s) (openReviews s))
        | None => mkPass [LookSoon [possibleCallsign]] None s
        end
    else done tt).

(** [hasOverlap]: the comment overlaps the comment of one of the threads or
    of one of their replies, at any depth. *)
Fixpoint hasOverlapThread (newComment : comment.Comment) (existing : review.CommentThread) :
    bool :=
  if Overlaps env newComment (review.Comment existing) then true
  else existsb (hasOverlapThread newComment) (review.Children existing).

Definition hasOverlap (newComment : comment.Comment)
    (existingComments : list review.CommentThread) : bool :=
  existsb (hasOverlapThread newComment) existingComments.

(** The innermost loop of [mirrorRepoToReview]: append the comments of the
    review tool that are new. *)
Definition appendNewComments (reviewCommit : string)
    (revisionComments : list review.CommentThread) (comments : list comment.Comment) :
    P L R unit :=
  each comments (fun c =>
    if negb (hasOverlap c revisionComments) then
      match Write repo c with
      | None => abort
      | Some note =>
          writeRepo (AppendNote (commentRef repo) reviewCommit note)
            (AppendNote_ repo (commentRef repo) reviewCommit note)
      end
    else done tt).

(** The body of the loop over the open reviews. *)
Definition mirrorCommentsOf (phabricatorReview : DifferentialReview.t) : P L R unit :=
  andThen (ask (fun l => GetFirstCommit phabricatorReview (history repo l)))
    (fun reviewCommit =>
       if negb (String.eqb reviewCommit "") then
         andThen (ask (fun l => GetSummary repo l reviewCommit)) (fun r =>
           match r with
           | go.Err _ => abort
           | go.Nil => done tt
           | go.Ptr _ =>
               andThen getVariables (fun variables =>
                 let revisionComments :=
                   default [] (existingComments variables !! reviewCommit) in
                 andThen (runArc repo (fun _ => LoadComments env phabricatorReview))
                   (appendNewComments reviewCommit revisionComments))
           end)
       else done tt).

(** The body of the loop over the local reviews. *)
Definition mirrorReview (r : review.Review) : P L R unit :=
  match GetJSON repo r with
  | None => abort
  | Some reviewJson =>
      andThen (setExistingComments (review.Revision r) (review.Comments r)) (fun _ =>
        andThen (ask (fun l => Details repo l r)) (fun reviewDetails =>
          match reviewDetails with
          | Some details =>
              runArc repo (fun reads => EnsureRequestExists env reads details)
          | None => done tt
          end))
  end.

(** [repo.PullNotes] and [repo.PushNotes] on the notes of the mirror; an
    error of the push is logged. *)
Definition pullNotes : P L R unit :=
  writeRepo (PullNotes "origin" "refs/notes/devtools/*")
    (PullNotes_ repo "origin" "refs/notes/devtools/*").

Definition pushNotes : P L R unit :=
  fun s =>
    let '(err, l') := PushNotes_ repo "origin" "refs/notes/devtools/*" (local s) in
    mkPass [PushNotes "origin" "refs/notes/devtools/*"] (Some tt)
      (mkProcess l' (arc s) (processedStates s) (existingComments s) (openReviews s)).

(** The block of [mirrorRepoToReview] that runs when the state hash of the
    repository is not the one recorded for its path. *)
Definition mirrorLocalReviews (stateHash : string) : P L R unit :=
  andThen (ask (ListAll repo)) (fun reviews =>
  andThen (each reviews mirrorReview) (fun _ =>
  andThen (ask (GetPath repo)) (fun path =>
  andThen (runArc repo (fun _ => ListOpenReviews env)) (fun listed =>
  andThen (setOpenReviews path listed) (fun _ =>
  andThen (ask (GetPath repo)) (fun path =>
  andThen (setProcessedState path stateHash) (fun _ =>
  Refresh))))))).

(** The loop of [mirrorRepoToReview] over the open reviews recorded for the
    path of the repository. *)
Definition mirrorOpenReviews : P L R unit :=
  andThen getVariables (fun variables =>
  andThen (ask (GetPath repo)) (fun path =>
  each (default [] (openReviews variables !! path)) mirrorCommentsOf)).

(** [mirrorRepoToReview], with the tool that [Repo] passes: package
    [arcanist]. *)
Definition mirrorRepoToReview (syncToRemote : bool) : P L R unit :=
  andThen (if syncToRemote then pullNotes else done tt) (fun _ =>
  andThen (ask (GetRepoStateHash repo)) (fun stateHash =>
    match stateHash with
    | None => abort
    | Some stateHash =>
        andThen getVariables (fun variables =>
        andThen (ask (GetPath repo)) (fun path =>
        andThen
          (if negb (String.eqb (default "" (processedStates variables !! path)) stateHash)
           then mirrorLocalReviews stateHash
           else done tt)
          (fun _ =>
        andThen mirrorOpenReviews (fun _ =>
        if syncToRemote then pushNotes else done tt))))
    end)).

(** What [mirrorRepoToReview] does besides the block for a changed
    repository: the pull, the loop over the recorded open reviews, and the
    push. *)
Definition mirrorUnchanged (syncToRemote : bool) : P L R unit :=
  andThen (if syncToRemote then pullNotes else done tt) (fun _ =>
  andThen mirrorOpenReviews (fun _ =>
  if syncToRemote then pushNotes else done tt)).

(** [Repo]. *)
Definition Repo (syncToRemote : bool) : P L R unit :=
  andThen Refresh (fun _ => mirrorRepoToReview syncToRemote).

End Mirror.

(** The repository with other answers to [review.ListAll] and to the
    methods [GetJSON] and [Details] of its reviews. *)
Definition withLocalReviews {L} (repo : Repository L)
    (listAll : L -> list review.Review) (getJSON : review.Review -> option string)
    (details : L -> review.Review -> option review.Review) : Repository L :=
  mkRepository L (GetPath repo) (GetRepoStateHash repo) (PullNotes_ repo)
    (AppendNote_ repo) (PushNotes_ repo) listAll (GetSummary repo) getJSON details
    (Write repo) (commentRef repo) (reads repo) (history repo).

(** Every effect of a function satisfies [Q], and the function leaves the
    package variables of [mirror] and the closed cache of [arcanist] as it
    found them. *)
Definition quiet {L R A} (Q : Effect -> Prop) (m : P L R A) : Prop :=
  forall s,
    Forall Q (effects (m s))
    /\ processedStates (final (m s)) = processedStates s
    /\ existingComments (final (m s)) = existingComments s
    /\ openReviews (final (m s)) = openReviews s
    /\ closedRevisionsMap (arc (final (m s))) = closedRevisionsMap (arc s).

(** The effects of a pass that is skipped for an unchanged repository:
    reading the comments of a review and appending a note, and the pull and
    the push of the notes. *)
Definition mirrorsComments (e : Effect) : Prop :=
  match e with
  | Conduit (CallLoadComments _) | AppendNote _ _ _
  | PullNotes _ _ | PushNotes _ _ => True
  | _ => False
  end.

End mirror.

(* ===================================================================== *)
(** ** More concrete cases                                                *)
(* ===================================================================== *)

Module cases.
Import arcanist arcanist_reviews mirror.

(** A user directory: alice and dave resolve, bob is unknown, the lookup of
    carol fails. *)
Definition directory (email : string) : go.PtrResult user.t :=
  if String.eqb email "alice@example.com" then go.Ptr (user.mk "PHID-USER-alice")
  else if String.eqb email "dave@example.com" then go.Ptr (user.mk "PHID-USER-dave")
  else if String.eqb email "carol@example.com" then go.Err "lookup failed"
  else go.Nil.

(** The review tool of [examples], with the user directory. *)
Definition phabricator : Env examples.Phabricator :=
  mkEnv examples.Phabricator
    (do_differential_query examples.phabricator)
    (do_differential_createrevision examples.phabricator)
    (do_differential_updaterevision examples.phabricator)
    (do_differential_close examples.phabricator)
    (do_differential_createinline examples.phabricator)
    (do_differential_createcomment examples.phabricator)
    (do_createDifferentialDiff examples.phabricator)
    (do_readDiff examples.phabricator)
    (do_LoadComments examples.phabricator)
    (do_setDiffProperty examples.phabricator)
    (fun email p => Some (directory email, p))
    (Overlaps examples.phabricator)
    (QuoteDescription examples.phabricator)
    (marshalUnit examples.phabricator)
    (marshalLint examples.phabricator).

Definition reviewedRequest : request.Request :=
  request.mkRequest "refs/heads/feature" "refs/heads/master" "dave@example.com"
    ["alice@example.com"; "bob@example.com"; "carol@example.com"] "Fix bug".

Definition reviewedFields : revisionFields.t :=
  revisionFields.mk "Fix bug" "" ["PHID-USER-alice"] ["PHID-USER-dave"].

(** A repository without reports, and one whose review branch is gone. *)
Definition bareRepo : repository.Repo :=
  repository.mkRepo
    (fun ref commit => Some "BASE")
    (fun r => Some "BASE")
    (fun r => Some "HEAD")
    (fun commit => go.Nil)
    (fun commit => go.Err "unreadable note")
    (fun report => go.Ok []).

Definition headlessRepo : repository.Repo :=
  repository.mkRepo
    (fun ref commit => Some "BASE")
    (fun r => Some "BASE")
    (fun r => None)
    (fun commit => go.Nil)
    (fun commit => go.Nil)
    (fun report => go.Ok []).

(** Revision 14 is open and carries the first commit only. *)
Definition revision14 : DifferentialReview.t :=
  DifferentialReview.mk "14" "PHID-DREV-14" "Fix bug" "feature"
    differentialNeedsReviewStatus "Needs Review" "PHID-USER-1" []
    [[commitHashType; "FIRST"]] ["5"].

(** A review tool that holds the closed revision 13 only, and one without
    revisions. *)
Definition closedOnly : State examples.Phabricator :=
  mkState
    (examples.mkPhabricator [examples.revision13] [differentialDiff.mk 5 "FIRST"] []) ∅.

Definition noRevisions : State examples.Phabricator :=
  mkState (examples.mkPhabricator [] [] []) ∅.

(** Notes of two static analyses: one names a line, one does not. *)
Definition lintResults : list analyses.AnalyzeResponse :=
  [analyses.mkAnalyzeResponse
     [analyses.mkNote
        (Some (analyses.mkLocation "main.go" (Some (analyses.mkRange 12))))
        "golint" "exported function should have a comment";
      analyses.mkNote (Some (analyses.mkLocation "main.go" None)) "golint" "file too long"];
   analyses.mkAnalyzeResponse [analyses.mkNote None "vet" "unreachable code"]].

Definition unlocatedResults : list analyses.AnalyzeResponse :=
  [analyses.mkAnalyzeResponse [analyses.mkNote None "vet" "unreachable code"]].

(** A revision with four commit hashes and a tree hash, and the history of
    its commits: [C2] and [C3] are equally early, [C4] has no decimal time. *)
Definition revisionOfFour : DifferentialReview.t :=
  DifferentialReview.mk "15" "PHID-DREV-15" "Fix bug" "feature"
    differentialNeedsReviewStatus "Needs Review" "PHID-USER-1" []
    [[commitHashType; "C1"]; ["gttr"; "T1"]; [commitHashType; "C2"];
     [commitHashType; "C3"]; [commitHashType; "C4"]; [commitHashType]] [].

Definition fourCommits : History :=
  mkHistory
    (fun commit => Some "PARENT")
    (fun commit =>
       if String.eqb commit "C1" then Some "200"
       else if String.eqb commit "C2" then Some "100"
       else if String.eqb commit "C3" then Some "100"
       else if String.eqb commit "C4" then Some "yesterday"
       else None).

(** A local repository at "/var/repo/DEMO": its state is the list of notes
    appended so far, its state hash their number.  It holds the pending
    review of [examples] on commit [FIRST]. *)
Definition Notes : Type := list (string * string * string).

Definition localRepo : Repository Notes :=
  mkRepository Notes
    (fun l => "/var/repo/DEMO")
    (fun l => Some (go.Itoa (Z.of_nat (length l))))
    (fun remote pattern l => l)
    (fun ref commit note l => l ++ [(ref, commit, note)])
    (fun remote pattern l => (Some "push rejected", l))
    (fun l => [examples.pending])
    (fun l commit =>
       if String.eqb commit "FIRST" then go.Ptr examples.pending else go.Nil)
    (fun r => Some "{}")
    (fun l r => Some r)
    (fun c => Some (comment.Description c))
    "refs/notes/devtools/discuss"
    (fun l => examples.repo)
    (fun l =>
       mkHistory (fun commit => Some "PARENT")
         (fun commit =>
            if String.eqb commit "FIRST" then Some "100"
            else if String.eqb commit "HEAD" then Some "200" else None)).

Definition looksoon (callsigns : list string) : Handler examples.Phabricator unit :=
  fun p => Some (tt, p).

(** The process before its first pass, and after a pass that recorded the
    state hash "0" and the open revision 12. *)
Definition fresh : Process Notes examples.Phabricator :=
  mkProcess [] examples.start ∅ ∅ ∅.

Definition recorded : Process Notes examples.Phabricator :=
  mkProcess [] examples.start {["/var/repo/DEMO" := "0"]} ∅
    {["/var/repo/DEMO" := [examples.revision12]]}.

(** A review with an inline comment and a reply on [hello.txt] at the head
    commit. *)
Definition atHead : comment.Location :=
  comment.mkLocation "HEAD" "hello.txt" (Some (comment.mkRange 42)).
Definition headThread : review.CommentThread :=
  review.mkThread "0"
    (comment.mkComment "012345" "foo@bar.com" (Some atHead) "Some comment description"
       None)
    [review.mkThread "1"
       (comment.mkComment "456789" "bot@robots-r-us.com" (Some atHead)
          "Actually, I disagree" None) []].
Definition commented : review.Review :=
  review.mkReview "FIRST" examples.shortRequest [headThread] false.

(** A comment of the review tool that no local comment overlaps. *)
Definition remoteReply : comment.Comment :=
  comment.mkComment "333333" "carol@example.com" (Some examples.hello) "Please rename" None.

End cases.

(* ===================================================================== *)
(** ** Package main: the search for repositories (main.go)                *)
(* ===================================================================== *)

Module main.

(** What [filepath.Walk] meets under a path: a file, a directory with its
    entries by name in the lexical order [Walk] reads them in, a directory
    whose entries cannot be read ([readDirNames] fails with the given error),
    or a path on which [os.Lstat] fails with the given error. *)
Inductive Node : Type :=
| File
| Dir (entries : list (string * Node))
| Unlisted (err : string)
| Missing (err : string).

(** Induction over a file tree with the hypothesis for every entry. *)
Fixpoint Node_forall_ind (P : Node -> Prop)
    (file : P File)
    (dir : forall entries, Forall (fun e => P (snd e)) entries -> P (Dir entries))
    (unlisted : forall err, P (Unlisted err))
    (missing : forall err, P (Missing err))
    (n : Node) : P n :=
  match n with
  | File => file
  | Dir entries =>
      dir entries
        ((fix all (l : list (string * Node)) : Forall (fun e => P (snd e)) l :=
            match l with
            | [] => @List.Forall_nil _ (fun e => P (snd e))
            | x :: r =>
                @List.Forall_cons _ (fun e => P (snd e)) x r
                  (Node_forall_ind P file dir unlisted missing (snd x)) (all r)
            end) entries)
  | Unlisted err => unlisted err
  | Missing err => missing err
  end.

(** [os.FileInfo], as far as the search reads it. *)
Record FileInfo : Type := mkFileInfo { IsDir : bool }.

(** The error a [filepath.WalkFunc] returns: nil, [filepath.SkipDir], or any
    other error. *)
Inductive Verdict : Type :=
| Continue
| SkipDir
| Stop (err : string).

(** [filepath.WalkFunc], over the variables its closure captures. *)
Definition WalkFunc (S : Type) : Type :=
  string -> option FileInfo -> option string -> S -> S * Verdict.

Section Walk.
Context {S : Type}.
(** [filepath.Join]. *)
Variable Join : string -> string -> string.
Variable walkFn : WalkFunc S.

(** [filepath.walk], with the [Lstat] its caller does first: the function
    is called on a path whose [Lstat] fails with that error and no info; the
    entries of a directory are read before the function is called on it, and
    an error of that read is handed to the function, whose answer is then
    returned; a directory is entered unless the function returned an error
    for it; among the entries, [SkipDir] from a directory or from a failed
    [Lstat] goes on with the next entry, any other error ends the walk. *)
Fixpoint walk (path : string) (n : Node) (s : S) : S * Verdict :=
  match n with
  | File => walkFn path (Some (mkFileInfo false)) None s
  | Missing err => walkFn path None (Some err) s
  | Unlisted err => walkFn path (Some (mkFileInfo true)) (Some err) s
  | Dir entries =>
      let '(s1, err1) := walkFn path (Some (mkFileInfo true)) None s in
      match err1 with
      | Continue =>
          (fix loop (entries : list (string * Node)) (s : S) : S * Verdict :=
             match entries with
             | [] => (s, Continue)
             | (name, child) :: rest =>
                 let filename := Join path name in
                 let '(s', err) := walk filename child s in
                 match err, child with
                 | Continue, _ => loop rest s'
                 | SkipDir, Dir _ => loop rest s'
                 | SkipDir, Unlisted _ => loop rest s'
                 | SkipDir, Missing _ => loop rest s'
                 | _, _ => (s', err)
                 end
             end) entries s1
      | _ => (s1, err1)
      end
  end.

(** The loop of [walk] over the entries of the directory at [path]. *)
Fixpoint walkEntries (path : string) (entries : list (string * Node)) (s : S)
    : S * Verdict :=
  match entries with
  | [] => (s, Continue)
  | (name, child) :: rest =>
      let filename := Join path name in
      let '(s', err) := walk filename child s in
      match err, child with
      | Continue, _ => walkEntries path rest s'
      | SkipDir, Dir _ => walkEntries path rest s'
      | SkipDir, Unlisted _ => walkEntries path rest s'
      | SkipDir, Missing _ => walkEntries path rest s'
      | _, _ => (s', err)
      end
  end.

(** [filepath.Walk]: [SkipDir] from the root is no error. *)
Definition Walk (root : string) (n : Node) (s : S) : S * option string :=
  let '(s', err) := walk root n s in
  (s', match err with Stop e => Some e | _ => None end).

End Walk.

Section FindRepos.
(** The repository handle of [repository.NewGitRepo]. *)
Context {G : Type}.
Variable Join : string -> string -> string.
(** [repository.NewGitRepo]: fails on a path that is no git repository. *)
Variable NewGitRepo : string -> go.Result G.

(** The function [findRepos] hands to [filepath.Walk]; [repos] is the
    variable it appends to. *)
Definition visit : WalkFunc (list G) :=
  fun path info err repos =>
    match err with
    | Some e => (repos, Stop e)
    | None =>
        if default false (IsDir <$> info)
        then match NewGitRepo path with
             | go.Ok gitRepo => (repos ++ [gitRepo], SkipDir)
             | go.Failed _ => (repos, Continue)
             end
        else (repos, Continue)
    end.

(** [findRepos]: the result of [filepath.Walk] is dropped, the error
    returned is always nil. *)
Definition findRepos (searchDir : string) (fs : Node) : list G * option string :=
  let repos := fst (Walk Join visit searchDir fs []) in
  (repos, None).

(** The directories of a tree in the order of the walk, each with the
    directories above it, nearest first; a directory that cannot be read
    counts, what is in it is not known. *)
Fixpoint directories (path : string) (above : list string) (n : Node)
    : list (string * list string) :=
  match n with
  | Dir entries =>
      (path, above)
      :: flat_map (fun e => directories (Join path (fst e)) (path :: above) (snd e))
           entries
  | Unlisted _ => [(path, above)]
  | File | Missing _ => []
  end.

Definition isRepository (path : string) : bool :=
  match NewGitRepo path with go.Ok _ => true | go.Failed _ => false end.

(** The repository at a directory that lies under no other repository. *)
Definition outermost (d : string * list string) : list G :=
  if forallb (fun a => negb (isRepository a)) (snd d)
  then match NewGitRepo (fst d) with go.Ok gitRepo => [gitRepo] | go.Failed _ => [] end
  else [].

(** No [Lstat] and no read of a directory fails anywhere in the tree. *)
Fixpoint readable (n : Node) : bool :=
  match n with
  | File => true
  | Dir entries => forallb (fun e => readable (snd e)) entries
  | Unlisted _ | Missing _ => false
  end.

(** What the walk with [visit] reaches from a node under no repository:
    a prefix of the outermost repositories below it, all of them unless the
    walk is stopped, which it is not in a readable tree. *)
Definition reaches (n : Node) : Prop :=
  forall path above repos,
    forallb (fun a => negb (isRepository a)) above = true ->
    exists reached rest v,
      walk Join visit path n repos = (repos ++ reached, v)
      /\ flat_map outermost (directories path above n) = reached ++ rest
      /\ (v = SkipDir -> exists entries, n = Dir entries)
      /\ ((forall e, v <> Stop e) -> rest = [])
      /\ (readable n = true -> forall e, v <> Stop e).

End FindRepos.

End main.

Module sites.
Import main.

Definition Join (path name : string) : string := path +:+ "/" +:+ name.

(** The paths that hold a git repository; the handle is the path. *)
Definition NewGitRepo (path : string) : go.Result string :=
  if existsb (String.eqb path)
       ["/var/repo/a"; "/var/repo/a/vendor"; "/var/repo/b/c"; "/var/repo/z"]
  then go.Ok path else go.Failed "not a git repository".

(** A search directory with a repository that holds another one, a plain
    directory with a repository below it, and a file. *)
Definition tree : Node :=
  Dir [("a", Dir [("vendor", Dir [("x", File)])]);
       ("b", Dir [("c", Dir []); ("notes", File)]);
       ("f", File);
       ("z", Dir [])].

(** The same with a directory that cannot be read before the last
    repository. *)
Definition unlistable : Node :=
  Dir [("a", Dir [("vendor", Dir [("x", File)])]);
       ("b", Unlisted "permission denied");
       ("z", Dir [])].

(** The same with an entry whose [Lstat] fails before the last repository. *)
Definition broken : Node :=
  Dir [("a", Dir [("vendor", Dir [("x", File)])]);
       ("b", Dir [("c", Dir []); ("notes", File)]);
       ("f", Missing "permission denied");
       ("z", Dir [])].

End sites.

(* ===================================================================== *)
(** ** Two calls in a row: what is asked of the review tool               *)
(* ===================================================================== *)

Module twice.
Import arcanist arcanist_facts.

(** The calls that post a comment. *)
Definition postsComment (c : Call) : bool :=
  match c with
  | CallCreateInline _ | CallCreateComment _ => true
  | _ => false
  end.

(** Where [buildCommentRequests] posts the comments of a thread: the diff of
    the commit of the root comment, its file path and its line, when the root
    comment has a location with a file path on a commit with a diff. *)
Definition anchor (commitToDiffMap : gmap string string) (t : review.CommentThread) :
    option (string * string * Z) :=
  match comment.Location_ (review.Comment t) with
  | Some location =>
      if negb (String.eqb (comment.Path location) "") then
        let lineNumber :=
          match comment.Range_ location with
          | Some range => comment.StartLine range
          | None => 1%Z
          end in
        let diffID := default "" (commitToDiffMap !! comment.Commit location) in
        if negb (String.eqb diffID "") then Some (diffID, comment.Path location, lineNumber)
        else None
      else None
  | None => None
  end.

Section Laws.

Context {R : Type} (env : Env R).

(** The revisions the review tool lists for a revision hash in a state, as
    [listDifferentialReviewsOrDie] asks for them. *)
Definition listing (revision : string) (p : R) : option (list DifferentialReview.t) :=
  match do_differential_query env (revisionQuery revision) p with
  | Some (response, _) => Some (queryResponse.Response response)
  | None => None
  end.

(** A listed revision that leaves nothing to update: it is closed, or
    carries the head commit. *)
Definition upToDate (head : string) (d : DifferentialReview.t) : Prop :=
  isClosed d = true \/ In [commitHashType; head] (DifferentialReview.Hashes d).

Definition upToDateb (head : string) (d : DifferentialReview.t) : bool :=
  isClosed d || existsb (isCommitHash head) (DifferentialReview.Hashes d).

(** Every revision listed under the identifier [id] is up to date. *)
Definition reconciled (revision head id : string) (p : R) : Prop :=
  forall listed d,
    listing revision p = Some listed -> In d listed -> DifferentialReview.ID d = id ->
    upToDate head d.

(** The tool lists at least one revision. *)
Definition listsSome (revision : string) (p : R) : Prop :=
  forall listed, listing revision p = Some listed -> listed <> [].

(** A method that leaves the listing as it is. *)
Definition keepsListing {A} (revision : string) (h : Handler R A) : Prop :=
  forall p a p', h p = Some (a, p') -> listing revision p' = listing revision p.

(** What [readDiff] answers for a diff in a state of the tool. *)
Definition readAt (diffID : Z) (p : R) : option (go.Result differentialDiff.t) :=
  match do_readDiff env diffID p with
  | Some (a, _) => Some a
  | None => None
  end.

(** The comments the tool lists for the revision overlap the comment. *)
Definition covers (d : DifferentialReview.t) (c : comment.Comment) (p : R) : Prop :=
  forall existing p',
    do_LoadComments env d p = Some (existing, p') -> overlapsAny env c existing = true.

(** From one state of the tool to a later one: the listing and the diffs
    are as they were, and a comment that was covered still is. *)
Definition extends (revision : string) (p p' : R) : Prop :=
  listing revision p' = listing revision p
  /\ (forall diffID, readAt diffID p' = readAt diffID p)
  /\ (forall d c, covers d c p -> covers d c p').

Definition extending {A} (revision : string) (h : Handler R A) : Prop :=
  forall p a p', h p = Some (a, p') -> extends revision p p'.

(** The comments of the review that [mirrorCommentsIntoReview] would post
    on the revision are all covered. *)
Definition mirrored (d : DifferentialReview.t) (r : review.Review) (p : R) : Prop :=
  forall s maps t c,
    remote s = p ->
    result (commitMaps env (DifferentialReview.Diffs d) s) = Some maps ->
    In t (review.Comments r) -> anchor (fst maps) t <> None ->
    In c (review.threadComments t) ->
    covers d c p.

(** A listed revision that the second call has nothing to post on. *)
Definition settledComments (head : string) (r : review.Review) (p : R)
    (d : DifferentialReview.t) : Prop :=
  isClosed d = true
  \/ (existsb (isCommitHash head) (DifferentialReview.Hashes d) = true /\ mirrored d r p).

(** A review tool that keeps what it is sent, seen from the review of the
    revision hash [revision] with the head commit [head]:
    - the methods that read, and those that post comments and set diff
      properties, leave the listing and the diffs as they are and the
      covered comments covered; the creation of a diff leaves the listing
      as it is, and the look-up of a user leaves the tool as it is;
    - no diff is refused;
    - a revision created from a diff made for [revision] is listed;
    - a revision updated with a diff made for [head] is listed up to date,
      and the update takes no revision off the listing and leaves the other
      revisions up to date;
    - an inline comment that was sent is listed with the comments of its
      revision, where it overlaps the comment it was made from. *)
Record Faithful (revision head : string) : Prop := mkFaithful {
  query_extends : forall q, extending revision (do_differential_query env q);
  readDiff_extends : forall diffID, extending revision (do_readDiff env diffID);
  LoadComments_extends : forall d, extending revision (do_LoadComments env d);
  setDiffProperty_extends :
    forall diffID name value,
      extending revision (do_setDiffProperty env diffID name value);
  createinline_extends :
    forall q, extending revision (do_differential_createinline env q);
  createcomment_extends :
    forall q, extending revision (do_differential_createcomment env q);
  createinline_lists :
    forall d diffID path lineNumber c p response p',
      do_differential_createinline env (inlineRequestFor env d diffID path lineNumber c) p
      = Some (response, p') ->
      covers d c p';
  createDiff_keeps :
    forall mergeBase commit req priorDiffs,
      keepsListing revision (do_createDifferentialDiff env mergeBase commit req priorDiffs);
  queryUser_idle : forall email p a p', do_queryUser env email p = Some (a, p') -> p' = p;
  createDiff_given :
    forall mergeBase commit req priorDiffs p p',
      do_createDifferentialDiff env mergeBase commit req priorDiffs p <> Some (go.Nil, p');
  create_lists :
    forall base req fields p0 d p1 response p2,
      do_createDifferentialDiff env base revision req [] p0 = Some (go.Ptr d, p1) ->
      do_differential_createrevision env
        (createRevisionRequest.mk (differentialDiff.ID d) fields) p1
      = Some (response, p2) ->
      createRevisionResponse.Error response = "" ->
      listsSome revision p2;
  update_reconciles :
    forall mergeBase req priorDiffs p0 d p1 id response p2,
      do_createDifferentialDiff env mergeBase head req priorDiffs p0
      = Some (go.Ptr d, p1) ->
      do_differential_updaterevision env
        (differentialUpdateRevisionRequest.mk id (go.Itoa (differentialDiff.ID d))) p1
      = Some (response, p2) ->
      differentialUpdateRevisionResponse.Error response = "" ->
      reconciled revision head id p2
      /\ (forall id', reconciled revision head id' p1 -> reconciled revision head id' p2)
      /\ (listsSome revision p1 -> listsSome revision p2)
}.

(** A function takes the tool to a later state. *)
Definition advancing {A} (revision : string) (m : M R A) : Prop :=
  forall s, extends revision (remote s) (remote (after (m s))).

End Laws.

End twice.

(* ===================================================================== *)
(** ** A review tool that keeps what it is sent                           *)
(* ===================================================================== *)

Module keeper.
Import arcanist.

(** The revision with one more diff and the commit of that diff. *)
Definition withDiff (diffID commit : string) (r : DifferentialReview.t) :
    DifferentialReview.t :=
  DifferentialReview.mk (DifferentialReview.ID r) (DifferentialReview.PHID r)
    (DifferentialReview.Title r) (DifferentialReview.Branch r)
    (DifferentialReview.Status r) (DifferentialReview.StatusName r)
    (DifferentialReview.AuthorPHID r) (DifferentialReview.Reviewers r)
    (DifferentialReview.Hashes r ++ [[commitHashType; commit]])
    (DifferentialReview.Diffs r ++ [diffID]).

Definition updateRevision (id diffID commit : string) (r : DifferentialReview.t) :
    DifferentialReview.t :=
  if String.eqb (DifferentialReview.ID r) id then withDiff diffID commit r else r.

(** An identifier no diff of the tool has. *)
Definition freshDiff (diffs : list differentialDiff.t) : Z :=
  fold_right (fun d n => Z.max (differentialDiff.ID d + 1) n) 1%Z diffs.

Definition diffNamed (diffID : string) (d : differentialDiff.t) : bool :=
  String.eqb (go.Itoa (differentialDiff.ID d)) diffID.

(** The tool of [examples] with the inline comments it was sent. *)
Record Store : Type := mkStore {
  tool : examples.Phabricator;
  inlines : list createInlineRequest.t
}.

(** A method of the tool of [examples], on the store. *)
Definition lift {A} (h : Handler examples.Phabricator A) : Handler Store A :=
  fun p =>
    match h (tool p) with
    | Some (a, t) => Some (a, mkStore t (inlines p))
    | None => None
    end.

(** The comment the tool lists for an inline comment it was sent. *)
Definition listedComment (q : createInlineRequest.t) : comment.Comment :=
  comment.mkComment "" ""
    (Some (comment.mkLocation "" (createInlineRequest.FilePath q)
             (Some (comment.mkRange (createInlineRequest.LineNumber q)))))
    (createInlineRequest.Content q) None.

Definition sentTo (d : DifferentialReview.t) (q : createInlineRequest.t) : bool :=
  String.eqb (createInlineRequest.RevisionID q) (DifferentialReview.ID d).

(** Two comments overlap when one is the quotation of the other, as in
    [TestOverlaps]. *)
Definition overlapsByQuote (a b : comment.Comment) : bool :=
  String.eqb (comment.Description b) (examples.quote a)
  || String.eqb (comment.Description a) (examples.quote b).

Definition createRevision (req : createRevisionRequest.t) :
    Handler examples.Phabricator createRevisionResponse.t :=
  fun p =>
    match List.find (fun d => Z.eqb (differentialDiff.ID d)
                                (createRevisionRequest.DiffID req))
            (examples.diffs p) with
    | Some d =>
        let id := (Z.of_nat (length (examples.revisions p)) + 1)%Z in
        let hashes := [[commitHashType; differentialDiff.findLastCommit d]] in
        let title := revisionFields.Title (createRevisionRequest.Fields req) in
        Some (createRevisionResponse.mk "" ""
                (differentialRevision.mk id "" title "" hashes),
              examples.mkPhabricator
                (examples.revisions p
                 ++ [DifferentialReview.mk (go.Itoa id) "" title ""
                       differentialNeedsReviewStatus "Needs Review" "" [] hashes
                       [go.Itoa (differentialDiff.ID d)]])
                (examples.diffs p) (examples.properties p))
    | None =>
        Some (createRevisionResponse.mk "ERR-BAD-DIFF" "no such diff"
                (differentialRevision.mk 0 "" "" "" []), p)
    end.

Definition updateWithDiff (req : differentialUpdateRevisionRequest.t) :
    Handler examples.Phabricator differentialUpdateRevisionResponse.t :=
  fun p =>
    match List.find (diffNamed (differentialUpdateRevisionRequest.DiffID req))
            (examples.diffs p) with
    | Some d =>
        Some (differentialUpdateRevisionResponse.mk "" "",
              examples.mkPhabricator
                (map (updateRevision (differentialUpdateRevisionRequest.ID req)
                        (differentialUpdateRevisionRequest.DiffID req)
                        (differentialDiff.findLastCommit d))
                   (examples.revisions p))
                (examples.diffs p) (examples.properties p))
    | None =>
        Some (differentialUpdateRevisionResponse.mk "ERR-BAD-DIFF" "no such diff", p)
    end.

Definition createDiff (revision : string) :
    Handler examples.Phabricator (go.PtrResult differentialDiff.t) :=
  fun p =>
    let d := differentialDiff.mk (freshDiff (examples.diffs p)) revision in
    Some (go.Ptr d,
          examples.mkPhabricator (examples.revisions p) (d :: examples.diffs p)
            (examples.properties p)).

(** A review tool that keeps what it is sent.  It is the tool of [examples],
    and besides it makes the diffs it is asked for, creates a revision from a
    diff with the commit of the diff, adds the diff and its commit to the
    revision it is asked to update (it answers with an error when the diff
    is not known), and keeps the inline comments it is sent and lists them
    with the comments of their revision. *)
Definition phabricator : Env Store :=
  mkEnv Store
    (fun req => lift (do_differential_query examples.phabricator req))
    (fun req => lift (createRevision req))
    (fun req => lift (updateWithDiff req))
    (fun req => lift (do_differential_close examples.phabricator req))
    (fun req p => Some (createInlineResponse.mk "" "", mkStore (tool p) (inlines p ++ [req])))
    (fun req => lift (do_differential_createcomment examples.phabricator req))
    (fun mergeBase revision req priorDiffs => lift (createDiff revision))
    (fun diffID => lift (do_readDiff examples.phabricator diffID))
    (fun d p => Some (map listedComment (List.filter (sentTo d) (inlines p)), p))
    (fun diffID name value => lift (do_setDiffProperty examples.phabricator diffID name value))
    (fun email => lift (do_queryUser examples.phabricator email))
    overlapsByQuote
    examples.quote
    examples.marshalUnitPlain
    examples.marshalLintPlain.

(** The tool holds revision 14, open, with the first commit in diff 5: the
    head commit has not reached it. *)
Definition behind : State Store :=
  mkState
    (mkStore
       (examples.mkPhabricator [cases.revision14] [differentialDiff.mk 5 "FIRST"] [])
       [])
    ∅.

(** The tool holds revision 12, open, with the head commit in diff 7, and
    no comment. *)
Definition current : State Store :=
  mkState
    (mkStore
       (examples.mkPhabricator [examples.revision12]
          [differentialDiff.mk 7 "HEAD"; differentialDiff.mk 5 "FIRST"] [])
       [])
    ∅.

End keeper.

(* ===================================================================== *)
(** ** The comment deduplicator                                           *)
(* ===================================================================== *)

Section DeduplicatorFacts.

Variable quote : comment.Comment -> string.

Lemma resolvedAgree_sym (a b : option bool) :
  review_utils.resolvedAgree a b = review_utils.resolvedAgree b a.
Proof. destruct a as [[]|], b as [[]|]; reflexivity. Qed.

Lemma resolvedAgree_refl (a : option bool) : review_utils.resolvedAgree a a = true.
Proof. destruct a as [[]|]; reflexivity. Qed.

Lemma Overlaps_refl (a : comment.Comment) : review_utils.Overlaps quote a a = true.
Proof.
  unfold review_utils.Overlaps.
  rewrite !String.eqb_refl, resolvedAgree_refl. simpl. apply orb_true_r.
Qed.

(** With the predicate as the spec words it, comments with different
    timestamp tokens never overlap, whatever their descriptions. *)
Lemma Overlaps_timestamps_differ (a b : comment.Comment) :
  comment.Timestamp a <> comment.Timestamp b -> review_utils.Overlaps quote a b = false.
Proof.
  intros Hne. unfold review_utils.Overlaps.
  destruct (String.eqb_spec (comment.Timestamp a) (comment.Timestamp b)); [contradiction|].
  reflexivity.
Qed.

(** C3. For every pair of comments [a] and [b], [Overlaps a b] returns the
    same boolean as [Overlaps b a]. *)
Theorem Overlaps_symmetric (a b : comment.Comment) :
  review_utils.Overlaps quote a b = review_utils.Overlaps quote b a.
Proof.
  unfold review_utils.Overlaps.
  rewrite (String.eqb_sym (comment.Timestamp a)).
  rewrite (resolvedAgree_sym (comment.Resolved a)).
  rewrite (String.eqb_sym (comment.Description a) (comment.Description b)).
  f_equal. f_equal. apply orb_comm.
Qed.

End DeduplicatorFacts.

(* ===================================================================== *)
(** ** Strings                                                            *)
(* ===================================================================== *)

Lemma length_append (a b : string) :
  String.length (a +:+ b) = String.length a + String.length b.
Proof. induction a as [|c a IH]; simpl; [reflexivity | now f_equal]. Qed.

Lemma length_substring0 (n : nat) (s : string) :
  n <= String.length s -> String.length (substring 0 n s) = n.
Proof.
  revert s. induction n as [|n IH]; intros s H.
  - destruct s; reflexivity.
  - destruct s as [|c s]; cbn in *; [lia|]. rewrite IH; lia.
Qed.

Lemma firstLine_length (s : string) :
  String.length (hd "" (go.SplitLines s)) <= String.length s.
Proof.
  induction s as [|c s IH]; cbn; [lia|].
  destruct (Ascii.eqb c "010"); cbn; [lia|].
  destruct (go.SplitLines s) as [|l ls]; cbn in *; lia.
Qed.

Lemma same_length_of_eq (a b : string) : a = b -> String.length a = String.length b.
Proof. now intros ->. Qed.

(* ===================================================================== *)
(** ** The conduit log                                                    *)
(* ===================================================================== *)

Section Conduit.

Context {R : Type}.
Implicit Types P : arcanist.Call -> Prop.
Import arcanist.

Lemma bind_some {A B} (m : M R A) (f : A -> M R B) (s : State R) (a : A) :
  result (m s) = Some a ->
  bind m f s
  = mkRun (calls (m s) ++ calls (f a (after (m s))))
      (result (f a (after (m s)))) (after (f a (after (m s)))).
Proof. intros H. unfold bind. now rewrite H. Qed.

Lemma bind_none {A B} (m : M R A) (f : A -> M R B) (s : State R) :
  result (m s) = None -> bind m f s = mkRun (calls (m s)) None (after (m s)).
Proof. intros H. unfold bind. now rewrite H. Qed.

Lemma emits_ret {A} P (a : A) : emits P (@ret R A a).
Proof. intros s. split; [constructor | reflexivity]. Qed.

Lemma emits_panic {A} P : emits P (@panic R A).
Proof. intros s. split; [constructor | reflexivity]. Qed.

Lemma emits_getClosed P (revision : string) : emits P (@getClosed R revision).
Proof. intros s. split; [constructor | reflexivity]. Qed.

Lemma emits_invoke {A} P (c : Call) (h : Handler R A) : P c -> emits P (invoke c h).
Proof.
  intros Hc s. unfold invoke. destruct (h (remote s)) as [[a r']|]; cbn;
    (split; [repeat constructor; exact Hc | reflexivity]).
Qed.

Lemma emits_bind {A B} P (m : M R A) (f : A -> M R B) :
  emits P m -> (forall a, emits P (f a)) -> emits P (bind m f).
Proof.
  intros Hm Hf s. unfold bind. destruct (Hm s) as [Hc Hs].
  destruct (result (m s)) as [a|]; cbn; [|split; assumption].
  destruct (Hf a (after (m s))) as [Hc' Hs']. split.
  - apply Forall_app. split; assumption.
  - congruence.
Qed.

Lemma emits_forEach {A} P (l : list A) (body : A -> M R unit) :
  (forall x, In x l -> emits P (body x)) -> emits P (forEach l body).
Proof.
  induction l as [|x r IH]; intros H; cbn [forEach].
  - apply emits_ret.
  - apply emits_bind; [apply H; now left|]. intros _. apply IH.
    intros y Hy. apply H. now right.
Qed.

Lemma emits_foldEach {A B} P (l : list A) (acc : B) (body : B -> A -> M R B) :
  (forall b x, emits P (body b x)) -> emits P (foldEach l acc body).
Proof.
  intros H. revert acc. induction l as [|x r IH]; intros acc; cbn [foldEach].
  - apply emits_ret.
  - apply emits_bind; [apply H|]. intros b. apply IH.
Qed.

Lemma emits_weaken {A} P Q (m : M R A) :
  (forall c, P c -> Q c) -> emits P m -> emits Q m.
Proof.
  intros HPQ Hm s. destruct (Hm s) as [Hc Hs]. split; [|exact Hs].
  eapply List.Forall_impl; eauto.
Qed.

End Conduit.

Ltac emits_step :=
  lazymatch goal with
  | |- arcanist.emits _ (arcanist.bind _ _) => apply emits_bind; [|intros]
  | |- arcanist.emits _ (arcanist.ret _) => apply emits_ret
  | |- arcanist.emits _ arcanist.panic => apply emits_panic
  | |- arcanist.emits _ (arcanist.getClosed _) => apply emits_getClosed
  | |- arcanist.emits _ (arcanist.invoke _ _) => apply emits_invoke
  | |- arcanist.emits _ (arcanist.forEach _ _) => apply emits_forEach; intros
  | |- arcanist.emits _ (arcanist.foldEach _ _ _) => apply emits_foldEach; intros
  | |- arcanist.emits _ (match ?x with _ => _ end) => destruct x
  end.

(* ===================================================================== *)
(** ** createDifferentialRevision: title and summary                      *)
(* ===================================================================== *)

Section Revision.

Context {R : Type} (env : arcanist.Env R) (repo : repository.Repo).
Import arcanist.

Lemma titleAndSummary_long (req : request.Request) :
  256 < String.length (hd "" (go.SplitLines (request.Description req))) ->
  revisionFields.Title (titleAndSummary req)
  = substring 0 252 (hd "" (go.SplitLines (request.Description req))) +:+ "..."
  /\ String.length (revisionFields.Title (titleAndSummary req)) = 255
  /\ revisionFields.Summary (titleAndSummary req) = request.Description req
  /\ revisionFields.Summary (titleAndSummary req) <> "".
Proof.
  intros Hlong. unfold titleAndSummary, differentialTitleLengthLimit.
  set (line := hd "" (go.SplitLines (request.Description req))) in *.
  pose proof (firstLine_length (request.Description req)) as Hle. fold line in Hle.
  destruct (Nat.ltb_spec 256 (String.length line)) as [_|Hn]; [|lia].
  change (256 - 4) with 252.
  set (title := substring 0 252 line +:+ "...").
  assert (Hlen : String.length title = 255).
  { unfold title. rewrite length_append, length_substring0 by lia. reflexivity. }
  cbn [revisionFields.Title revisionFields.Summary].
  destruct (String.eqb_spec title (request.Description req)) as [Heq|Hne].
  - apply same_length_of_eq in Heq. lia.
  - cbn [negb]. repeat split; try assumption.
    intros Hempty. rewrite Hempty in Hle. cbn in Hle. lia.
Qed.

Lemma titleAndSummary_summary_empty (req : request.Request) :
  revisionFields.Summary (titleAndSummary req) = ""
  <-> hd "" (go.SplitLines (request.Description req)) = request.Description req
      /\ String.length (request.Description req) <= 256.
Proof.
  destruct (Nat.lt_ge_cases 256
              (String.length (hd "" (go.SplitLines (request.Description req)))))
    as [Hlong|Hshort].
  - destruct (titleAndSummary_long req Hlong) as (_ & _ & Hs & Hne). split.
    + intros H. contradiction.
    + intros [Heq Hle]. rewrite Heq in Hlong. lia.
  - unfold titleAndSummary, differentialTitleLengthLimit.
    set (line := hd "" (go.SplitLines (request.Description req))) in *.
    destruct (Nat.ltb_spec 256 (String.length line)) as [Hn|_]; [lia|].
    cbn [revisionFields.Summary].
    destruct (String.eqb_spec line (request.Description req)) as [Heq|Hne]; cbn [negb].
    + split; [intros _|reflexivity]. split; [exact Heq|]. rewrite <- Heq. exact Hshort.
    + split.
      * intros Hempty. exfalso. apply Hne. unfold line. rewrite Hempty. reflexivity.
      * intros [Heq _]. contradiction.
Qed.

Lemma titleAndSummary_summary (req : request.Request) :
  revisionFields.Summary (titleAndSummary req) = ""
  \/ revisionFields.Summary (titleAndSummary req) = request.Description req.
Proof.
  unfold titleAndSummary. cbn [revisionFields.Summary].
  match goal with |- context [negb ?b] => destruct b end; cbn [negb]; auto.
Qed.

Lemma createDifferentialRevision_emits (revision : string) (diffID : Z)
    (req : request.Request) :
  emits (createsWith diffID req) (createDifferentialRevision env repo revision diffID req).
Proof.
  unfold createDifferentialRevision, queryUser.
  repeat emits_step; try (left; eexists; reflexivity).
  right. eexists. split; [reflexivity|]. split; reflexivity.
Qed.

(** The revision creations [createDifferentialRevision] logs carry the title
    and the summary of [titleAndSummary]. *)
Lemma createDifferentialRevision_request (revision : string) (diffID : Z)
    (req : request.Request) (s : State R) (r : createRevisionRequest.t) :
  In (CallCreateRevision r) (calls (createDifferentialRevision env repo revision diffID req s)) ->
  createRevisionRequest.DiffID r = diffID
  /\ revisionFields.Title (createRevisionRequest.Fields r)
     = revisionFields.Title (titleAndSummary req)
  /\ revisionFields.Summary (createRevisionRequest.Fields r)
     = revisionFields.Summary (titleAndSummary req).
Proof.
  intros Hin.
  destruct (createDifferentialRevision_emits revision diffID req s) as [Hall _].
  rewrite List.Forall_forall in Hall.
  destruct (Hall _ Hin) as [[email H]|(fields & H & Ht & Hs)]; [discriminate|].
  injection H as ->. cbn. auto.
Qed.

(** C6, as amended. For every review request whose description's first line
    exceeds 256 bytes, the revision [createDifferentialRevision] creates has a
    title of exactly 255 bytes, the first 252 bytes of that line followed by
    the 3-byte ellipsis, and a non-empty summary equal to the full
    description. *)
Theorem long_first_line_title (revision : string) (diffID : Z) (req : request.Request)
    (s : State R) (r : createRevisionRequest.t) :
  256 < String.length (hd "" (go.SplitLines (request.Description req))) ->
  In (CallCreateRevision r) (calls (createDifferentialRevision env repo revision diffID req s)) ->
  revisionFields.Title (createRevisionRequest.Fields r)
  = substring 0 252 (hd "" (go.SplitLines (request.Description req))) +:+ "..."
  /\ String.length (revisionFields.Title (createRevisionRequest.Fields r)) = 255
  /\ revisionFields.Summary (createRevisionRequest.Fields r) = request.Description req
  /\ revisionFields.Summary (createRevisionRequest.Fields r) <> "".
Proof.
  intros Hlong Hin.
  destruct (createDifferentialRevision_request _ _ _ _ _ Hin) as (_ & -> & ->).
  now apply titleAndSummary_long.
Qed.

(** C7, as amended. The revision [createDifferentialRevision] creates has no
    summary exactly when the description is a single line of at most 256
    bytes; otherwise (the first line was truncated, or the description has
    further lines) the summary is the full description. *)
Theorem summary_unset_iff_single_short_line (revision : string) (diffID : Z)
    (req : request.Request) (s : State R) (r : createRevisionRequest.t) :
  In (CallCreateRevision r) (calls (createDifferentialRevision env repo revision diffID req s)) ->
  (revisionFields.Summary (createRevisionRequest.Fields r) = ""
   <-> hd "" (go.SplitLines (request.Description req)) = request.Description req
       /\ String.length (request.Description req) <= 256)
  /\ (revisionFields.Summary (createRevisionRequest.Fields r) <> "" ->
      revisionFields.Summary (createRevisionRequest.Fields r) = request.Description req).
Proof.
  intros Hin.
  destruct (createDifferentialRevision_request _ _ _ _ _ Hin) as (_ & _ & ->).
  split; [apply titleAndSummary_summary_empty|].
  intros Hne. destruct (titleAndSummary_summary req); [contradiction | assumption].
Qed.

End Revision.

Lemma long_first_line_title_witness :
  256 < String.length (hd "" (go.SplitLines (request.Description examples.longRequest)))
  /\ In (arcanist.CallCreateRevision examples.longRevisionRequest)
       (arcanist.calls
          (arcanist.createDifferentialRevision examples.phabricator examples.repo "FIRST" 7
             examples.longRequest examples.start))
  /\ String.length
       (arcanist.revisionFields.Title
          (arcanist.createRevisionRequest.Fields examples.longRevisionRequest)) = 255
  /\ arcanist.revisionFields.Summary
       (arcanist.createRevisionRequest.Fields examples.longRevisionRequest)
     = request.Description examples.longRequest.
Proof.
  assert (Hlong : 256 < String.length
                          (hd "" (go.SplitLines (request.Description examples.longRequest))))
    by (vm_compute; lia).
  assert (Hin : In (arcanist.CallCreateRevision examples.longRevisionRequest)
                  (arcanist.calls
                     (arcanist.createDifferentialRevision examples.phabricator
                        examples.repo "FIRST" 7 examples.longRequest examples.start)))
    by (vm_compute; left; reflexivity).
  split; [exact Hlong|]. split; [exact Hin|].
  destruct (long_first_line_title examples.phabricator examples.repo "FIRST" 7
              examples.longRequest examples.start examples.longRevisionRequest Hlong Hin)
    as (_ & Hlen & Hsum & _).
  split; [exact Hlen | exact Hsum].
Defined.

(** C6 as stated fails: for a first line of 257 bytes the title sent has 255
    bytes, not 256. *)
Lemma long_first_line_title_255 :
  String.length (hd "" (go.SplitLines (request.Description examples.longRequest))) = 257
  /\ arcanist.calls
       (arcanist.createDifferentialRevision examples.phabricator examples.repo "FIRST" 7
          examples.longRequest examples.start)
     = [arcanist.CallCreateRevision examples.longRevisionRequest]
  /\ String.length
       (arcanist.revisionFields.Title
          (arcanist.createRevisionRequest.Fields examples.longRevisionRequest)) = 255.
Proof. repeat split; vm_compute; reflexivity. Qed.

Lemma summary_unset_iff_single_short_line_witness :
  In (arcanist.CallCreateRevision examples.shortRevisionRequest)
    (arcanist.calls
       (arcanist.createDifferentialRevision examples.phabricator examples.repo "FIRST" 7
          examples.shortRequest examples.start))
  /\ arcanist.revisionFields.Summary
       (arcanist.createRevisionRequest.Fields examples.shortRevisionRequest) = "".
Proof.
  assert (Hin : In (arcanist.CallCreateRevision examples.shortRevisionRequest)
                  (arcanist.calls
                     (arcanist.createDifferentialRevision examples.phabricator
                        examples.repo "FIRST" 7 examples.shortRequest examples.start)))
    by (vm_compute; left; reflexivity).
  split; [exact Hin|].
  apply (summary_unset_iff_single_short_line examples.phabricator examples.repo "FIRST" 7
           examples.shortRequest examples.start examples.shortRevisionRequest Hin).
  split; [reflexivity | vm_compute; lia].
Defined.

(** C7 as stated fails: the first line of a two-line description has 7
    bytes, yet the revision is created with the full description as its
    summary. *)
Lemma two_line_description_has_summary :
  String.length (hd "" (go.SplitLines (request.Description examples.twoLineRequest))) = 7
  /\ arcanist.calls
       (arcanist.createDifferentialRevision examples.phabricator examples.repo "FIRST" 7
          examples.twoLineRequest examples.start)
     = [arcanist.CallCreateRevision examples.twoLineRevisionRequest]
  /\ arcanist.revisionFields.Title
       (arcanist.createRevisionRequest.Fields examples.twoLineRevisionRequest) = "Fix bug"
  /\ arcanist.revisionFields.Summary
       (arcanist.createRevisionRequest.Fields examples.twoLineRevisionRequest)
     = request.Description examples.twoLineRequest.
Proof. repeat split; vm_compute; reflexivity. Qed.

(* ===================================================================== *)
(** ** Report translation                                                 *)
(* ===================================================================== *)

Section Reports.

Context {R : Type} (env : arcanist.Env R).
Import arcanist.

(** C9. The CI status translation maps "success" to "pass", "failure" to
    "fail" and any other status, the empty one included, to "skip"; for a CI
    report without a link (an empty URL) the generated unit property is
    empty, and [reportUnitResults] posts nothing. *)
Theorem ci_status_translation (status : string) (report : ci.Report) (diffID : Z)
    (s : State R) :
  translateReportStatusToDifferentialUnitResult "success" = "pass"
  /\ translateReportStatusToDifferentialUnitResult "failure" = "fail"
  /\ translateReportStatusToDifferentialUnitResult "" = "skip"
  /\ (status <> "success" -> status <> "failure" ->
      translateReportStatusToDifferentialUnitResult status = "skip")
  /\ (ci.URL report = "" ->
      generateUnitDiffProperty env report = go.Ok ""
      /\ reportUnitResults env diffID report s = mkRun [] (Some tt) s).
Proof.
  split; [reflexivity|]. split; [reflexivity|]. split; [reflexivity|]. split.
  - intros H1 H2. unfold translateReportStatusToDifferentialUnitResult.
    destruct (String.eqb_spec status "success"); [contradiction|].
    destruct (String.eqb_spec status "failure"); [contradiction|]. reflexivity.
  - intros Hurl. unfold reportUnitResults, generateUnitDiffProperty.
    rewrite Hurl. split; reflexivity.
Qed.

End Reports.

Lemma ci_status_translation_witness :
  arcanist.translateReportStatusToDifferentialUnitResult "pending" = "skip"
  /\ arcanist.generateUnitDiffProperty examples.phabricator
       (ci.mkReport "" "jenkins" "success") = go.Ok ""
  /\ arcanist.calls
       (arcanist.reportUnitResults examples.phabricator 7
          (ci.mkReport "" "jenkins" "success") examples.start) = [].
Proof.
  destruct (ci_status_translation examples.phabricator "pending"
              (ci.mkReport "" "jenkins" "success") 7 examples.start)
    as (_ & _ & _ & Hskip & Hurl).
  split; [apply Hskip; discriminate|].
  destruct (Hurl eq_refl) as [Hgen Hrun].
  split; [exact Hgen|]. rewrite Hrun. reflexivity.
Defined.

(* ===================================================================== *)
(** ** buildCommentRequests                                               *)
(* ===================================================================== *)

Section CommentRequests.

Context {R : Type} (env : arcanist.Env R).
Import arcanist.

Lemma inlineRequestsOfThread_unanchored (differentialReview : DifferentialReview.t)
    (existing : list comment.Comment) (commitToDiffMap : gmap string string)
    (t : review.CommentThread) :
  unanchored commitToDiffMap t ->
  inlineRequestsOfThread env differentialReview existing commitToDiffMap t = [].
Proof.
  unfold unanchored, inlineRequestsOfThread.
  destruct (comment.Location_ (review.Comment t)) as [location|]; [|reflexivity].
  intros [Hpath|Hdiff].
  - rewrite Hpath. reflexivity.
  - rewrite Hdiff. cbn. destruct (negb _); reflexivity.
Qed.

Lemma buildCommentRequestsForThread_anchor (differentialReview : DifferentialReview.t)
    (existing : list comment.Comment) (t : review.CommentThread) (diffID path : string)
    (lineNumber : Z) :
  Forall (fun request =>
            createInlineRequest.DiffID request = diffID
            /\ createInlineRequest.FilePath request = path)
    (buildCommentRequestsForThread env differentialReview existing t diffID path lineNumber).
Proof.
  induction t as [h c ch IH] using review.CommentThread_forall_ind.
  cbn [buildCommentRequestsForThread review.Comment review.Children].
  apply Forall_app. split.
  - destruct (negb _); repeat constructor.
  - induction IH as [|x r Hx _ IHr]; [constructor|].
    cbn [flat_map]. apply Forall_app. split; assumption.
Qed.

Lemma inlineRequestsOfThread_anchor (differentialReview : DifferentialReview.t)
    (existing : list comment.Comment) (commitToDiffMap : gmap string string)
    (t : review.CommentThread) :
  Forall (fun request =>
            exists location,
              comment.Location_ (review.Comment t) = Some location
              /\ comment.Path location = createInlineRequest.FilePath request
              /\ createInlineRequest.FilePath request <> ""
              /\ commitToDiffMap !! comment.Commit location
                 = Some (createInlineRequest.DiffID request)
              /\ createInlineRequest.DiffID request <> "")
    (inlineRequestsOfThread env differentialReview existing commitToDiffMap t).
Proof.
  unfold inlineRequestsOfThread.
  destruct (comment.Location_ (review.Comment t)) as [location|]; [|constructor].
  destruct (String.eqb_spec (comment.Path location) "") as [|Hpath]; [constructor|].
  cbn [negb].
  destruct (commitToDiffMap !! comment.Commit location) as [diffID|] eqn:Hdiff;
    [|constructor].
  change (default "" (Some diffID)) with diffID.
  destruct (String.eqb_spec diffID "") as [|Hid]; [constructor|].
  cbn [negb]. eapply List.Forall_impl; [|apply buildCommentRequestsForThread_anchor].
  intros request [-> ->]. exists location. auto.
Qed.

(** C10. A thread whose root comment has no location or an empty file path,
    or whose commit has no diff in the map, adds no inline request: the
    requests built are those built without it.  Every inline request built is
    anchored to the file path of a thread on a commit with a known diff, and
    one top-level "comment" request is built if and only if at least one
    inline request was. *)
Theorem unanchored_threads_not_mirrored (differentialReview : DifferentialReview.t)
    (before after threads : list review.CommentThread) (t : review.CommentThread)
    (existing : list comment.Comment) (commitToDiffMap : gmap string string) :
  unanchored commitToDiffMap t ->
  buildCommentRequests env differentialReview (before ++ t :: after) existing
    commitToDiffMap
  = buildCommentRequests env differentialReview (before ++ after) existing commitToDiffMap
  /\ Forall (fun request =>
               exists c location,
                 In c threads
                 /\ comment.Location_ (review.Comment c) = Some location
                 /\ comment.Path location = createInlineRequest.FilePath request
                 /\ createInlineRequest.FilePath request <> ""
                 /\ commitToDiffMap !! comment.Commit location
                    = Some (createInlineRequest.DiffID request)
                 /\ createInlineRequest.DiffID request <> "")
       (fst (buildCommentRequests env differentialReview threads existing commitToDiffMap))
  /\ snd (buildCommentRequests env differentialReview threads existing commitToDiffMap)
     = match fst (buildCommentRequests env differentialReview threads existing
                    commitToDiffMap) with
       | [] => []
       | _ :: _ =>
           [createCommentRequest.mk (DifferentialReview.ID differentialReview) ""
              "comment" true]
       end.
Proof.
  intros Hun. split; [|split].
  - unfold buildCommentRequests. rewrite !List.flat_map_app. cbn [flat_map].
    rewrite (inlineRequestsOfThread_unanchored _ _ _ _ Hun). reflexivity.
  - unfold buildCommentRequests. cbn [fst].
    induction threads as [|c rest IH]; [constructor|].
    cbn [flat_map]. apply Forall_app. split.
    + eapply List.Forall_impl; [|apply inlineRequestsOfThread_anchor].
      intros request (location & H). exists c, location. split; [now left | exact H].
    + eapply List.Forall_impl; [|exact IH].
      intros request (c' & location & Hin & H). exists c', location.
      split; [now right | exact H].
  - unfold buildCommentRequests. cbn [fst snd].
    destruct (flat_map _ threads); reflexivity.
Qed.

End CommentRequests.

Lemma unanchored_threads_not_mirrored_witness :
  arcanist.unanchored {["ABCDEFG" := "7"]} examples.wholeReview
  /\ arcanist.buildCommentRequests examples.phabricator examples.revision12
       ([examples.thread] ++ examples.wholeReview :: []) [] {["ABCDEFG" := "7"]}
     = arcanist.buildCommentRequests examples.phabricator examples.revision12
         ([examples.thread] ++ []) [] {["ABCDEFG" := "7"]}
  /\ length (fst (arcanist.buildCommentRequests examples.phabricator examples.revision12
                    [examples.thread; examples.wholeReview] [] {["ABCDEFG" := "7"]})) = 2
  /\ snd (arcanist.buildCommentRequests examples.phabricator examples.revision12
            [examples.thread; examples.wholeReview] [] {["ABCDEFG" := "7"]})
     = [arcanist.createCommentRequest.mk "12" "" "comment" true].
Proof.
  assert (Hun : arcanist.unanchored {["ABCDEFG" := "7"]} examples.wholeReview)
    by (left; reflexivity).
  split; [exact Hun|].
  destruct (unanchored_threads_not_mirrored examples.phabricator examples.revision12
              [examples.thread] [] [examples.thread; examples.wholeReview]
              examples.wholeReview [] {["ABCDEFG" := "7"]} Hun)
    as (Hsame & _ & Hcomment).
  split; [exact Hsame|]. split; [vm_compute; reflexivity|].
  rewrite Hcomment. vm_compute. reflexivity.
Defined.

(* ===================================================================== *)
(** ** The reconciler                                                     *)
(* ===================================================================== *)

Section Reconciler.

Context {R : Type} (env : arcanist.Env R) (repo : repository.Repo).
Import arcanist.

Lemma findCommitForDiff_emits (diffIDString : string) :
  emits mirrors (findCommitForDiff env diffIDString).
Proof. unfold findCommitForDiff, readDiff. repeat emits_step; reflexivity. Qed.

Lemma postDiffProperty_emits (diffID : Z) (name : string) (generated : go.Result string) :
  emits mirrors (postDiffProperty env diffID name generated).
Proof.
  unfold postDiffProperty, setDiffProperty.
  destruct generated as [msg|diffProperty]; [apply emits_panic|].
  destruct (negb (String.eqb diffProperty "")); repeat emits_step; reflexivity.
Qed.

Lemma mirrorStatusesForEachCommit_emits (r : review.Review)
    (commitToDiffIDMap : gmap string Z) :
  emits mirrors (mirrorStatusesForEachCommit env repo r commitToDiffIDMap).
Proof.
  unfold mirrorStatusesForEachCommit, reportUnitResults, reportLintResults.
  apply emits_forEach. intros [commitHash diffID] _.
  repeat emits_step; try apply postDiffProperty_emits.
Qed.

Lemma mirrorCommentsIntoReview_emits (differentialReview : DifferentialReview.t)
    (r : review.Review) :
  emits mirrors (mirrorCommentsIntoReview env repo differentialReview r).
Proof.
  unfold mirrorCommentsIntoReview, LoadComments.
  apply emits_bind.
  - apply emits_foldEach. intros [m1 m2] diffIDString.
    apply emits_bind; [apply findCommitForDiff_emits|]. intros lastCommit.
    destruct (go.Atoi diffIDString); apply emits_ret.
  - intros [m1 m2]. apply emits_bind; [apply mirrorStatusesForEachCommit_emits|].
    intros _. apply emits_bind; [apply emits_invoke; reflexivity|]. intros existing.
    destruct (buildCommentRequests env differentialReview (review.Comments r) existing m1)
      as [inlineRequests commentRequests].
    repeat emits_step; reflexivity.
Qed.

Lemma existsb_isCommitHash (head : string) (hashes : list (list string)) :
  In [commitHashType; head] hashes -> existsb (isCommitHash head) hashes = true.
Proof.
  intros H. apply List.existsb_exists. exists [commitHashType; head]. split; [exact H|].
  cbn. now rewrite !String.eqb_refl.
Qed.

Lemma updateReviewDiffs_head (differentialReview : DifferentialReview.t) (head : string)
    (req : request.Request) (r : review.Review) :
  In [commitHashType; head] (DifferentialReview.Hashes differentialReview) ->
  emits mirrors (updateReviewDiffs env repo differentialReview head req r).
Proof.
  intros H. unfold updateReviewDiffs. rewrite (existsb_isCommitHash _ _ H).
  destruct (isClosed differentialReview); [apply emits_ret|].
  destruct (repository.MergeBase repo (request.TargetRef req) head);
    [apply mirrorCommentsIntoReview_emits | apply emits_panic].
Qed.

Lemma updateReviewDiffs_closed (differentialReview : DifferentialReview.t) (head : string)
    (req : request.Request) (r : review.Review) :
  isClosed differentialReview = true ->
  emits mirrors (updateReviewDiffs env repo differentialReview head req r).
Proof. intros H. unfold updateReviewDiffs. rewrite H. apply emits_ret. Qed.

Lemma updateReviewDiffs_emits (differentialReview : DifferentialReview.t) (head : string)
    (req : request.Request) (r : review.Review) :
  emits (fun _ => True) (updateReviewDiffs env repo differentialReview head req r).
Proof.
  unfold updateReviewDiffs, createDifferentialDiff.
  destruct (isClosed differentialReview); [apply emits_ret|].
  destruct (repository.MergeBase repo (request.TargetRef req) head); [|apply emits_panic].
  destruct (existsb _ _).
  - eapply emits_weaken; [|apply mirrorCommentsIntoReview_emits]. trivial.
  - repeat emits_step; trivial.
Qed.

Lemma mirrors_not_diff_or_revision (c : Call) : mirrors c -> isDiffOrRevisionCall c = false.
Proof. unfold mirrors. destruct c; cbn; congruence. Qed.

Lemma EnsureRequestExists_cached (review : review.Review) (s : State R) :
  default false (closedRevisionsMap s !! review.Revision review) = true ->
  EnsureRequestExists env repo review s = mkRun [] (Some tt) s.
Proof.
  intros H. unfold EnsureRequestExists, bind, getClosed. cbn. rewrite H. reflexivity.
Qed.

Lemma closeIfOpen_run (d : DifferentialReview.t) (s : State R) :
  result (closeIfOpen env d s) = Some tt ->
  closedRevisionsMap (after (closeIfOpen env d s)) = closedRevisionsMap s
  /\ if negb (isClosed d)
     then exists id, go.Atoi (DifferentialReview.ID d) = Some id
                     /\ calls (closeIfOpen env d s) = [closeCall id]
     else calls (closeIfOpen env d s) = [].
Proof.
  unfold closeIfOpen, close. destruct (negb (isClosed d)); [|now split].
  destruct (go.Atoi (DifferentialReview.ID d)) as [id|]; [|discriminate].
  unfold bind, invoke.
  destruct (do_differential_close env (differentialCloseRequest.mk id) (remote s))
    as [[resp r']|]; cbn; [|discriminate].
  intros _. split; [reflexivity|]. exists id. split; reflexivity.
Qed.

(** The closing loop, when it returns: one close call per listed revision
    that is not closed, in order, each with the revision's own number. *)
Lemma close_loop (listed : list DifferentialReview.t) (s : State R) :
  result (forEach listed (closeIfOpen env) s) = Some tt ->
  exists ids,
    calls (forEach listed (closeIfOpen env) s) = map closeCall ids
    /\ map Some ids
       = map (fun d => go.Atoi (DifferentialReview.ID d))
           (List.filter (fun d => negb (isClosed d)) listed)
    /\ closedRevisionsMap (after (forEach listed (closeIfOpen env) s))
       = closedRevisionsMap s.
Proof.
  revert s. induction listed as [|d rest IH]; intros s Hres.
  - exists []. repeat split.
  - cbn [forEach List.filter] in *.
    destruct (result (closeIfOpen env d s)) as [[]|] eqn:Hd.
    + rewrite (bind_some _ _ _ _ Hd) in *. cbn [result calls after] in *.
      destruct (IH _ Hres) as (ids & Hc & Hids & Hs).
      destruct (closeIfOpen_run d s Hd) as [Hs0 Hcalls].
      destruct (negb (isClosed d)).
      * destruct Hcalls as (id & Hid & Hcalls). exists (id :: ids).
        rewrite Hcalls, Hc. cbn. rewrite Hid, Hids. repeat split. congruence.
      * exists ids. rewrite Hcalls, Hc. repeat split; [assumption | congruence].
    + rewrite (bind_none _ _ _ Hd) in Hres. discriminate.
Qed.

Lemma listDifferentialReviewsOrDie_run (revision : string) (s : State R) :
  listDifferentialReviewsOrDie env revision s
  = match do_differential_query env (revisionQuery revision) (remote s) with
    | Some (response, r') =>
        mkRun [CallQuery (revisionQuery revision)]
          (Some (queryResponse.Response response)) (mkState r' (closedRevisionsMap s))
    | None => mkRun [CallQuery (revisionQuery revision)] None s
    end.
Proof.
  unfold listDifferentialReviewsOrDie, bind, invoke, revisionQuery.
  destruct (do_differential_query env _ (remote s)) as [[response r']|]; reflexivity.
Qed.

Lemma EnsureRequestExists_submitted (review : review.Review) (s : State R) :
  review.Submitted review = true ->
  default false (closedRevisionsMap s !! review.Revision review) = false ->
  result (EnsureRequestExists env repo review s) = Some tt ->
  exists response r' ids,
    do_differential_query env (revisionQuery (review.Revision review)) (remote s)
    = Some (response, r')
    /\ calls (EnsureRequestExists env repo review s)
       = CallQuery (revisionQuery (review.Revision review)) :: map closeCall ids
    /\ map Some ids
       = map (fun d => go.Atoi (DifferentialReview.ID d))
           (List.filter (fun d => negb (isClosed d)) (queryResponse.Response response))
    /\ closedRevisionsMap (after (EnsureRequestExists env repo review s))
       = <[review.Revision review := true]> (closedRevisionsMap s).
Proof.
  intros Hsub Hmiss. unfold EnsureRequestExists.
  rewrite Hsub. fold (closeIfOpen env).
  rewrite (bind_some _ _ s false) by (cbn; now rewrite Hmiss).
  cbn [getClosed calls result after app].
  pose proof (listDifferentialReviewsOrDie_run (review.Revision review) s) as Hlist.
  destruct (do_differential_query env _ (remote s)) as [[response r']|].
  - rewrite (bind_some _ _ s (queryResponse.Response response)) by now rewrite Hlist.
    rewrite Hlist. cbn [calls result after].
    set (s1 := mkState r' (closedRevisionsMap s)).
    destruct (result (forEach (queryResponse.Response response) (closeIfOpen env) s1))
      as [[]|] eqn:Hloop.
    + rewrite (bind_some _ _ _ _ Hloop). cbn [calls result after]. intros _.
      destruct (close_loop _ _ Hloop) as (ids & Hc & Hids & Hs).
      exists response, r', ids. split; [reflexivity|].
      rewrite Hc. repeat split; try assumption.
      * cbn. now rewrite app_nil_r.
      * cbn. rewrite Hs. reflexivity.
    + rewrite (bind_none _ _ _ Hloop). discriminate.
  - rewrite bind_none by now rewrite Hlist. discriminate.
Qed.

Lemma close_loop_returns (listed : list DifferentialReview.t) (s : State R) :
  Forall (fun d => isClosed d = true
                   \/ exists id, go.Atoi (DifferentialReview.ID d) = Some id) listed ->
  (forall req p, do_differential_close env req p <> None) ->
  result (forEach listed (closeIfOpen env) s) = Some tt.
Proof.
  intros Hall Hclose. revert s. induction Hall as [|d rest Hd _ IH]; intros s; [reflexivity|].
  cbn [forEach].
  assert (Hrun : result (closeIfOpen env d s) = Some tt).
  { unfold closeIfOpen, close. destruct Hd as [-> | [id Hid]]; [reflexivity|].
    destruct (negb (isClosed d)); [|reflexivity]. rewrite Hid.
    unfold bind, invoke.
    destruct (do_differential_close env (differentialCloseRequest.mk id) (remote s))
      as [[resp r']|] eqn:Hc; [reflexivity|]. now apply Hclose in Hc. }
  rewrite (bind_some _ _ _ _ Hrun). cbn [result]. apply IH.
Qed.

(** A submitted review reconciled against a review tool that answers: the
    call returns when the open revisions listed have decimal numbers. *)
Lemma EnsureRequestExists_submitted_returns (review : review.Review) (s : State R)
    (response : queryResponse.t) (r' : R) :
  review.Submitted review = true ->
  do_differential_query env (revisionQuery (review.Revision review)) (remote s)
  = Some (response, r') ->
  Forall (fun d => isClosed d = true
                   \/ exists id, go.Atoi (DifferentialReview.ID d) = Some id)
    (queryResponse.Response response) ->
  (forall req p, do_differential_close env req p <> None) ->
  result (EnsureRequestExists env repo review s) = Some tt.
Proof.
  intros Hsub Hq Hall Hclose.
  destruct (default false (closedRevisionsMap s !! review.Revision review)) eqn:Hc.
  { now rewrite EnsureRequestExists_cached. }
  unfold EnsureRequestExists. rewrite Hsub. fold (closeIfOpen env).
  rewrite (bind_some _ _ s false) by (cbn; now rewrite Hc).
  cbn [getClosed calls result after app].
  pose proof (listDifferentialReviewsOrDie_run (review.Revision review) s) as Hlist.
  rewrite Hq in Hlist.
  rewrite (bind_some _ _ s (queryResponse.Response response)) by now rewrite Hlist.
  rewrite Hlist. cbn [calls result after].
  rewrite (bind_some _ _ _ tt) by now apply close_loop_returns.
  reflexivity.
Qed.

Lemma EnsureRequestExists_pending_emits (review : review.Review) :
  review.Submitted review = false ->
  emits (fun _ => True) (EnsureRequestExists env repo review).
Proof.
  intros Hsub. unfold EnsureRequestExists, listDifferentialReviewsOrDie,
    createDifferentialDiff. rewrite Hsub.
  apply emits_bind; [apply emits_getClosed|]. intros [|]; [apply emits_ret|].
  apply emits_bind; [repeat emits_step; trivial|]. intros existingReviews.
  destruct (repository.GetBaseCommit repo review); [|apply emits_ret].
  destruct (repository.GetHeadCommit repo review); [|apply emits_ret].
  destruct (0 <? length existingReviews)%nat.
  - apply emits_forEach. intros. apply updateReviewDiffs_emits.
  - apply emits_bind; [apply emits_invoke; trivial|]. intros [msg| |d];
      [apply emits_panic | apply emits_ret |].
    apply emits_bind.
    + eapply emits_weaken; [|apply createDifferentialRevision_emits]. trivial.
    + intros [msg|rev]; [apply emits_panic|].
      apply emits_bind; [repeat emits_step; trivial|]. intros.
      apply emits_forEach. intros. apply updateReviewDiffs_emits.
Qed.

(** [EnsureRequestExists] leaves the cache as it was or marks its own
    revision. *)
Lemma EnsureRequestExists_cache (review : review.Review) (s : State R) :
  closedRevisionsMap (after (EnsureRequestExists env repo review s)) = closedRevisionsMap s
  \/ closedRevisionsMap (after (EnsureRequestExists env repo review s))
     = <[review.Revision review := true]> (closedRevisionsMap s).
Proof.
  destruct (review.Submitted review) eqn:Hsub;
    [|left; apply (EnsureRequestExists_pending_emits review Hsub s)].
  destruct (default false (closedRevisionsMap s !! review.Revision review)) eqn:Hc.
  { left. now rewrite EnsureRequestExists_cached. }
  unfold EnsureRequestExists. rewrite Hsub. fold (closeIfOpen env).
  rewrite (bind_some _ _ s false) by (cbn; now rewrite Hc).
  cbn [getClosed calls result after app].
  assert (Hl : emits (fun _ => True)
                 (listDifferentialReviewsOrDie env (review.Revision review))).
  { unfold listDifferentialReviewsOrDie. repeat emits_step; trivial. }
  destruct (result (listDifferentialReviewsOrDie env (review.Revision review) s))
    as [listed|] eqn:Hlist.
  - rewrite (bind_some _ _ _ _ Hlist). cbn [after].
    set (s1 := after (listDifferentialReviewsOrDie env (review.Revision review) s)).
    assert (Hs1 : closedRevisionsMap s1 = closedRevisionsMap s) by apply Hl.
    assert (Hloop : emits (fun _ => True) (forEach listed (closeIfOpen env))).
    { apply emits_forEach. intros d _. unfold closeIfOpen, close.
      repeat emits_step; trivial. }
    destruct (result (forEach listed (closeIfOpen env) s1)) as [[]|] eqn:Hres.
    + rewrite (bind_some _ _ _ _ Hres). cbn. right.
      now rewrite (proj2 (Hloop s1)), Hs1.
    + rewrite (bind_none _ _ _ Hres). cbn. left. now rewrite (proj2 (Hloop s1)), Hs1.
  - rewrite (bind_none _ _ _ Hlist). cbn. left. apply Hl.
Qed.

Lemma EnsureRequestExists_keeps (review : review.Review) (s : State R)
    (revision : string) :
  closedRevisionsMap s !! revision = Some true ->
  closedRevisionsMap (after (EnsureRequestExists env repo review s)) !! revision
  = Some true.
Proof.
  intros H. destruct (EnsureRequestExists_cache review s) as [-> | ->]; [exact H|].
  destruct (decide (review.Revision review = revision)) as [->|Hne].
  - apply lookup_insert_eq.
  - now rewrite lookup_insert_ne.
Qed.

Lemma EnsureAll_keeps (reviews : list review.Review) (s : State R) (revision : string) :
  closedRevisionsMap s !! revision = Some true ->
  closedRevisionsMap (after (EnsureAll env repo reviews s)) !! revision = Some true.
Proof.
  unfold EnsureAll. revert s. induction reviews as [|r rest IH]; intros s H; [exact H|].
  cbn [forEach]. pose proof (EnsureRequestExists_keeps r s revision H) as Hr.
  destruct (result (EnsureRequestExists env repo r s)) as [[]|] eqn:Hres.
  - rewrite (bind_some _ _ _ _ Hres). cbn [after]. now apply IH.
  - rewrite (bind_none _ _ _ Hres). exact Hr.
Qed.

(** A pending review whose listed revisions are settled: the pass makes no
    call that creates a diff or creates, updates or closes a revision. *)
Lemma EnsureRequestExists_settled (review : review.Review) (s : State R) :
  review.Submitted review = false ->
  (forall response r',
     do_differential_query env (revisionQuery (review.Revision review)) (remote s)
     = Some (response, r') ->
     settled (repository.GetHeadCommit repo review) (queryResponse.Response response)) ->
  Forall (fun c => isDiffOrRevisionCall c = false)
    (calls (EnsureRequestExists env repo review s)).
Proof.
  intros Hsub Hsettled.
  destruct (default false (closedRevisionsMap s !! review.Revision review)) eqn:Hc.
  { rewrite EnsureRequestExists_cached by exact Hc. constructor. }
  unfold EnsureRequestExists. rewrite Hsub.
  rewrite (bind_some _ _ s false) by (cbn; now rewrite Hc).
  cbn [getClosed calls result after app].
  pose proof (listDifferentialReviewsOrDie_run (review.Revision review) s) as Hlist.
  destruct (do_differential_query env _ (remote s)) as [[response r']|].
  - rewrite (bind_some _ _ s (queryResponse.Response response)) by now rewrite Hlist.
    rewrite Hlist. cbn [calls result after].
    destruct (Hsettled response r' eq_refl) as [Hne Hall].
    constructor; [reflexivity|].
    destruct (repository.GetBaseCommit repo review); [|constructor].
    destruct (repository.GetHeadCommit repo review) as [head|]; [|constructor].
    destruct (queryResponse.Response response) as [|d rest] eqn:Hresp; [contradiction|].
    change (0 <? length (d :: rest))%nat with true. cbv iota.
    specialize (Hall head eq_refl).
    eapply List.Forall_impl; [intros c; apply mirrors_not_diff_or_revision|].
    apply emits_forEach. intros x Hx.
    rewrite List.Forall_forall in Hall. destruct (Hall x Hx) as [Hclosed|Hhead].
    + now apply updateReviewDiffs_closed.
    + now apply updateReviewDiffs_head.
  - rewrite bind_none by now rewrite Hlist. rewrite Hlist. repeat constructor.
Qed.

(** C8. For a remote revision whose hash-set contains the head commit of the
    review, [updateReviewDiffs] makes no call that creates a diff or creates,
    updates or closes a revision: every call it makes belongs to comment and
    report mirroring.  For a pending review whose listed revisions all
    contain the head commit, the same holds of the whole pass of
    [EnsureRequestExists], which adds only its query. *)
Theorem head_present_only_mirroring (differentialReview : DifferentialReview.t)
    (head : string) (r : review.Review) (s : State R) :
  In [commitHashType; head] (DifferentialReview.Hashes differentialReview) ->
  Forall (fun c => isMirroringCall c = true)
    (calls (updateReviewDiffs env repo differentialReview head (review.Request r) r s))
  /\ Forall (fun c => isDiffOrRevisionCall c = false)
       (calls (updateReviewDiffs env repo differentialReview head (review.Request r) r s))
  /\ (forall response r',
        review.Submitted r = false ->
        repository.GetHeadCommit repo r = Some head ->
        do_differential_query env (revisionQuery (review.Revision r)) (remote s)
        = Some (response, r') ->
        In differentialReview (queryResponse.Response response) ->
        Forall (fun d => In [commitHashType; head] (DifferentialReview.Hashes d))
          (queryResponse.Response response) ->
        Forall (fun c => isDiffOrRevisionCall c = false)
          (calls (EnsureRequestExists env repo r s))).
Proof.
  intros Hhead.
  pose proof (proj1 (updateReviewDiffs_head differentialReview head (review.Request r) r
                       Hhead s)) as Hm.
  split; [exact Hm|]. split.
  - eapply List.Forall_impl; [|exact Hm]. intros c. apply mirrors_not_diff_or_revision.
  - intros response r' Hsub Hh Hq Hin Hall. apply EnsureRequestExists_settled; [exact Hsub|].
    intros response' r'' Hq'. rewrite Hq in Hq'. injection Hq' as <- <-.
    split; [intros Hnil; rewrite Hnil in Hin; destruct Hin|].
    intros h Hh'. rewrite Hh in Hh'. injection Hh' as <-.
    eapply List.Forall_impl; [|exact Hall]. intros d Hd. now right.
Qed.


End Reconciler.

(* ===================================================================== *)
(** ** The reconciler on the example review tool                          *)
(* ===================================================================== *)

Lemma head_present_only_mirroring_witness :
  In [arcanist.commitHashType; "HEAD"]
    (arcanist.DifferentialReview.Hashes examples.revision12)
  /\ arcanist.calls
       (arcanist.updateReviewDiffs examples.phabricator examples.repo examples.revision12
          "HEAD" (review.Request examples.pending) examples.pending examples.start)
     = [arcanist.CallReadDiff 7;
        arcanist.CallSetDiffProperty 7 arcanist.unitDiffPropertyName examples.passProperty;
        arcanist.CallLoadComments examples.revision12]
  /\ Forall (fun c => arcanist.isDiffOrRevisionCall c = false)
       (arcanist.calls
          (arcanist.updateReviewDiffs examples.phabricator examples.repo
             examples.revision12 "HEAD" (review.Request examples.pending) examples.pending
             examples.start)).
Proof.
  assert (Hhead : In [arcanist.commitHashType; "HEAD"]
                    (arcanist.DifferentialReview.Hashes examples.revision12))
    by (right; left; reflexivity).
  split; [exact Hhead|]. split; [vm_compute; reflexivity|].
  apply (head_present_only_mirroring examples.phabricator examples.repo
           examples.revision12 "HEAD" examples.pending examples.start Hhead).
Defined.

(** The submitted example: revision 12 is closed, revision 13, closed
    already, is left alone. *)
Lemma submitted_example_calls :
  arcanist.calls
    (arcanist.EnsureRequestExists examples.phabricator examples.repo examples.submitted
       examples.start)
  = [arcanist.CallQuery (arcanist.revisionQuery "FIRST"); arcanist.closeCall 12].
Proof. vm_compute. reflexivity. Qed.


(** With a revision that carries the head commit from the start, and a
    review tool that holds the property set by the first call, the second
    call sets the unit property of diff 7 again. *)
Lemma EnsureRequestExists_second_call_sets_property :
  arcanist.result
    (arcanist.EnsureRequestExists examples.phabricator examples.repo examples.pending
       examples.start) = Some tt
  /\ examples.properties
       (arcanist.remote
          (arcanist.after
             (arcanist.EnsureRequestExists examples.phabricator examples.repo
                examples.pending examples.start)))
     = [(7%Z, arcanist.unitDiffPropertyName, examples.passProperty)]
  /\ List.filter arcanist.isMutation
       (arcanist.calls
          (arcanist.EnsureRequestExists examples.phabricator examples.repo examples.pending
             (arcanist.after
                (arcanist.EnsureRequestExists examples.phabricator examples.repo
                   examples.pending examples.start))))
     = [arcanist.CallSetDiffProperty 7 arcanist.unitDiffPropertyName
          examples.passProperty].
Proof. repeat split; vm_compute; reflexivity. Qed.

(* ===================================================================== *)
(** ** More on createDifferentialRevision                                 *)
(* ===================================================================== *)

Lemma firstLine_no_line_feed (s : string) (n : nat) :
  String.get n (hd "" (go.SplitLines s)) <> Some "010"%char.
Proof.
  revert n. induction s as [|c s IH]; intros n; [destruct n; discriminate|].
  cbn [go.SplitLines]. destruct (Ascii.eqb_spec c "010") as [|Hc].
  - destruct n; discriminate.
  - destruct (go.SplitLines s) as [|l ls]; cbn [hd] in *.
    + destruct n as [|[|n]]; cbn; congruence.
    + destruct n as [|n]; cbn; [congruence | apply IH].
Qed.

Lemma ellipsis_no_line_feed (n : nat) : String.get n "..." <> Some "010"%char.
Proof. destruct n as [|[|[|n]]]; cbn; discriminate. Qed.

Lemma append_no_line_feed (a b : string) :
  (forall n, String.get n a <> Some "010"%char) ->
  (forall n, String.get n b <> Some "010"%char) ->
  forall n, String.get n (a +:+ b) <> Some "010"%char.
Proof.
  intros Ha Hb n. destruct (Nat.lt_ge_cases n (String.length a)) as [Hlt|Hge].
  - rewrite <- (append_correct1 a b n Hlt). apply Ha.
  - replace n with ((n - String.length a) + String.length a) by lia.
    rewrite <- append_correct2. apply Hb.
Qed.

Lemma substring0_no_line_feed (m : nat) (s : string) :
  (forall n, String.get n s <> Some "010"%char) ->
  forall n, String.get n (substring 0 m s) <> Some "010"%char.
Proof.
  intros Hs n. destruct (Nat.lt_ge_cases n m) as [Hlt|Hge].
  - rewrite (substring_correct1 s 0 m n Hlt). apply Hs.
  - rewrite (substring_correct2 s 0 m n Hge). discriminate.
Qed.

Section RevisionMore.

Context {R : Type} (env : arcanist.Env R) (repo : repository.Repo).
Import arcanist arcanist_facts.

Lemma titleAndSummary_title (req : request.Request) :
  String.length (revisionFields.Title (titleAndSummary req)) <= 256
  /\ (forall n, String.get n (revisionFields.Title (titleAndSummary req))
                <> Some "010"%char)
  /\ (String.length (hd "" (go.SplitLines (request.Description req))) <= 256 ->
      revisionFields.Title (titleAndSummary req)
      = hd "" (go.SplitLines (request.Description req))).
Proof.
  unfold titleAndSummary, differentialTitleLengthLimit.
  set (line := hd "" (go.SplitLines (request.Description req))).
  cbn [revisionFields.Title]. change (256 - 4) with 252.
  destruct (Nat.ltb_spec 256 (String.length line)) as [Hlong|Hshort].
  - split; [|split].
    + rewrite length_append, length_substring0 by lia. cbn. lia.
    + apply append_no_line_feed; [|apply ellipsis_no_line_feed].
      apply substring0_no_line_feed. apply firstLine_no_line_feed.
    + lia.
  - split; [exact Hshort|]. split; [apply firstLine_no_line_feed | reflexivity].
Qed.


Lemma state_eta (s : State R) : mkState (remote s) (closedRevisionsMap s) = s.
Proof. destruct s; reflexivity. Qed.

Lemma queryUser_directory (directory : string -> go.PtrResult user.t) (email : string)
    (s : State R) :
  (forall e p, do_queryUser env e p = Some (directory e, p)) ->
  queryUser env email s = mkRun [CallQueryUser email] (Some (directory email)) s.
Proof.
  intros Hdir. unfold queryUser, invoke. rewrite Hdir. now rewrite state_eta.
Qed.

Lemma resolve_loop (directory : string -> go.PtrResult user.t)
    (identities acc : list string) (s : State R) :
  (forall e p, do_queryUser env e p = Some (directory e, p)) ->
  foldEach identities acc
    (fun acc identity =>
       bind (queryUser env identity)
         (fun user =>
            match user with
            | go.Err _ => ret acc
            | go.Nil => ret acc
            | go.Ptr u => ret (acc ++ [user.PHID u])
            end)) s
  = mkRun (map CallQueryUser identities)
      (Some (acc ++ resolvedPHIDs directory identities)) s.
Proof.
  intros Hdir. revert acc. induction identities as [|e rest IH]; intros acc.
  - cbn. now rewrite app_nil_r.
  - cbn [foldEach map resolvedPHIDs flat_map].
    assert (Hstep : bind (queryUser env e)
                      (fun user =>
                         match user with
                         | go.Err _ => ret acc
                         | go.Nil => ret acc
                         | go.Ptr u => ret (acc ++ [user.PHID u])
                         end) s
                    = mkRun [CallQueryUser e]
                        (Some (acc ++ match directory e with
                                      | go.Ptr u => [user.PHID u]
                                      | _ => []
                                      end)) s).
    { unfold bind. rewrite (queryUser_directory directory e s Hdir). cbn.
      destruct (directory e); cbn; rewrite ?app_nil_r; reflexivity. }
    rewrite (bind_some _ _ s (acc ++ match directory e with
                                     | go.Ptr u => [user.PHID u]
                                     | _ => []
                                     end)) by now rewrite Hstep.
    rewrite Hstep. cbn [calls result after]. rewrite IH. cbn [calls result after].
    fold (resolvedPHIDs directory rest). now rewrite <- app_assoc.
Qed.

(** X2. When [queryUser] answers from a directory, [createDifferentialRevision]
    looks up every reviewer and then the requester, if any, and sends one
    createrevision request whose reviewers and CCs are the identifiers of the
    identities the directory resolves, in order; identities that fail to
    resolve are left out.  An error in the response makes the function
    return an error, not panic. *)
Theorem reviewers_resolved (directory : string -> go.PtrResult user.t) (revision : string)
    (diffID : Z) (req : request.Request) (s : State R)
    (response : createRevisionResponse.t) (p : R) :
  (forall e p, do_queryUser env e p = Some (directory e, p)) ->
  let fields :=
    revisionFields.mk (revisionFields.Title (titleAndSummary req))
      (revisionFields.Summary (titleAndSummary req))
      (resolvedPHIDs directory (request.Reviewers req))
      (resolvedPHIDs directory (requesters req)) in
  do_differential_createrevision env (createRevisionRequest.mk diffID fields) (remote s)
  = Some (response, p) ->
  calls (createDifferentialRevision env repo revision diffID req s)
  = map CallQueryUser (request.Reviewers req ++ requesters req)
    ++ [CallCreateRevision (createRevisionRequest.mk diffID fields)]
  /\ result (createDifferentialRevision env repo revision diffID req s)
     = Some (if String.eqb (createRevisionResponse.Error response) ""
             then go.Ok (createRevisionResponse.Response response)
             else go.Failed ("Failed to create the differential revision: "
                             +:+ createRevisionResponse.ErrorMessage response)).
Proof.
  intros Hdir fields Hcreate. unfold createDifferentialRevision.
  rewrite (bind_some _ _ s (resolvedPHIDs directory (request.Reviewers req)))
    by now rewrite (resolve_loop directory _ [] s Hdir).
  rewrite (resolve_loop directory _ [] s Hdir). cbn [calls result after app].
  assert (Hcc : (if negb (String.eqb (request.Requester req) "")
                 then bind (queryUser env (request.Requester req))
                        (fun user =>
                           match user with
                           | go.Err _ => ret (revisionFields.CCs (titleAndSummary req))
                           | go.Nil => ret (revisionFields.CCs (titleAndSummary req))
                           | go.Ptr u =>
                               ret (revisionFields.CCs (titleAndSummary req)
                                    ++ [user.PHID u])
                           end)
                 else ret (revisionFields.CCs (titleAndSummary req))) s
                = mkRun (map CallQueryUser (requesters req))
                    (Some (resolvedPHIDs directory (requesters req))) s).
  { unfold requesters. destruct (String.eqb (request.Requester req) ""); cbn [negb].
    - reflexivity.
    - unfold bind. rewrite (queryUser_directory directory _ s Hdir). cbn.
      destruct (directory (request.Requester req)); reflexivity. }
  rewrite (bind_some _ _ s (resolvedPHIDs directory (requesters req)))
    by now rewrite Hcc.
  rewrite Hcc.
  cbn [calls result after]. fold fields.
  unfold bind, invoke. rewrite Hcreate. cbn [calls result after].
  rewrite map_app, <- app_assoc.
  destruct (String.eqb (createRevisionResponse.Error response) ""); cbn;
    rewrite ?app_nil_r; split; reflexivity.
Qed.

End RevisionMore.

(* ===================================================================== *)
(** ** More on comment requests and reports                               *)
(* ===================================================================== *)

Section MirroringMore.

Context {R : Type} (env : arcanist.Env R) (repo : repository.Repo).
Import arcanist arcanist_facts.

Lemma buildCommentRequestsForThread_map (differentialReview : DifferentialReview.t)
    (existing : list comment.Comment) (t : review.CommentThread) (diffID path : string)
    (lineNumber : Z) :
  buildCommentRequestsForThread env differentialReview existing t diffID path lineNumber
  = map (inlineRequestFor env differentialReview diffID path lineNumber)
      (List.filter (fun c => negb (overlapsAny env c existing)) (review.threadComments t)).
Proof.
  induction t as [h c ch IH] using review.CommentThread_forall_ind.
  cbn [buildCommentRequestsForThread review.threadComments review.Comment review.Children
       List.filter].
  assert (Hch : flat_map
                  (fun child =>
                     buildCommentRequestsForThread env differentialReview existing child
                       diffID path lineNumber) ch
                = map (inlineRequestFor env differentialReview diffID path lineNumber)
                    (List.filter (fun c => negb (overlapsAny env c existing))
                       (flat_map review.threadComments ch))).
  { induction IH as [|x r Hx _ IHr]; [reflexivity|].
    cbn [flat_map]. rewrite List.filter_app, map_app, Hx. f_equal. exact IHr. }
  rewrite Hch. destruct (negb (overlapsAny env c existing)); reflexivity.
Qed.

(** X3. For a thread whose root comment is anchored (a location with a file
    path, on a commit with a non-empty diff in the map), [buildCommentRequests]
    adds, between the requests of the threads before and after it, one inline
    request per comment of the thread that overlaps no existing comment, in
    pre-order; every one of them, replies included, is posted on the
    right-hand side at the root comment's path, diff and line, line 1 when the
    root has no range, with the quoted description as content. *)
Theorem anchored_thread_requests (differentialReview : DifferentialReview.t)
    (before after : list review.CommentThread) (t : review.CommentThread)
    (existing : list comment.Comment) (commitToDiffMap : gmap string string)
    (location : comment.Location) (diffID : string) :
  comment.Location_ (review.Comment t) = Some location ->
  comment.Path location <> "" ->
  commitToDiffMap !! comment.Commit location = Some diffID ->
  diffID <> "" ->
  fst (buildCommentRequests env differentialReview (before ++ t :: after) existing
         commitToDiffMap)
  = fst (buildCommentRequests env differentialReview before existing commitToDiffMap)
    ++ map (inlineRequestFor env differentialReview diffID (comment.Path location)
              (lineOf location))
         (List.filter (fun c => negb (overlapsAny env c existing))
            (review.threadComments t))
    ++ fst (buildCommentRequests env differentialReview after existing commitToDiffMap).
Proof.
  intros Hloc Hpath Hdiff Hid. unfold buildCommentRequests. cbn [fst].
  rewrite List.flat_map_app. cbn [flat_map]. f_equal. f_equal.
  unfold inlineRequestsOfThread. rewrite Hloc, Hdiff.
  destruct (String.eqb_spec (comment.Path location) ""); [contradiction|].
  change (default "" (Some diffID)) with diffID.
  destruct (String.eqb_spec diffID ""); [contradiction|]. cbn [negb].
  apply buildCommentRequestsForThread_map.
Qed.

Lemma lintPropertiesOfNote_renders (note : analyses.Note) :
  if located note
  then exists p, lintPropertiesOfNote note = [p] /\ rendersNote note p
  else lintPropertiesOfNote note = [].
Proof.
  unfold located, lintPropertiesOfNote, rendersNote.
  destruct (analyses.Location_ note) as [location|]; [|reflexivity].
  destruct (analyses.Range_ location) as [range|] eqn:Hr; [|reflexivity].
  eexists. split; [reflexivity|]. cbn. repeat split. exists location, range. auto.
Qed.

Lemma lintProperties_render (notes : list analyses.Note) :
  Forall2 rendersNote (List.filter located notes) (flat_map lintPropertiesOfNote notes).
Proof.
  induction notes as [|note rest IH]; [constructor|].
  cbn [List.filter flat_map]. pose proof (lintPropertiesOfNote_renders note) as H.
  destruct (located note).
  - destruct H as (p & -> & Hp). cbn. now constructor.
  - rewrite H. exact IH.
Qed.


Lemma postDiffProperty_sets (diffID : Z) (name : string) (generated : go.Result string) :
  emits (fun c => exists value, c = CallSetDiffProperty diffID name value /\ value <> "")
    (postDiffProperty env diffID name generated).
Proof.
  unfold postDiffProperty, setDiffProperty.
  destruct generated as [msg|diffProperty]; [apply emits_panic|].
  destruct (String.eqb_spec diffProperty "") as [|Hne]; cbn [negb]; [apply emits_ret|].
  repeat emits_step. exists diffProperty. split; [reflexivity | exact Hne].
Qed.

Lemma forEach_idle {A} (l : list A) (body : A -> M R unit) (s : State R) :
  (forall x, In x l -> body x s = mkRun [] (Some tt) s) ->
  forEach l body s = mkRun [] (Some tt) s.
Proof.
  induction l as [|x rest IH]; intros H; [reflexivity|].
  cbn [forEach]. rewrite (bind_some _ _ s tt) by now rewrite (H x (or_introl eq_refl)).
  rewrite (H x (or_introl eq_refl)). cbn [calls result after app].
  rewrite IH; [reflexivity|]. intros y Hy. apply H. now right.
Qed.

(** X5. Every call [mirrorStatusesForEachCommit] makes sets the property
    "arc:unit" or "arc:lint", to a non-empty value, on a diff of the map it
    was given, and it leaves the closed cache alone.  Reports that are absent
    or fail to load are not fatal: when no commit of the map has a CI report,
    and none has an analyses report whose lint results load, the function
    makes no call and returns. *)
Theorem statuses_set_only_report_properties (r : review.Review)
    (commitToDiffIDMap : gmap string Z) (s : State R) :
  Forall (setsReportOn commitToDiffIDMap)
    (calls (mirrorStatusesForEachCommit env repo r commitToDiffIDMap s))
  /\ closedRevisionsMap (after (mirrorStatusesForEachCommit env repo r commitToDiffIDMap s))
     = closedRevisionsMap s
  /\ ((forall commitHash,
         (forall report, repository.GetLatestCIReport repo commitHash <> go.Ptr report)
         /\ (forall report,
               repository.GetLatestAnalysesReport repo commitHash = go.Ptr report ->
               exists msg, repository.GetLintReportResult repo report = go.Failed msg)) ->
      mirrorStatusesForEachCommit env repo r commitToDiffIDMap s = mkRun [] (Some tt) s).
Proof.
  assert (Hemits : emits (setsReportOn commitToDiffIDMap)
                     (mirrorStatusesForEachCommit env repo r commitToDiffIDMap)).
  { unfold mirrorStatusesForEachCommit, reportUnitResults, reportLintResults.
    apply emits_forEach. intros [commitHash diffID] Hin.
    apply list_elem_of_In, elem_of_map_to_list in Hin.
    assert (Hpost : forall name generated,
               name = unitDiffPropertyName \/ name = lintDiffPropertyName ->
               emits (setsReportOn commitToDiffIDMap)
                 (postDiffProperty env diffID name generated)).
    { intros name generated Hname.
      eapply emits_weaken; [|apply postDiffProperty_sets].
      intros c (value & -> & Hvalue). exists commitHash, diffID, name, value. auto. }
    repeat emits_step; apply Hpost; auto. }
  split; [apply Hemits|]. split; [apply Hemits|].
  intros Hnone. unfold mirrorStatusesForEachCommit. apply forEach_idle.
  intros [commitHash diffID] _. destruct (Hnone commitHash) as [Hci Han].
  unfold bind.
  destruct (repository.GetLatestCIReport repo commitHash) as [msg| |report];
    [| |now destruct (Hci report)];
    (destruct (repository.GetLatestAnalysesReport repo commitHash) as [msg'| |report'];
     [| |destruct (Han report' eq_refl) as [msg'' ->]]; reflexivity).
Qed.

End MirroringMore.

(* ===================================================================== *)
(** ** More on the reconciler                                             *)
(* ===================================================================== *)

Section ReconcilerMore.

Context {R : Type} (env : arcanist.Env R) (repo : repository.Repo).
Import arcanist arcanist_facts.

Lemma forEach_closed_idle (listed : list DifferentialReview.t) (head : string)
    (req : request.Request) (r : review.Review) (s : State R) :
  allClosed listed ->
  forEach listed (fun existing => updateReviewDiffs env repo existing head req r) s
  = mkRun [] (Some tt) s.
Proof.
  intros Hall. apply forEach_idle. intros d Hd.
  unfold allClosed in Hall. rewrite List.Forall_forall in Hall.
  unfold updateReviewDiffs. now rewrite (Hall d Hd).
Qed.

Lemma close_loop_closed_idle (listed : list DifferentialReview.t) (s : State R) :
  allClosed listed -> forEach listed (closeIfOpen env) s = mkRun [] (Some tt) s.
Proof.
  intros Hall. apply forEach_idle. intros d Hd.
  unfold allClosed in Hall. rewrite List.Forall_forall in Hall.
  unfold closeIfOpen. now rewrite (Hall d Hd).
Qed.

(** X6. A closed or abandoned revision is never touched: [updateReviewDiffs]
    returns at once for it, without a call.  When every revision listed for a
    review is closed (and, for a pending review, there is at least one), the
    whole pass of [EnsureRequestExists] makes the query and nothing else, and
    returns. *)
Theorem closed_revisions_untouched (differentialReview : DifferentialReview.t)
    (head : string) (req : request.Request) (review : review.Review) (s : State R)
    (response : queryResponse.t) (p : R) :
  (isClosed differentialReview = true ->
   updateReviewDiffs env repo differentialReview head req review s = mkRun [] (Some tt) s)
  /\ (default false (closedRevisionsMap s !! review.Revision review) = false ->
      do_differential_query env (revisionQuery (review.Revision review)) (remote s)
      = Some (response, p) ->
      allClosed (queryResponse.Response response) ->
      review.Submitted review = true \/ queryResponse.Response response <> [] ->
      calls (EnsureRequestExists env repo review s)
      = [CallQuery (revisionQuery (review.Revision review))]
      /\ result (EnsureRequestExists env repo review s) = Some tt).
Proof.
  split.
  - intros Hclosed. unfold updateReviewDiffs. now rewrite Hclosed.
  - intros Hmiss Hq Hall Hcase. unfold EnsureRequestExists.
    rewrite (bind_some _ _ s false) by (cbn; now rewrite Hmiss).
    cbn [getClosed calls result after app].
    pose proof (listDifferentialReviewsOrDie_run env (review.Revision review) s) as Hlist.
    rewrite Hq in Hlist.
    rewrite (bind_some _ _ s (queryResponse.Response response)) by now rewrite Hlist.
    rewrite Hlist. cbn [calls result after].
    destruct (review.Submitted review) eqn:Hsub.
    + fold (closeIfOpen env).
      rewrite (bind_some _ _ _ tt) by now rewrite close_loop_closed_idle.
      rewrite close_loop_closed_idle by exact Hall. split; reflexivity.
    + destruct Hcase as [|Hne]; [discriminate|].
      destruct (repository.GetBaseCommit repo review); [|split; reflexivity].
      destruct (repository.GetHeadCommit repo review); [|split; reflexivity].
      destruct (queryResponse.Response response) as [|d rest] eqn:Hresp; [contradiction|].
      change (0 <? length (d :: rest))%nat with true. cbv iota.
      rewrite forEach_closed_idle by exact Hall. split; reflexivity.
Qed.

(** X7. For an open revision that lacks the head commit, [updateReviewDiffs]
    asks for one diff from the merge base to the head, passing the revision's
    diffs as prior diffs.  When no diff comes back without an error, it
    returns silently; when a diff comes back, it sends one update naming
    this revision and the decimal number of the new diff, and returns exactly
    when the update is answered without an error; an error from the diff
    creation, or a dead command, makes it panic. *)
Theorem head_changed_adds_one_diff (differentialReview : DifferentialReview.t)
    (head mergeBase : string) (req : request.Request) (r : review.Review) (s : State R) :
  isClosed differentialReview = false ->
  repository.MergeBase repo (request.TargetRef req) head = Some mergeBase ->
  existsb (isCommitHash head) (DifferentialReview.Hashes differentialReview) = false ->
  let run := updateReviewDiffs env repo differentialReview head req r s in
  let create :=
    CallCreateDiff mergeBase head req (DifferentialReview.Diffs differentialReview) in
  match do_createDifferentialDiff env mergeBase head req
          (DifferentialReview.Diffs differentialReview) (remote s) with
  | Some (go.Nil, p) => run = mkRun [create] (Some tt) (mkState p (closedRevisionsMap s))
  | Some (go.Ptr d, p) =>
      let update :=
        differentialUpdateRevisionRequest.mk (DifferentialReview.ID differentialReview)
          (go.Itoa (differentialDiff.ID d)) in
      calls run = [create; CallUpdateRevision update]
      /\ (result run = Some tt <->
          exists response p',
            do_differential_updaterevision env update p = Some (response, p')
            /\ differentialUpdateRevisionResponse.Error response = "")
  | Some (go.Err _, _) | None => calls run = [create] /\ result run = None
  end.
Proof.
  intros Hopen Hbase Hhead. cbv zeta.
  unfold updateReviewDiffs, createDifferentialDiff. rewrite Hopen, Hbase, Hhead.
  set (create := CallCreateDiff mergeBase head req
                   (DifferentialReview.Diffs differentialReview)).
  set (h := do_createDifferentialDiff env mergeBase head req
              (DifferentialReview.Diffs differentialReview)).
  assert (Hinvoke : invoke create h s
                    = match h (remote s) with
                      | Some (a, p) => mkRun [create] (Some a)
                                         (mkState p (closedRevisionsMap s))
                      | None => mkRun [create] None s
                      end) by reflexivity.
  destruct (h (remote s)) as [[[msg| |d] p]|].
  - rewrite (bind_some _ _ s (go.Err msg)) by now rewrite Hinvoke.
    rewrite Hinvoke. split; reflexivity.
  - rewrite (bind_some _ _ s go.Nil) by now rewrite Hinvoke.
    rewrite Hinvoke. reflexivity.
  - rewrite (bind_some _ _ s (go.Ptr d)) by now rewrite Hinvoke.
    rewrite Hinvoke. cbn [calls result after]. unfold bind, invoke. cbn [remote].
    destruct (do_differential_updaterevision env _ p) as [[response p']|];
      cbn [calls result after app].
    + destruct (String.eqb_spec (differentialUpdateRevisionResponse.Error response) "")
        as [Herr|Herr]; cbn [negb calls result panic ret app].
      * split; [reflexivity|]. split; [intros _; now exists response, p' | reflexivity].
      * split; [reflexivity|]. split; [discriminate|].
        intros (response' & p'' & Heq & Hok). injection Heq as <- <-. contradiction.
    + split; [reflexivity|]. split; [discriminate|].
      intros (response' & p'' & Heq & _). discriminate.
  - rewrite bind_none by now rewrite Hinvoke. rewrite Hinvoke. split; reflexivity.
Qed.

(** X8. When the base or the head commit of a pending review cannot be
    computed, [EnsureRequestExists] gives the review up for this pass without
    failing: it has made its query and nothing else, and it returns. *)
Theorem missing_base_or_head_is_skipped (review : review.Review) (s : State R)
    (response : queryResponse.t) (p : R) :
  review.Submitted review = false ->
  default false (closedRevisionsMap s !! review.Revision review) = false ->
  do_differential_query env (revisionQuery (review.Revision review)) (remote s)
  = Some (response, p) ->
  repository.GetBaseCommit repo review = None
  \/ repository.GetHeadCommit repo review = None ->
  EnsureRequestExists env repo review s
  = mkRun [CallQuery (revisionQuery (review.Revision review))] (Some tt)
      (mkState p (closedRevisionsMap s)).
Proof.
  intros Hsub Hmiss Hq Hnone. unfold EnsureRequestExists.
  rewrite (bind_some _ _ s false) by (cbn; now rewrite Hmiss).
  cbn [getClosed calls result after app].
  pose proof (listDifferentialReviewsOrDie_run env (review.Revision review) s) as Hlist.
  rewrite Hq in Hlist.
  rewrite (bind_some _ _ s (queryResponse.Response response)) by now rewrite Hlist.
  rewrite Hlist, Hsub. cbn [calls result after].
  destruct Hnone as [-> | Hhead]; [reflexivity|].
  destruct (repository.GetBaseCommit repo review); [|reflexivity].
  rewrite Hhead. reflexivity.
Qed.

End ReconcilerMore.

Section ReconcilerShape.

Context {R : Type} (env : arcanist.Env R) (repo : repository.Repo).
Import arcanist arcanist_facts.

Lemma Forall_calls_bind {A B} (P : Call -> Prop) (m : M R A) (f : A -> M R B)
    (s : State R) :
  Forall P (calls (m s)) ->
  (forall a, Forall P (calls (f a (after (m s))))) ->
  Forall P (calls (bind m f s)).
Proof.
  intros Hm Hf. unfold bind. destruct (result (m s)) as [a|]; cbn; [|exact Hm].
  apply Forall_app. split; [exact Hm | apply Hf].
Qed.

Lemma mirrors_neverCloses (c : Call) : mirrors c -> neverCloses c.
Proof. unfold mirrors, neverCloses, closes. destruct c; cbn; congruence. Qed.

Lemma updateReviewDiffs_neverCloses (differentialReview : DifferentialReview.t)
    (head : string) (req : request.Request) (r : review.Review) :
  emits neverCloses (updateReviewDiffs env repo differentialReview head req r).
Proof.
  unfold updateReviewDiffs, createDifferentialDiff.
  destruct (isClosed differentialReview); [apply emits_ret|].
  destruct (repository.MergeBase repo (request.TargetRef req) head); [|apply emits_panic].
  destruct (existsb _ _).
  - eapply emits_weaken; [|apply mirrorCommentsIntoReview_emits].
    apply mirrors_neverCloses.
  - repeat emits_step; intros H; exact H.
Qed.

Lemma EnsureRequestExists_pending_neverCloses (review : review.Review) :
  review.Submitted review = false ->
  emits neverCloses (EnsureRequestExists env repo review).
Proof.
  intros Hsub. unfold EnsureRequestExists, listDifferentialReviewsOrDie,
    createDifferentialDiff. rewrite Hsub.
  apply emits_bind; [apply emits_getClosed|]. intros [|]; [apply emits_ret|].
  apply emits_bind; [repeat emits_step; intros H; exact H|]. intros existingReviews.
  destruct (repository.GetBaseCommit repo review); [|apply emits_ret].
  destruct (repository.GetHeadCommit repo review); [|apply emits_ret].
  destruct (0 <? length existingReviews)%nat.
  - apply emits_forEach. intros. apply updateReviewDiffs_neverCloses.
  - apply emits_bind; [apply emits_invoke; intros H; exact H|]. intros [msg| |d];
      [apply emits_panic | apply emits_ret |].
    apply emits_bind.
    + eapply emits_weaken; [|apply createDifferentialRevision_emits].
      intros c [[email ->]|(fields & -> & _)] H; exact H.
    + intros [msg|rev]; [apply emits_panic|].
      apply emits_bind; [repeat emits_step; intros H; exact H|]. intros.
      apply emits_forEach. intros. apply updateReviewDiffs_neverCloses.
Qed.

Lemma close_loop_queriesOrCloses (listed : list DifferentialReview.t) :
  emits queriesOrCloses (forEach listed (closeIfOpen env)).
Proof.
  apply emits_forEach. intros d _. unfold closeIfOpen, close.
  repeat emits_step; exact I.
Qed.

(** X9. Whether it returns or panics, [EnsureRequestExists] makes, for a
    submitted review, no call but the query and close calls; for a pending
    review it makes no close call and leaves the closed cache as it was. *)
Theorem submitted_closes_pending_never (review : review.Review) (s : State R) :
  (review.Submitted review = true ->
   Forall queriesOrCloses (calls (EnsureRequestExists env repo review s)))
  /\ (review.Submitted review = false ->
      Forall neverCloses (calls (EnsureRequestExists env repo review s))
      /\ closedRevisionsMap (after (EnsureRequestExists env repo review s))
         = closedRevisionsMap s).
Proof.
  split.
  - intros Hsub. unfold EnsureRequestExists. rewrite Hsub. fold (closeIfOpen env).
    apply Forall_calls_bind; [constructor|]. intros [|]; [constructor|].
    apply Forall_calls_bind.
    + unfold listDifferentialReviewsOrDie.
      assert (H : emits queriesOrCloses
                    (bind (invoke (CallQuery (revisionQuery (review.Revision review)))
                             (do_differential_query env
                                (revisionQuery (review.Revision review))))
                       (fun response => ret (queryResponse.Response response))))
        by (repeat emits_step; exact I).
      apply H.
    + intros listed. apply Forall_calls_bind; [apply close_loop_queriesOrCloses|].
      intros _. constructor.
  - intros Hsub. apply (EnsureRequestExists_pending_neverCloses review Hsub s).
Qed.

(** X10. For a pending review with computable base and head for which the
    review tool lists no revision, [EnsureRequestExists] asks for a diff from
    the base commit to the review's revision, with no prior diffs.  When no
    diff comes back without an error, it stops there and returns; on an error
    it panics; when a diff comes back, the calls that follow are those of
    [createDifferentialRevision] on that diff's number, and a failure to
    create the revision panics. *)
Theorem no_revision_creates_diff_first (review : review.Review) (s : State R)
    (response : queryResponse.t) (p : R) (base head : string) :
  review.Submitted review = false ->
  default false (closedRevisionsMap s !! review.Revision review) = false ->
  do_differential_query env (revisionQuery (review.Revision review)) (remote s)
  = Some (response, p) ->
  queryResponse.Response response = [] ->
  repository.GetBaseCommit repo review = Some base ->
  repository.GetHeadCommit repo review = Some head ->
  let run := EnsureRequestExists env repo review s in
  let query := CallQuery (revisionQuery (review.Revision review)) in
  let create :=
    CallCreateDiff base (review.Revision review) (review.Request review) [] in
  match do_createDifferentialDiff env base (review.Revision review)
          (review.Request review) [] p with
  | Some (go.Nil, p') =>
      run = mkRun [query; create] (Some tt) (mkState p' (closedRevisionsMap s))
  | Some (go.Ptr d, p') =>
      let creation :=
        createDifferentialRevision env repo (review.Revision review)
          (differentialDiff.ID d) (review.Request review)
          (mkState p' (closedRevisionsMap s)) in
      exists rest,
        calls run = [query; create] ++ calls creation ++ rest
        /\ ((result creation = None \/ exists msg, result creation = Some (go.Failed msg)) ->
            rest = [] /\ result run = None)
  | Some (go.Err _, _) | None => calls run = [query; create] /\ result run = None
  end.
Proof.
  intros Hsub Hmiss Hq Hempty Hbase Hhead. cbv zeta. unfold EnsureRequestExists.
  rewrite (bind_some _ _ s false) by (cbn; now rewrite Hmiss).
  cbn [getClosed calls result after app].
  pose proof (listDifferentialReviewsOrDie_run env (review.Revision review) s) as Hlist.
  rewrite Hq in Hlist.
  rewrite (bind_some _ _ s (queryResponse.Response response)) by now rewrite Hlist.
  rewrite Hlist, Hsub, Hbase, Hhead, Hempty. cbn [calls result after length Nat.ltb Nat.leb].
  change (0 <? 0)%nat with false. cbv iota.
  set (s1 := mkState p (closedRevisionsMap s)).
  set (create := CallCreateDiff base (review.Revision review) (review.Request review) []).
  unfold createDifferentialDiff. fold create.
  set (h := do_createDifferentialDiff env base (review.Revision review)
              (review.Request review) []).
  assert (Hinvoke : invoke create h s1
                    = match h p with
                      | Some (a, p') => mkRun [create] (Some a)
                                          (mkState p' (closedRevisionsMap s))
                      | None => mkRun [create] None s1
                      end) by reflexivity.
  destruct (h p) as [[[msg| |d] p']|].
  - rewrite (bind_some _ _ s1 (go.Err msg)) by now rewrite Hinvoke.
    rewrite Hinvoke. split; reflexivity.
  - rewrite (bind_some _ _ s1 go.Nil) by now rewrite Hinvoke.
    rewrite Hinvoke. reflexivity.
  - rewrite (bind_some _ _ s1 (go.Ptr d)) by now rewrite Hinvoke.
    rewrite Hinvoke. cbn [calls result after].
    set (creation := createDifferentialRevision env repo (review.Revision review)
                       (differentialDiff.ID d) (review.Request review)
                       (mkState p' (closedRevisionsMap s))).
    destruct (result creation) as [[msg|rev]|] eqn:Hcreation.
    + rewrite (bind_some _ _ _ _ Hcreation). fold creation. cbn [calls result after panic].
      exists []. split; [reflexivity|]. intros _. split; reflexivity.
    + rewrite (bind_some _ _ _ _ Hcreation). fold creation. cbn [calls result after].
      eexists. split; [reflexivity|].
      intros [H|[msg H]]; discriminate.
    + rewrite (bind_none _ _ _ Hcreation). fold creation. cbn [calls result after].
      exists []. split; [now rewrite app_nil_r|]. intros _. split; reflexivity.
  - rewrite bind_none by now rewrite Hinvoke. rewrite Hinvoke. split; reflexivity.
Qed.

Lemma EnsureRequestExists_cache_source (review : review.Review) (s : State R)
    (revision : string) :
  closedRevisionsMap (after (EnsureRequestExists env repo review s)) !! revision
  = Some true ->
  closedRevisionsMap s !! revision = Some true
  \/ (review.Submitted review = true /\ review.Revision review = revision).
Proof.
  intros H. destruct (review.Submitted review) eqn:Hsub.
  - destruct (EnsureRequestExists_cache env repo review s) as [Heq|Heq];
      rewrite Heq in H; [now left|].
    destruct (decide (review.Revision review = revision)) as [Hr|Hr]; [now right|].
    rewrite lookup_insert_ne in H by exact Hr. now left.
  - left. now rewrite <- (proj2 (EnsureRequestExists_pending_emits env repo review Hsub s)).
Qed.


End ReconcilerShape.

(* ===================================================================== *)
(** ** The remaining functions of package arcanist                        *)
(* ===================================================================== *)

Section Prefixes.

Import arcanist_reviews.

Lemma prefix_append (p s : string) : String.prefix p (p +:+ s) = true.
Proof.
  induction p as [|c p IH]; simpl; [now destruct s|].
  destruct (ascii_dec c c); [exact IH | contradiction].
Qed.

Lemma sliceFrom_append (p s : string) : sliceFrom (String.length p) (p +:+ s) = s.
Proof. induction p as [|c p IH]; simpl; [reflexivity | exact IH]. Qed.

Lemma prefix_sliceFrom (p s : string) :
  String.prefix p s = true -> s = p +:+ sliceFrom (String.length p) s.
Proof.
  revert s. induction p as [|c p IH]; intros s H; [reflexivity|].
  destruct s as [|d s]; simpl in H; [discriminate|].
  destruct (ascii_dec c d) as [->|]; [|discriminate].
  change (String d s = String d (p +:+ sliceFrom (String.length p) s)).
  f_equal. now apply IH.
Qed.

(** X12. [abbreviateRefName] strips exactly one leading "refs/heads/": a
    branch ref gives its branch name back, any other ref is returned as it
    is, and in every case the ref is the result with or without that prefix
    in front. *)
Theorem abbreviateRefName_strips_heads (ref branch : string) :
  abbreviateRefName ("refs/heads/" +:+ branch) = branch
  /\ (HasPrefix ref "refs/heads/" = false -> abbreviateRefName ref = ref)
  /\ (ref = abbreviateRefName ref \/ ref = "refs/heads/" +:+ abbreviateRefName ref).
Proof.
  unfold abbreviateRefName, HasPrefix. split; [|split].
  - rewrite prefix_append. apply sliceFrom_append.
  - now intros ->.
  - destruct (String.prefix "refs/heads/" ref) eqn:H; [right | now left].
    now apply prefix_sliceFrom.
Qed.

End Prefixes.

Section FirstCommit.

Import arcanist arcanist_reviews.

Lemma hd_insertInt (x : Z) (sorted : list Z) :
  hd 0%Z (insertInt x sorted)
  = match sorted with
    | [] => x
    | y :: _ => if (x <=? y)%Z then x else y
    end.
Proof. destruct sorted as [|y rest]; cbn; [reflexivity|]. now destruct (x <=? y)%Z. Qed.

Lemma sortInts_nil (l : list Z) : sortInts l = [] -> l = [].
Proof.
  destruct l as [|x rest]; [reflexivity|]. cbn.
  destruct (sortInts rest) as [|y r]; cbn; [discriminate|].
  destruct (x <=? y)%Z; discriminate.
Qed.

Lemma hd_sortInts_least (l : list Z) :
  l <> [] ->
  In (hd 0%Z (sortInts l)) l /\ Forall (fun x => (hd 0%Z (sortInts l) <= x)%Z) l.
Proof.
  induction l as [|x rest IH]; [contradiction|]. intros _.
  cbn [sortInts]. rewrite hd_insertInt.
  destruct (sortInts rest) as [|y r] eqn:Hs.
  - apply sortInts_nil in Hs. subst rest. split; [now left|]. repeat constructor. lia.
  - assert (Hne : rest <> []) by (intros ->; discriminate).
    destruct (IH Hne) as [Hin Hall]. cbn [hd] in Hin, Hall.
    destruct (Z.leb_spec x y).
    + split; [now left|]. constructor; [lia|].
      eapply List.Forall_impl; [|exact Hall]. cbn. intros; lia.
    + split; [now right|]. constructor; [lia | exact Hall].
Qed.

Lemma recordCommit_dated (repo : History) (ts : list Z) (m : gmap Z string)
    (commit : string) :
  recordCommit repo (ts, m) commit
  = (ts ++ map fst (dated repo commit), fold_left recordDated (dated repo commit) m).
Proof.
  unfold recordCommit, dated.
  destruct (GetLastParent repo commit); [|now rewrite app_nil_r].
  destruct (GetCommitTime repo commit) as [timeString|]; [|now rewrite app_nil_r].
  destruct (go.Atoi timeString); [reflexivity | now rewrite app_nil_r].
Qed.

Lemma fold_recordCommit (repo : History) (commits : list string) (ts : list Z)
    (m : gmap Z string) :
  fold_left (recordCommit repo) commits (ts, m)
  = (ts ++ map fst (flat_map (dated repo) commits),
     fold_left recordDated (flat_map (dated repo) commits) m).
Proof.
  revert ts m. induction commits as [|c rest IH]; intros ts m; cbn [fold_left flat_map].
  - now rewrite app_nil_r.
  - rewrite recordCommit_dated, IH, map_app, fold_left_app, app_assoc. reflexivity.
Qed.

Lemma fold_recordDated_other (l : list (Z * string)) (m : gmap Z string) (t : Z) :
  Forall (fun p => fst p <> t) l -> fold_left recordDated l m !! t = m !! t.
Proof.
  revert m. induction l as [|p rest IH]; intros m H; [reflexivity|].
  inversion H as [|? ? Hp Hrest]; subst. cbn [fold_left]. rewrite IH by exact Hrest.
  unfold recordDated. now rewrite lookup_insert_ne.
Qed.

Lemma fold_recordDated_last (before after : list (Z * string)) (m : gmap Z string)
    (t : Z) (c : string) :
  Forall (fun p => fst p <> t) after ->
  fold_left recordDated (before ++ (t, c) :: after) m !! t = Some c.
Proof.
  intros H. rewrite fold_left_app. cbn [fold_left].
  rewrite fold_recordDated_other by exact H.
  unfold recordDated. cbn. apply lookup_insert_eq.
Qed.

Lemma last_least (l : list (Z * string)) :
  l <> [] ->
  exists before t c after,
    l = before ++ (t, c) :: after
    /\ Forall (fun p => (t <= fst p)%Z) before
    /\ Forall (fun p => (t < fst p)%Z) after.
Proof.
  induction l as [|[t0 c0] rest IH]; [contradiction|]. intros _.
  destruct rest as [|p rest'].
  - exists [], t0, c0, []. repeat split; constructor.
  - destruct IH as (before & t & c & after & Heq & Hb & Ha); [discriminate|].
    destruct (Z.lt_ge_cases t0 t) as [Hlt|Hge].
    + exists [], t0, c0, (p :: rest'). split; [reflexivity|]. split; [constructor|].
      rewrite Heq. apply Forall_app. split.
      * eapply List.Forall_impl; [|exact Hb]. cbn. intros; lia.
      * constructor; [cbn; lia|]. eapply List.Forall_impl; [|exact Ha]. cbn. intros; lia.
    + exists ((t0, c0) :: before), t, c, after. rewrite Heq. split; [reflexivity|].
      split; [constructor; [cbn; lia | exact Hb] | exact Ha].
Qed.

Lemma GetFirstCommit_last_least (r : DifferentialReview.t) (repo : History)
    (before after : list (Z * string)) (t : Z) (c : string) :
  datedCommits repo (DifferentialReview.Hashes r) = before ++ (t, c) :: after ->
  Forall (fun p => (t <= fst p)%Z) before ->
  Forall (fun p => (t < fst p)%Z) after ->
  GetFirstCommit r repo = c.
Proof.
  intros Heq Hb Ha. unfold GetFirstCommit, datedCommits in *.
  rewrite fold_recordCommit, Heq. cbn [app].
  set (ts := map fst (before ++ (t, c) :: after)).
  assert (Hlen : (length ts =? 0)%nat = false).
  { apply Nat.eqb_neq. unfold ts. rewrite List.length_map, List.length_app. cbn. lia. }
  rewrite Hlen.
  assert (Hne : ts <> []) by (intros H; rewrite H in Hlen; discriminate).
  destruct (hd_sortInts_least ts Hne) as [Hin Hleast].
  assert (Hmin : hd 0%Z (sortInts ts) = t).
  { apply Z.le_antisymm.
    - rewrite List.Forall_forall in Hleast. apply Hleast.
      unfold ts. rewrite map_app. apply List.in_or_app. right. now left.
    - unfold ts in Hin at 2. apply List.in_map_iff in Hin as (p & Hp & Hin).
      rewrite <- Hp. apply List.in_app_or in Hin as [Hin|[<-|Hin]].
      + rewrite List.Forall_forall in Hb. now apply Hb.
      + cbn. lia.
      + rewrite List.Forall_forall in Ha. specialize (Ha p Hin). lia. }
  rewrite Hmin, fold_recordDated_last; [reflexivity|].
  eapply List.Forall_impl; [|exact Ha]. cbn. intros; lia.
Qed.

(** X13. [GetFirstCommit] returns the earliest commit of the review: among
    the "gtcm" hashes that name a commit with a parent and a decimal commit
    time, the one with the least time, and among equally early ones the last
    in the order of the hashes.  It returns the empty string when there is no
    such commit. *)
Theorem first_commit_is_earliest (r : DifferentialReview.t) (repo : History) :
  (datedCommits repo (DifferentialReview.Hashes r) = [] -> GetFirstCommit r repo = "")
  /\ (datedCommits repo (DifferentialReview.Hashes r) <> [] ->
      exists before t c after,
        datedCommits repo (DifferentialReview.Hashes r) = before ++ (t, c) :: after
        /\ Forall (fun p => (t <= fst p)%Z) before
        /\ Forall (fun p => (t < fst p)%Z) after
        /\ GetFirstCommit r repo = c).
Proof.
  split.
  - intros Hnone. unfold GetFirstCommit, datedCommits in *.
    rewrite fold_recordCommit, Hnone. reflexivity.
  - intros Hsome. destruct (last_least _ Hsome) as (before & t & c & after & Heq & Hb & Ha).
    exists before, t, c, after. repeat split; try assumption.
    now apply (GetFirstCommit_last_least r repo before after t c).
Qed.

End FirstCommit.

(* ===================================================================== *)
(** ** Package mirror                                                     *)
(* ===================================================================== *)

Section Pass.

Context {L R : Type}.
Import arcanist arcanist_reviews mirror.
Implicit Types Q : Effect -> Prop.

Lemma andThen_some {A B} (m : P L R A) (f : A -> P L R B) (s : Process L R) (a : A) :
  outcome (m s) = Some a ->
  andThen m f s
  = mkPass (effects (m s) ++ effects (f a (final (m s))))
      (outcome (f a (final (m s)))) (final (f a (final (m s)))).
Proof. intros H. unfold andThen. now rewrite H. Qed.

Lemma andThen_none {A B} (m : P L R A) (f : A -> P L R B) (s : Process L R) :
  outcome (m s) = None -> andThen m f s = mkPass (effects (m s)) None (final (m s)).
Proof. intros H. unfold andThen. now rewrite H. Qed.

Lemma quiet_done {A} Q (a : A) : quiet Q (@done L R A a).
Proof. intros s. repeat split. constructor. Qed.

Lemma quiet_abort {A} Q : quiet Q (@abort L R A).
Proof. intros s. repeat split. constructor. Qed.

Lemma quiet_ask {A} Q (f : L -> A) : quiet Q (@ask L R A f).
Proof. intros s. repeat split. constructor. Qed.

Lemma quiet_getVariables Q : quiet Q (@getVariables L R).
Proof. intros s. repeat split. constructor. Qed.

Lemma quiet_writeRepo Q (e : Effect) (f : L -> L) : Q e -> quiet Q (@writeRepo L R e f).
Proof. intros He s. repeat split. repeat constructor. exact He. Qed.

Lemma quiet_andThen {A B} Q (m : P L R A) (f : A -> P L R B) :
  quiet Q m -> (forall a, quiet Q (f a)) -> quiet Q (andThen m f).
Proof.
  intros Hm Hf s. unfold andThen. destruct (Hm s) as (He & H1 & H2 & H3 & H4).
  destruct (outcome (m s)) as [a|]; cbn; [|repeat split; assumption].
  destruct (Hf a (final (m s))) as (He' & H1' & H2' & H3' & H4').
  repeat split; try congruence. apply Forall_app. split; assumption.
Qed.

Lemma quiet_each {A} Q (l : list A) (body : A -> P L R unit) :
  (forall x, In x l -> quiet Q (body x)) -> quiet Q (each l body).
Proof.
  induction l as [|x r IH]; intros H; cbn [each].
  - apply quiet_done.
  - apply quiet_andThen; [apply H; now left|]. intros _. apply IH.
    intros y Hy. apply H. now right.
Qed.

Lemma quiet_runArc {A} Q (C : Call -> Prop) (repo : Repository L)
    (m : repository.Repo -> M R A) :
  (forall reads, emits C (m reads)) -> (forall c, C c -> Q (Conduit c)) ->
  quiet Q (runArc repo m).
Proof.
  intros Hm HC s. unfold runArc. cbn.
  destruct (Hm (reads repo (local s)) (arc s)) as [Hcalls Hcache].
  repeat split; [|exact Hcache].
  apply List.Forall_map. eapply List.Forall_impl; [|exact Hcalls]. exact HC.
Qed.

End Pass.

Section SkippedPass.

Context {L R : Type} (env : arcanist.Env R).
Variable do_diffusion_looksoon : list string -> arcanist.Handler R unit.
Import arcanist arcanist_reviews mirror.

Lemma mirrorRepoToReview_unchanged (repo : Repository L) (syncToRemote : bool)
    (s : Process L R) (stateHash : string) :
  GetRepoStateHash repo
    (if syncToRemote
     then PullNotes_ repo "origin" "refs/notes/devtools/*" (local s) else local s)
  = Some stateHash ->
  default ""
    (processedStates s
       !! GetPath repo
            (if syncToRemote
             then PullNotes_ repo "origin" "refs/notes/devtools/*" (local s)
             else local s)) = stateHash ->
  mirrorRepoToReview env repo do_diffusion_looksoon syncToRemote s
  = mirrorUnchanged env repo syncToRemote s.
Proof.
  intros Hhash Hsame. unfold mirrorRepoToReview, mirrorUnchanged.
  set (pull := if syncToRemote then pullNotes repo else done tt).
  set (s1 := final (pull s)).
  assert (Hpull : outcome (pull s) = Some tt
                  /\ local s1
                     = (if syncToRemote
                        then PullNotes_ repo "origin" "refs/notes/devtools/*" (local s)
                        else local s)
                  /\ processedStates s1 = processedStates s).
  { unfold s1, pull. destruct syncToRemote; cbn; repeat split. }
  destruct Hpull as (Hout & Hlocal & Hp).
  rewrite <- Hlocal in Hhash, Hsame. rewrite <- Hp in Hsame.
  rewrite !(andThen_some _ _ s tt Hout). fold s1. cbn [effects final].
  rewrite (andThen_some _ _ s1 (Some stateHash)) by (cbn; now rewrite Hhash).
  cbn [ask effects outcome final app].
  rewrite (andThen_some _ _ s1 s1) by reflexivity.
  cbn [getVariables effects outcome final app].
  rewrite (andThen_some _ _ s1 (GetPath repo (local s1))) by reflexivity.
  cbn [ask effects outcome final app].
  rewrite Hsame, String.eqb_refl. cbn [negb].
  rewrite (andThen_some _ _ s1 tt) by reflexivity.
  cbn [done effects outcome final app]. reflexivity.
Qed.

End SkippedPass.

Section MirrorFacts.

Context {L R : Type} (env : arcanist.Env R) (repo : mirror.Repository L).
Variable do_diffusion_looksoon : list string -> arcanist.Handler R unit.
Import arcanist arcanist_reviews mirror.

Lemma hasOverlapThread_existsb (c : comment.Comment) (t : review.CommentThread) :
  hasOverlapThread env c t = existsb (Overlaps env c) (review.threadComments t).
Proof.
  induction t as [h c0 ch IH] using review.CommentThread_forall_ind.
  cbn [hasOverlapThread review.threadComments review.Comment review.Children existsb].
  destruct (Overlaps env c c0); [reflexivity|]. cbn [orb].
  induction IH as [|x r Hx _ IHr]; [reflexivity|].
  cbn [existsb flat_map]. rewrite List.existsb_app, Hx, IHr. reflexivity.
Qed.

(** X14. [hasOverlap] holds exactly when the new comment overlaps some
    comment of the threads, replies at every depth included. *)
Theorem hasOverlap_searches_replies (c : comment.Comment)
    (threads : list review.CommentThread) :
  hasOverlap env c threads = existsb (Overlaps env c) (review.allComments threads)
  /\ (hasOverlap env c threads = true <->
      exists e, In e (review.allComments threads) /\ Overlaps env c e = true).
Proof.
  assert (H : hasOverlap env c threads
              = existsb (Overlaps env c) (review.allComments threads)).
  { unfold hasOverlap, review.allComments.
    induction threads as [|t r IH]; [reflexivity|].
    cbn [existsb flat_map]. now rewrite List.existsb_app, hasOverlapThread_existsb, IH. }
  split; [exact H|]. rewrite H. apply List.existsb_exists.
Qed.

Lemma appendNewComments_run (reviewCommit : string)
    (revisionComments : list review.CommentThread) (comments : list comment.Comment)
    (note : comment.Comment -> string) (s : Process L R) :
  (forall c, In c comments -> Write repo c = Some (note c)) ->
  let fresh := List.filter (fun c => negb (hasOverlap env c revisionComments)) comments in
  appendNewComments env repo reviewCommit revisionComments comments s
  = mkPass (map (fun c => AppendNote (commentRef repo) reviewCommit (note c)) fresh)
      (Some tt)
      (mkProcess
         (fold_left (fun l c => AppendNote_ repo (commentRef repo) reviewCommit (note c) l)
            fresh (local s))
         (arc s) (processedStates s) (existingComments s) (openReviews s)).
Proof.
  intros Hwrite. cbv zeta. unfold appendNewComments. revert s.
  induction comments as [|c rest IH]; intros s.
  - destruct s; reflexivity.
  - cbn [each List.filter]. specialize (IH (fun x Hx => Hwrite x (or_intror Hx))).
    destruct (negb (hasOverlap env c revisionComments)).
    + rewrite (Hwrite c (or_introl eq_refl)).
      rewrite (andThen_some _ _ s tt) by reflexivity.
      cbn [writeRepo effects outcome final]. rewrite IH. reflexivity.
    + rewrite (andThen_some _ _ s tt) by reflexivity.
      cbn [done effects outcome final]. rewrite IH. reflexivity.
Qed.

(** X15. The innermost loop of [mirrorRepoToReview] appends one note per
    comment of the review tool that overlaps no local comment of the review
    (replies included), in the order the tool gave them, under [comment.Ref]
    on the review's commit; it changes nothing else, and a comment the tool
    lists twice is appended twice. *)
Theorem new_comments_appended_in_order (reviewCommit : string)
    (revisionComments : list review.CommentThread) (comments : list comment.Comment)
    (note : comment.Comment -> string) (s : Process L R) :
  (forall c, In c comments -> Write repo c = Some (note c)) ->
  let fresh :=
    List.filter
      (fun c => negb (existsb (Overlaps env c) (review.allComments revisionComments)))
      comments in
  appendNewComments env repo reviewCommit revisionComments comments s
  = mkPass (map (fun c => AppendNote (commentRef repo) reviewCommit (note c)) fresh)
      (Some tt)
      (mkProcess
         (fold_left (fun l c => AppendNote_ repo (commentRef repo) reviewCommit (note c) l)
            fresh (local s))
         (arc s) (processedStates s) (existingComments s) (openReviews s)).
Proof.
  intros Hwrite. cbv zeta.
  rewrite (appendNewComments_run reviewCommit revisionComments comments note s Hwrite).
  assert (Hsame : List.filter (fun c => negb (hasOverlap env c revisionComments)) comments
                  = List.filter
                      (fun c => negb (existsb (Overlaps env c)
                                        (review.allComments revisionComments)))
                      comments).
  { apply List.filter_ext. intros c. f_equal.
    unfold hasOverlap, review.allComments.
    induction revisionComments as [|t r IH]; [reflexivity|].
    cbn [existsb flat_map].
    now rewrite List.existsb_app, hasOverlapThread_existsb, IH. }
  now rewrite Hsame.
Qed.

Lemma appendNewComments_quiet (reviewCommit : string)
    (revisionComments : list review.CommentThread) (comments : list comment.Comment) :
  quiet mirrorsComments (appendNewComments env repo reviewCommit revisionComments comments).
Proof.
  unfold appendNewComments. apply quiet_each. intros c _.
  destruct (negb _); [|apply quiet_done].
  destruct (Write repo c); [apply quiet_writeRepo; exact I | apply quiet_abort].
Qed.

Lemma mirrorCommentsOf_quiet (phabricatorReview : DifferentialReview.t) :
  quiet mirrorsComments (mirrorCommentsOf env repo phabricatorReview).
Proof.
  unfold mirrorCommentsOf.
  apply quiet_andThen; [apply quiet_ask|]. intros reviewCommit.
  destruct (negb _); [|apply quiet_done].
  apply quiet_andThen; [apply quiet_ask|]. intros [msg| |r];
    [apply quiet_abort | apply quiet_done |].
  apply quiet_andThen; [apply quiet_getVariables|]. intros variables.
  apply quiet_andThen; [|intros comments; apply appendNewComments_quiet].
  apply (quiet_runArc _ (fun c => c = CallLoadComments phabricatorReview)).
  - intros _. unfold LoadComments. apply emits_invoke. reflexivity.
  - intros c ->. exact I.
Qed.

Lemma mirrorOpenReviews_quiet : quiet mirrorsComments (mirrorOpenReviews env repo).
Proof.
  unfold mirrorOpenReviews.
  apply quiet_andThen; [apply quiet_getVariables|]. intros variables.
  apply quiet_andThen; [apply quiet_ask|]. intros path.
  apply quiet_each. intros d _. apply mirrorCommentsOf_quiet.
Qed.

Lemma pushNotes_quiet : quiet mirrorsComments (pushNotes repo (R := R)).
Proof.
  intros s. unfold pushNotes.
  destruct (PushNotes_ repo "origin" "refs/notes/devtools/*" (local s)) as [err l'].
  repeat split. repeat constructor.
Qed.


(** X17. [Refresh] asks the review tool to look at a repository only when
    its path lies under "/var/repo/", and then with the rest of the path as
    the one callsign; for any other path it does nothing. *)
Theorem refresh_only_under_default_prefix (s : Process L R) (callsign : string) :
  (GetPath repo (local s) = defaultRepoDirPrefix +:+ callsign ->
   effects (Refresh repo do_diffusion_looksoon s) = [LookSoon [callsign]])
  /\ (HasPrefix (GetPath repo (local s)) defaultRepoDirPrefix = false ->
      Refresh repo do_diffusion_looksoon s = mkPass [] (Some tt) s).
Proof.
  unfold Refresh, andThen, ask. cbn [outcome effects final]. split.
  - intros ->. unfold HasPrefix, TrimPrefix, HasPrefix.
    rewrite !prefix_append, sliceFrom_append.
    destruct (do_diffusion_looksoon [callsign] (remote (arc s))) as [[u r']|]; reflexivity.
  - intros ->. reflexivity.
Qed.

End MirrorFacts.

Section PassRecords.

Context {L R : Type} (env : arcanist.Env R) (repo : mirror.Repository L).
Variable do_diffusion_looksoon : list string -> arcanist.Handler R unit.
Import arcanist arcanist_reviews mirror.

Lemma andThen_returns {A B} (m : P L R A) (f : A -> P L R B) (s : Process L R) (b : B) :
  outcome (andThen m f s) = Some b ->
  exists a, outcome (m s) = Some a
            /\ outcome (f a (final (m s))) = Some b
            /\ final (andThen m f s) = final (f a (final (m s))).
Proof.
  unfold andThen. destruct (outcome (m s)) as [a|]; cbn; [|discriminate].
  intros H. exists a. auto.
Qed.

Lemma Refresh_quiet : quiet (fun _ => True) (Refresh repo do_diffusion_looksoon).
Proof.
  unfold Refresh. apply quiet_andThen; [apply quiet_ask|]. intros path.
  destruct (HasPrefix path defaultRepoDirPrefix); [|apply quiet_done].
  intros s. destruct (do_diffusion_looksoon _ (remote (arc s))) as [[u r']|];
    repeat split; repeat constructor.
Qed.

Lemma mirrorLocalReviews_records (stateHash path : string) (s : Process L R) :
  (forall l, GetPath repo l = path) ->
  outcome (mirrorLocalReviews env repo do_diffusion_looksoon stateHash s) = Some tt ->
  processedStates (final (mirrorLocalReviews env repo do_diffusion_looksoon stateHash s))
  !! path = Some stateHash
  /\ exists listed,
       openReviews (final (mirrorLocalReviews env repo do_diffusion_looksoon stateHash s))
       !! path = Some listed.
Proof.
  intros Hpath Hout. unfold mirrorLocalReviews in *.
  apply andThen_returns in Hout as (reviews & _ & Hout & ->).
  apply andThen_returns in Hout as ([] & _ & Hout & ->).
  apply andThen_returns in Hout as (path1 & Hp1 & Hout & ->).
  apply andThen_returns in Hout as (listed & _ & Hout & ->).
  apply andThen_returns in Hout as ([] & _ & Hout & ->).
  apply andThen_returns in Hout as (path2 & Hp2 & Hout & ->).
  apply andThen_returns in Hout as ([] & _ & Hout & ->).
  cbn in Hp1, Hp2. rewrite Hpath in Hp1, Hp2.
  injection Hp1 as <-. injection Hp2 as <-.
  match goal with
  | |- context [final (Refresh _ _ ?s0)] =>
      destruct (Refresh_quiet s0) as (_ & -> & _ & -> & _)
  end.
  cbn. rewrite !lookup_insert_eq. split; [reflexivity | now exists listed].
Qed.

(** X18. For a repository with a fixed path, a pass of [mirrorRepoToReview]
    that returns leaves the state hash it computed recorded for that path,
    whether it reconciled the reviews or skipped them; so a next pass that
    computes the same hash is skipped. *)
Theorem returned_pass_records_state (syncToRemote : bool) (s : Process L R)
    (stateHash path : string) :
  (forall l, GetPath repo l = path) ->
  let pulled :=
    if syncToRemote
    then PullNotes_ repo "origin" "refs/notes/devtools/*" (local s) else local s in
  GetRepoStateHash repo pulled = Some stateHash ->
  let pass := mirrorRepoToReview env repo do_diffusion_looksoon syncToRemote s in
  outcome pass = Some tt ->
  default "" (processedStates (final pass) !! path) = stateHash.
Proof.
  cbv zeta. intros Hpath Hhash. unfold mirrorRepoToReview.
  set (pull := if syncToRemote then pullNotes repo else done tt).
  set (s1 := final (pull s)).
  assert (Hpull : outcome (pull s) = Some tt
                  /\ local s1
                     = (if syncToRemote
                        then PullNotes_ repo "origin" "refs/notes/devtools/*" (local s)
                        else local s)).
  { unfold s1, pull. destruct syncToRemote; cbn; split; reflexivity. }
  destruct Hpull as (Hout & Hlocal). rewrite <- Hlocal in Hhash.
  rewrite (andThen_some _ _ s tt Hout). fold s1. cbn [effects final outcome].
  rewrite (andThen_some _ _ s1 (Some stateHash)) by (cbn; now rewrite Hhash).
  cbn [ask effects outcome final app].
  rewrite (andThen_some _ _ s1 s1) by reflexivity.
  cbn [getVariables effects outcome final app].
  rewrite (andThen_some _ _ s1 (GetPath repo (local s1))) by reflexivity.
  cbn [ask effects outcome final app]. rewrite Hpath.
  set (tail := andThen (mirrorOpenReviews env repo)
                 (fun _ => if syncToRemote then pushNotes repo else done tt)).
  assert (Htail : quiet mirrorsComments tail).
  { apply quiet_andThen; [apply mirrorOpenReviews_quiet|]. intros _.
    destruct syncToRemote; [apply pushNotes_quiet | apply quiet_done]. }
  intros Hret. apply andThen_returns in Hret as ([] & Hblock & _ & ->).
  destruct (Htail (final ((if negb (String.eqb
                                      (default "" (processedStates s1 !! path)) stateHash)
                           then mirrorLocalReviews env repo do_diffusion_looksoon stateHash
                           else done tt) s1))) as (_ & -> & _).
  destruct (String.eqb_spec (default "" (processedStates s1 !! path)) stateHash)
    as [Heq|Hne]; cbn [negb] in *.
  - exact Heq.
  - destruct (mirrorLocalReviews_records stateHash path s1 Hpath Hblock) as [-> _].
    reflexivity.
Qed.

End PassRecords.

Section PostingOrder.

Context {R : Type} (env : arcanist.Env R) (repo : repository.Repo).
Import arcanist arcanist_facts.

Lemma bind_returns {A B} (m : M R A) (f : A -> M R B) (s : State R) (b : B) :
  result (bind m f s) = Some b ->
  exists a, result (m s) = Some a
            /\ result (f a (after (m s))) = Some b
            /\ calls (bind m f s) = calls (m s) ++ calls (f a (after (m s))).
Proof.
  unfold bind. destruct (result (m s)) as [a|]; cbn; [|discriminate].
  intros H. exists a. auto.
Qed.

Lemma post_loop_calls {A B} (C : A -> Call) (h : A -> Handler R B) (l : list A)
    (s : State R) :
  result (forEach l (fun request => bind (invoke (C request) (h request))
                                       (fun _ => ret tt)) s) = Some tt ->
  calls (forEach l (fun request => bind (invoke (C request) (h request))
                                      (fun _ => ret tt)) s) = map C l.
Proof.
  revert s. induction l as [|x rest IH]; intros s H; [reflexivity|].
  cbn [forEach] in *. apply bind_returns in H as ([] & Hx & Hrest & ->).
  rewrite (IH _ Hrest). cbn [map]. f_equal.
  unfold bind, invoke in *. destruct (h x (remote s)) as [[b r']|]; [reflexivity|].
  discriminate.
Qed.

Lemma mirrors_prepares_before_posting (differentialReview : DifferentialReview.t)
    (r : review.Review) :
  emits prepares
    (foldEach (DifferentialReview.Diffs differentialReview)
       ((∅ : gmap string string), (∅ : gmap string Z))
       (fun '(commitToDiffMap, commitToDiffIDMap) diffIDString =>
          bind (findCommitForDiff env diffIDString)
            (fun lastCommit =>
               let commitToDiffMap := <[lastCommit := diffIDString]> commitToDiffMap in
               match go.Atoi diffIDString with
               | Some diffID =>
                   ret (commitToDiffMap, <[lastCommit := diffID]> commitToDiffIDMap)
               | None => ret (commitToDiffMap, commitToDiffIDMap)
               end))).
Proof.
  apply emits_foldEach. intros [m1 m2] diffIDString.
  unfold findCommitForDiff, readDiff. repeat emits_step; exact I.
Qed.

Lemma mirrorStatusesForEachCommit_prepares (r : review.Review)
    (commitToDiffIDMap : gmap string Z) :
  emits prepares (mirrorStatusesForEachCommit env repo r commitToDiffIDMap).
Proof.
  unfold mirrorStatusesForEachCommit, reportUnitResults, reportLintResults.
  apply emits_forEach. intros [commitHash diffID] _.
  assert (Hpost : forall name generated,
             emits prepares (postDiffProperty env diffID name generated)).
  { intros name generated. eapply emits_weaken; [|apply postDiffProperty_sets].
    intros c (value & -> & _). exact I. }
  repeat emits_step; apply Hpost.
Qed.

(** X19. A call of [mirrorCommentsIntoReview] that returns has made, in this
    order: the reads of the diffs of the revision, the diff properties of
    [mirrorStatusesForEachCommit], the load of the comments of the revision,
    then one inline request for each request that [buildCommentRequests]
    builds from the comments of the review, the comments loaded and the map
    of the diffs read, in the order it builds them, and last the "comment"
    request it builds, which there is if and only if there is an inline
    request. *)
Theorem inlines_posted_before_comment (differentialReview : DifferentialReview.t)
    (r : review.Review) (s : State R) :
  result (mirrorCommentsIntoReview env repo differentialReview r s) = Some tt ->
  exists commitToDiffMap commitToDiffIDMap existing,
    let run0 := commitMaps env (DifferentialReview.Diffs differentialReview) s in
    let run1 := mirrorStatusesForEachCommit env repo r commitToDiffIDMap (after run0) in
    let run2 := LoadComments env differentialReview (after run1) in
    let requests :=
      buildCommentRequests env differentialReview (review.Comments r) existing
        commitToDiffMap in
    result run0 = Some (commitToDiffMap, commitToDiffIDMap)
    /\ result run2 = Some existing
    /\ calls (mirrorCommentsIntoReview env repo differentialReview r s)
       = calls run0 ++ calls run1 ++ calls run2
         ++ map CallCreateInline (fst requests) ++ map CallCreateComment (snd requests)
    /\ Forall prepares (calls run0 ++ calls run1 ++ calls run2)
    /\ snd requests
       = match fst requests with
         | [] => []
         | _ :: _ =>
             [createCommentRequest.mk (DifferentialReview.ID differentialReview) ""
                "comment" true]
         end.
Proof.
  unfold mirrorCommentsIntoReview.
  fold (commitMaps env (DifferentialReview.Diffs differentialReview)).
  intros H.
  apply bind_returns in H as ([m1 m2] & Hmaps & H & ->).
  pose proof (proj1 (mirrors_prepares_before_posting differentialReview r s)) as Hfold.
  fold (commitMaps env (DifferentialReview.Diffs differentialReview)) in Hfold.
  set (run0 := commitMaps env (DifferentialReview.Diffs differentialReview) s) in *.
  apply bind_returns in H as ([] & _ & H & ->).
  pose proof (proj1 (mirrorStatusesForEachCommit_prepares r m2 (after run0))) as Hstatus.
  set (run1 := mirrorStatusesForEachCommit env repo r m2 (after run0)) in *.
  apply bind_returns in H as (existing & Hexisting & H & ->).
  assert (Hload : Forall prepares (calls (LoadComments env differentialReview (after run1)))).
  { unfold LoadComments. apply (emits_invoke prepares); exact I. }
  set (run2 := LoadComments env differentialReview (after run1)) in *.
  exists m1, m2, existing. cbv zeta.
  destruct (buildCommentRequests env differentialReview (review.Comments r) existing m1)
    as [inlineRequests commentRequests] eqn:Hbuild.
  apply bind_returns in H as ([] & Hinl & Hcmt & ->).
  rewrite (post_loop_calls _ _ _ _ Hinl), (post_loop_calls _ _ _ _ Hcmt).
  cbn [fst snd].
  split; [exact Hmaps|]. split; [exact Hexisting|]. split.
  - reflexivity.
  - split; [repeat (apply Forall_app; split); assumption|].
    unfold buildCommentRequests in Hbuild. injection Hbuild as Hi Hc.
    rewrite <- Hc, Hi. destruct inlineRequests; reflexivity.
Qed.

End PostingOrder.

(* ===================================================================== *)
(** ** The search for repositories                                        *)
(* ===================================================================== *)

Section Search.
Import main.
Context {G : Type}.
Variable Join : string -> string -> string.
Variable NewGitRepo : string -> go.Result G.

Lemma walk_Dir {S} (walkFn : WalkFunc S) (path : string)
    (entries : list (string * Node)) (s : S) :
  walk Join walkFn path (Dir entries) s
  = let '(s1, err1) := walkFn path (Some (mkFileInfo true)) None s in
    match err1 with
    | Continue => walkEntries Join walkFn path entries s1
    | _ => (s1, err1)
    end.
Proof.
  cbn [walk]. destruct (walkFn path (Some (mkFileInfo true)) None s) as [s1 [| |e]];
    try reflexivity.
  revert s1. induction entries as [|[name child] rest IH]; intros s1; [reflexivity|].
  cbn [walkEntries]. destruct (walk Join walkFn (Join path name) child s1) as [s' err].
  destruct err, child; try reflexivity; apply IH.
Qed.

Lemma directories_below_repository (n : Node) :
  forall path above,
    forallb (fun a => negb (isRepository NewGitRepo a)) above = false ->
    flat_map (outermost NewGitRepo) (directories Join path above n) = [].
Proof.
  induction n as [|entries IH|err|err] using Node_forall_ind; intros path above Habove;
    [reflexivity| | |reflexivity].
  2: { cbn [directories flat_map]. unfold outermost. cbn [snd]. rewrite Habove.
       reflexivity. }
  cbn [directories flat_map]. unfold outermost at 1. cbn [snd]. rewrite Habove.
  cbn [app].
  assert (Hbelow : forallb (fun a => negb (isRepository NewGitRepo a)) (path :: above)
                   = false)
    by (cbn [forallb]; rewrite Habove; apply andb_false_r).
  induction IH as [|e rest He _ IHrest]; [reflexivity|].
  cbn [flat_map]. rewrite List.flat_map_app, IHrest, (He _ _ Hbelow). reflexivity.
Qed.

Lemma walkEntries_visit (path : string) (above : list string)
    (entries : list (string * Node)) :
  Forall (fun e => reaches Join NewGitRepo (snd e)) entries ->
  forallb (fun a => negb (isRepository NewGitRepo a)) (path :: above) = true ->
  forall repos,
    exists reached rest v,
      walkEntries Join (visit NewGitRepo) path entries repos = (repos ++ reached, v)
      /\ flat_map (outermost NewGitRepo)
           (flat_map
              (fun e => directories Join (Join path (fst e)) (path :: above) (snd e))
              entries)
         = reached ++ rest
      /\ v <> SkipDir
      /\ ((forall e, v <> Stop e) -> rest = [])
      /\ (forallb (fun e => readable (snd e)) entries = true -> forall e, v <> Stop e).
Proof.
  intros IH Hbelow.
  induction IH as [|[name child] others Hchild _ IHothers]; intros repos.
  - exists [], [], Continue. cbn. rewrite app_nil_r.
    repeat split; try discriminate.
  - cbn [fst snd] in Hchild.
    destruct (Hchild (Join path name) (path :: above) repos Hbelow)
      as (reached & rest & v & Hwalk & Hspec & Hskip & Hwhole & Hread).
    cbn [walkEntries flat_map fst snd forallb]. rewrite Hwalk, List.flat_map_app, Hspec.
    destruct (IHothers (repos ++ reached))
      as (reached2 & rest2 & v2 & Hloop & Hspec2 & Hskip2 & Hwhole2 & Hread2).
    assert (Hon :
      (forall e, v <> Stop e) ->
      exists reached' rest' v',
        walkEntries Join (visit NewGitRepo) path others (repos ++ reached)
        = (repos ++ reached', v')
        /\ (reached ++ rest)
           ++ flat_map (outermost NewGitRepo)
                (flat_map
                   (fun e => directories Join (Join path (fst e)) (path :: above)
                               (snd e)) others)
           = reached' ++ rest'
        /\ v' <> SkipDir
        /\ ((forall e, v' <> Stop e) -> rest' = [])
        /\ (readable child && forallb (fun e => readable (snd e)) others = true ->
            forall e, v' <> Stop e)).
    { intros Hv. exists (reached ++ reached2), rest2, v2.
      rewrite (Hwhole Hv), app_nil_r, Hspec2, Hloop, !app_assoc.
      repeat split; try assumption.
      intros Hboth. apply andb_prop in Hboth. apply Hread2, Hboth. }
    destruct v as [| |e].
    + apply Hon. discriminate.
    + destruct (Hskip eq_refl) as [es ->]. apply Hon. discriminate.
    + exists reached,
        (rest ++ flat_map (outermost NewGitRepo)
                   (flat_map
                      (fun e => directories Join (Join path (fst e)) (path :: above)
                                  (snd e)) others)),
        (Stop e).
      split; [destruct child; reflexivity|].
      split; [symmetry; apply app_assoc|].
      split; [discriminate|].
      split; [intros Hnever; destruct (Hnever e eq_refl)|].
      intros Hboth. apply andb_prop in Hboth. destruct Hboth as [Hreadable _].
      destruct (Hread Hreadable e eq_refl).
Qed.

Lemma walk_visit (n : Node) : reaches Join NewGitRepo n.
Proof.
  induction n as [|entries IH|err|err] using Node_forall_ind;
    intros path above repos Habove.
  - exists [], [], Continue. cbn. rewrite app_nil_r.
    repeat split; try discriminate.
  - rewrite walk_Dir. cbn [directories flat_map]. unfold visit at 1.
    cbn [fmap option_fmap option_map default IsDir].
    unfold outermost at 1. cbn [fst snd]. rewrite Habove.
    destruct (NewGitRepo path) as [msg|gitRepo] eqn:Hrepo.
    + assert (Hbelow : forallb (fun a => negb (isRepository NewGitRepo a))
                         (path :: above) = true)
        by (cbn [forallb]; unfold isRepository at 1; rewrite Hrepo, Habove;
            reflexivity).
      destruct (walkEntries_visit path above entries IH Hbelow repos)
        as (reached & rest & v & Hloop & Hspec & Hskip & Hwhole & Hread).
      exists reached, rest, v. cbn [app readable].
      split; [exact Hloop|]. split; [exact Hspec|].
      split; [intros _; exists entries; reflexivity|].
      split; assumption.
    + assert (Hbelow : forallb (fun a => negb (isRepository NewGitRepo a))
                         (path :: above) = false)
        by (cbn [forallb]; unfold isRepository at 1; rewrite Hrepo; reflexivity).
      exists [gitRepo], [], SkipDir. rewrite app_nil_r.
      split; [reflexivity|]. split.
      * cbn [app]. f_equal.
        clear IH. induction entries as [|e others IHothers]; [reflexivity|].
        cbn [flat_map]. rewrite List.flat_map_app, IHothers.
        rewrite (directories_below_repository (snd e) _ _ Hbelow). reflexivity.
      * split; [intros _; exists entries; reflexivity|].
        split; [reflexivity | discriminate].
  - exists [], (outermost NewGitRepo (path, above)), (Stop err).
    cbn [walk visit directories flat_map readable]. rewrite !app_nil_r.
    split; [reflexivity|]. split; [reflexivity|]. split; [discriminate|].
    split; [intros Hnever; destruct (Hnever err eq_refl) | discriminate].
  - exists [], [], (Stop err). cbn. rewrite app_nil_r.
    split; [reflexivity|]. split; [reflexivity|]. split; [discriminate|].
    split; [reflexivity | discriminate].
Qed.

(** X20.  [findRepos] never returns an error, and what it returns is a
    prefix of the repositories that lie under no other repository, in the
    order of the walk; it is all of them when every [Lstat] and every read of
    a directory under the search directory succeeds. *)
Theorem findRepos_outermost (searchDir : string) (fs : Node) :
  snd (findRepos Join NewGitRepo searchDir fs) = None
  /\ exists rest,
       flat_map (outermost NewGitRepo) (directories Join searchDir [] fs)
       = fst (findRepos Join NewGitRepo searchDir fs) ++ rest
       /\ (readable fs = true -> rest = []).
Proof.
  split; [reflexivity|].
  destruct (walk_visit fs searchDir [] [] eq_refl)
    as (reached & rest & v & Hwalk & Hspec & _ & Hwhole & Hread).
  exists rest. unfold findRepos, Walk. rewrite Hwalk. cbn [fst app].
  split; [exact Hspec|].
  intros Hreadable. apply Hwhole, Hread, Hreadable.
Qed.

End Search.

(* ===================================================================== *)
(** ** Two calls in a row                                                 *)
(* ===================================================================== *)

Section Advancing.

Context {R : Type} (env : arcanist.Env R).
Import arcanist twice.
Variable revision : string.

Lemma extends_refl (p : R) : extends env revision p p.
Proof. repeat split; auto. Qed.

Lemma extends_trans (p q r : R) :
  extends env revision p q -> extends env revision q r -> extends env revision p r.
Proof.
  intros (Hl & Hd & Hc) (Hl' & Hd' & Hc'). split; [|split].
  - now rewrite Hl'.
  - intros diffID. now rewrite Hd'.
  - auto.
Qed.

Lemma advancing_ret {A} (a : A) : advancing env revision (@ret R A a).
Proof. intros s. apply extends_refl. Qed.

Lemma advancing_panic {A} : advancing env revision (@panic R A).
Proof. intros s. apply extends_refl. Qed.

Lemma advancing_invoke {A} (c : Call) (h : Handler R A) :
  extending env revision h -> advancing env revision (invoke c h).
Proof.
  intros Hh s. unfold invoke. destruct (h (remote s)) as [[a r']|] eqn:E; cbn;
    [apply (Hh _ _ _ E) | apply extends_refl].
Qed.

Lemma advancing_bind {A B} (m : M R A) (f : A -> M R B) :
  advancing env revision m -> (forall a, advancing env revision (f a)) ->
  advancing env revision (bind m f).
Proof.
  intros Hm Hf s. unfold bind. destruct (result (m s)) as [a|]; cbn; [|apply Hm].
  eapply extends_trans; [apply Hm | apply Hf].
Qed.

Lemma advancing_forEach {A} (l : list A) (body : A -> M R unit) :
  (forall x, advancing env revision (body x)) -> advancing env revision (forEach l body).
Proof.
  intros H. induction l as [|x r IH]; cbn [forEach]; [apply advancing_ret|].
  apply advancing_bind; [apply H | intros _; exact IH].
Qed.

Lemma advancing_foldEach {A B} (l : list A) (acc : B) (body : B -> A -> M R B) :
  (forall b x, advancing env revision (body b x)) ->
  advancing env revision (foldEach l acc body).
Proof.
  intros H. revert acc. induction l as [|x r IH]; intros acc; cbn [foldEach].
  - apply advancing_ret.
  - apply advancing_bind; [apply H | intros b; apply IH].
Qed.

End Advancing.

Ltac advancing_step :=
  lazymatch goal with
  | |- twice.advancing _ _ (arcanist.bind _ _) => apply advancing_bind; [|intros]
  | |- twice.advancing _ _ (arcanist.ret _) => apply advancing_ret
  | |- twice.advancing _ _ arcanist.panic => apply advancing_panic
  | |- twice.advancing _ _ (arcanist.invoke _ _) => apply advancing_invoke
  | |- twice.advancing _ _ (arcanist.forEach _ _) => apply advancing_forEach; intros
  | |- twice.advancing _ _ (arcanist.foldEach _ _ _) => apply advancing_foldEach; intros
  | |- twice.advancing _ _ (match ?x with _ => _ end) => destruct x
  end.

Section Twice.

Context {R : Type} (env : arcanist.Env R) (repo : repository.Repo).
Import arcanist arcanist_facts twice.
Variables revision head : string.
Hypothesis tool : Faithful env revision head.

Lemma postDiffProperty_advancing (diffID : Z) (name : string)
    (generated : go.Result string) :
  advancing env revision (postDiffProperty env diffID name generated).
Proof.
  unfold postDiffProperty, setDiffProperty.
  destruct generated as [msg|diffProperty]; [apply advancing_panic|].
  destruct (negb (String.eqb diffProperty "")); repeat advancing_step.
  apply (setDiffProperty_extends env revision head tool).
Qed.

Lemma commitMaps_advancing (diffs : list string) :
  advancing env revision (commitMaps env diffs).
Proof.
  apply advancing_foldEach. intros [m1 m2] diffIDString.
  apply advancing_bind.
  - unfold findCommitForDiff, readDiff. repeat advancing_step.
    apply (readDiff_extends env revision head tool).
  - intros lastCommit. destruct (go.Atoi diffIDString); apply advancing_ret.
Qed.

Lemma mirrorStatusesForEachCommit_advancing (r : review.Review)
    (commitToDiffIDMap : gmap string Z) :
  advancing env revision (mirrorStatusesForEachCommit env repo r commitToDiffIDMap).
Proof.
  unfold mirrorStatusesForEachCommit, reportUnitResults, reportLintResults.
  apply advancing_forEach. intros [commitHash diffID].
  repeat advancing_step; apply postDiffProperty_advancing.
Qed.

Lemma mirrorCommentsIntoReview_advancing (differentialReview : DifferentialReview.t)
    (r : review.Review) :
  advancing env revision (mirrorCommentsIntoReview env repo differentialReview r).
Proof.
  unfold mirrorCommentsIntoReview, LoadComments.
  apply advancing_bind; [apply commitMaps_advancing|].
  intros [m1 m2]. apply advancing_bind; [apply mirrorStatusesForEachCommit_advancing|].
  intros _. apply advancing_bind.
  { apply advancing_invoke. apply (LoadComments_extends env revision head tool). }
  intros existing.
  destruct (buildCommentRequests env differentialReview (review.Comments r) existing m1)
    as [inlineRequests commentRequests].
  repeat advancing_step.
  - apply (createinline_extends env revision head tool).
  - apply (createcomment_extends env revision head tool).
Qed.

Lemma mirrorCommentsIntoReview_steady (differentialReview : DifferentialReview.t)
    (r : review.Review) (s : State R) :
  listing env revision
    (remote (after (mirrorCommentsIntoReview env repo differentialReview r s)))
  = listing env revision (remote s).
Proof. apply mirrorCommentsIntoReview_advancing. Qed.

Lemma reconciled_same (id : string) (p p' : R) :
  listing env revision p' = listing env revision p ->
  reconciled env revision head id p -> reconciled env revision head id p'.
Proof. intros E H listed d Hl. rewrite E in Hl. now apply H. Qed.

Lemma listsSome_same (p p' : R) :
  listing env revision p' = listing env revision p ->
  listsSome env revision p -> listsSome env revision p'.
Proof. intros E H listed Hl. rewrite E in Hl. now apply H. Qed.

Lemma upToDateb_spec (d : DifferentialReview.t) :
  upToDateb head d = true -> upToDate head d.
Proof.
  unfold upToDateb, upToDate. intros H. apply orb_prop in H as [H|H]; [now left|right].
  apply List.existsb_exists in H as (hashPair & Hin & Hpair).
  destruct hashPair as [|kind [|value [|]]]; try discriminate.
  cbn in Hpair. apply andb_prop in Hpair as [Hk Hv].
  apply String.eqb_eq in Hk, Hv. now subst.
Qed.

(** What one round of the loop over the listed revisions leaves, when it
    returns. *)
Lemma updateReviewDiffs_reconciles (d : DifferentialReview.t) (req : request.Request)
    (r : review.Review) (s : State R) :
  result (updateReviewDiffs env repo d head req r s) = Some tt ->
  let p' := remote (after (updateReviewDiffs env repo d head req r s)) in
  (forall id, reconciled env revision head id (remote s) ->
              reconciled env revision head id p')
  /\ (upToDateb head d = false -> reconciled env revision head (DifferentialReview.ID d) p')
  /\ (listsSome env revision (remote s) -> listsSome env revision p').
Proof.
  unfold updateReviewDiffs, upToDateb.
  destruct (isClosed d) eqn:Hclosed.
  { intros _. cbn. repeat split; auto; discriminate. }
  destruct (repository.MergeBase repo (request.TargetRef req) head) as [mergeBase|];
    [|discriminate].
  destruct (existsb (isCommitHash head) (DifferentialReview.Hashes d)) eqn:Hhead.
  { intros _. cbv zeta.
    pose proof (mirrorCommentsIntoReview_steady d r s) as Hsame.
    repeat split.
    - intros id. now apply reconciled_same.
    - discriminate.
    - now apply listsSome_same. }
  unfold createDifferentialDiff, bind, invoke. cbn [orb].
  destruct (do_createDifferentialDiff env mergeBase head req (DifferentialReview.Diffs d)
              (remote s)) as [[[msg| |diff] p1]|] eqn:Hdiff; cbn;
    try discriminate.
  { exfalso. exact (createDiff_given env revision head tool _ _ _ _ _ _ Hdiff). }
  destruct (do_differential_updaterevision env
              (differentialUpdateRevisionRequest.mk (DifferentialReview.ID d)
                 (go.Itoa (differentialDiff.ID diff))) p1) as [[response p2]|] eqn:Hupdate;
    cbn; [|discriminate].
  destruct (String.eqb_spec (differentialUpdateRevisionResponse.Error response) "")
    as [Herr|Herr]; cbn; [|discriminate].
  intros _.
  destruct (update_reconciles env revision head tool _ _ _ _ _ _ _ _ _ Hdiff Hupdate Herr)
    as (Hthis & Hothers & Hsome).
  pose proof (createDiff_keeps env revision head tool _ _ _ _ _ _ _ Hdiff) as Hkept.
  repeat split.
  - intros id Hid. apply Hothers. now apply (reconciled_same id (remote s)).
  - intros _. exact Hthis.
  - intros Hl. apply Hsome. now apply (listsSome_same (remote s)).
Qed.

(** The loop over the listed revisions, when it returns, leaves reconciled
    every identifier that was, and the identifier of every revision of the
    list that was not up to date. *)
Lemma update_loop_reconciles (req : request.Request) (r : review.Review)
    (l : list DifferentialReview.t) :
  forall s,
    result (forEach l (fun d => updateReviewDiffs env repo d head req r) s) = Some tt ->
    let p' := remote (after (forEach l (fun d => updateReviewDiffs env repo d head req r) s)) in
    (forall id,
       reconciled env revision head id (remote s)
       \/ (exists d, In d l /\ DifferentialReview.ID d = id /\ upToDateb head d = false) ->
       reconciled env revision head id p')
    /\ (listsSome env revision (remote s) -> listsSome env revision p').
Proof.
  induction l as [|d rest IH]; intros s Hres; cbv zeta.
  - cbn. split; [|auto]. intros id [H|(d & [] & _)]. exact H.
  - cbn [forEach] in *. unfold bind in *.
    destruct (result (updateReviewDiffs env repo d head req r s)) as [[]|] eqn:Hd;
      [|discriminate].
    cbn [result after] in *.
    destruct (updateReviewDiffs_reconciles d req r s Hd) as (Hkeep & Hthis & Hsome).
    destruct (IH _ Hres) as (IHrec & IHsome).
    split; [|intros Hl; apply IHsome, Hsome, Hl].
    intros id [Hid|(d' & [<-|Hin] & Hsame & Hnot)]; apply IHrec.
    + left. now apply Hkeep.
    + left. rewrite <- Hsame. now apply Hthis.
    + right. exists d'. auto.
Qed.

Lemma queryUser_leaves (email : string) (s : State R) :
  remote (after (queryUser env email s)) = remote s.
Proof.
  unfold queryUser, invoke.
  destruct (do_queryUser env email (remote s)) as [[a p']|] eqn:E; [|reflexivity].
  cbn. exact (queryUser_idle env revision head tool _ _ _ _ E).
Qed.

Lemma resolve_leaves (emails : list string) (acc : list string) (s : State R) :
  remote
    (after
       (foldEach emails acc
          (fun acc reviewer =>
             bind (queryUser env reviewer)
               (fun user =>
                  match user with
                  | go.Err _ => ret acc
                  | go.Nil => ret acc
                  | go.Ptr u => ret (acc ++ [user.PHID u])
                  end)) s)) = remote s.
Proof.
  revert acc s. induction emails as [|email rest IH]; intros acc s; [reflexivity|].
  cbn [foldEach].
  assert (Hbody : remote
                    (after
                       (bind (queryUser env email)
                          (fun user =>
                             match user with
                             | go.Err _ => ret acc
                             | go.Nil => ret acc
                             | go.Ptr u => ret (acc ++ [user.PHID u])
                             end) s)) = remote s).
  { unfold bind. pose proof (queryUser_leaves email s) as Hq.
    destruct (result (queryUser env email s)) as [[msg| |u]|]; cbn; exact Hq. }
  unfold bind at 1.
  match goal with
  | |- context [result ?run] => destruct (result run) as [acc'|]
  end; cbn [after]; [|exact Hbody].
  rewrite IH. exact Hbody.
Qed.

Lemma bind_after {A B} (m : M R A) (f : A -> M R B) (s : State R) (a : A) :
  result (m s) = Some a -> after (bind m f s) = after (f a (after (m s))).
Proof. intros H. unfold bind. now rewrite H. Qed.

(** A revision that [createDifferentialRevision] returns was created by the
    tool in the state the function was called in. *)
Lemma createDifferentialRevision_created (commit : string) (diffID : Z)
    (req : request.Request) (s : State R) (rev : differentialRevision.t) :
  result (createDifferentialRevision env repo commit diffID req s) = Some (go.Ok rev) ->
  exists fields response p2,
    do_differential_createrevision env (createRevisionRequest.mk diffID fields) (remote s)
    = Some (response, p2)
    /\ createRevisionResponse.Error response = ""
    /\ remote (after (createDifferentialRevision env repo commit diffID req s)) = p2.
Proof.
  unfold createDifferentialRevision. intros H.
  pose proof (resolve_leaves (request.Reviewers req)
                (revisionFields.Reviewers (titleAndSummary req)) s) as Hleft.
  apply bind_returns in H as (reviewers & H0 & H & _).
  rewrite (bind_after _ _ _ _ H0).
  match type of H0 with result ?run = _ => set (s0 := after run) in * end.
  apply bind_returns in H as (ccs & H1 & H & _).
  rewrite (bind_after _ _ _ _ H1).
  assert (Hccs : forall run, run = (if negb (String.eqb (request.Requester req) "")
                            then
                              bind (queryUser env (request.Requester req))
                                (fun user =>
                                   match user with
                                   | go.Err _ => ret (revisionFields.CCs (titleAndSummary req))
                                   | go.Nil => ret (revisionFields.CCs (titleAndSummary req))
                                   | go.Ptr u =>
                                       ret (revisionFields.CCs (titleAndSummary req)
                                            ++ [user.PHID u])
                                   end)
                            else ret (revisionFields.CCs (titleAndSummary req))) ->
                        remote (after (run s0)) = remote s).
  { intros run ->. rewrite <- Hleft. fold s0.
    destruct (negb (String.eqb (request.Requester req) "")); [|reflexivity].
    unfold bind. pose proof (queryUser_leaves (request.Requester req) s0) as Hq.
    destruct (result (queryUser env (request.Requester req) s0)) as [[msg| |u]|];
      cbn; exact Hq. }
  match type of H1 with result (?run s0) = _ =>
    specialize (Hccs run eq_refl); set (s1 := after (run s0)) in *
  end.
  apply bind_returns in H as (response & H2 & H & _).
  rewrite (bind_after _ _ _ _ H2).
  unfold invoke in *. rewrite Hccs in *.
  match type of H2 with
  | context [do_differential_createrevision env (createRevisionRequest.mk _ ?fields) _] =>
      exists fields
  end.
  destruct (do_differential_createrevision env _ (remote s)) as [[response' p2]|] eqn:E;
    [|discriminate].
  cbn in H2. injection H2 as ->. exists response, p2.
  cbn [after] in *.
  destruct (String.eqb_spec (createRevisionResponse.Error response) "") as [Herr|Herr];
    cbn in *; [|discriminate].
  auto.
Qed.

Lemma listed_reconciled (listed : list DifferentialReview.t) (p : R) (id : string) :
  listing env revision p = Some listed ->
  reconciled env revision head id p
  \/ (exists d, In d listed /\ DifferentialReview.ID d = id /\ upToDateb head d = false).
Proof.
  intros Hl.
  destruct (existsb (fun d => String.eqb (DifferentialReview.ID d) id
                              && negb (upToDateb head d)) listed) eqn:E.
  - right. apply List.existsb_exists in E as (d & Hin & Hd).
    apply andb_prop in Hd as [Hid Hnot]. apply String.eqb_eq in Hid.
    exists d. split; [exact Hin|]. split; [exact Hid|].
    now destruct (upToDateb head d).
  - left. intros listed' d Hl' Hin Hid. rewrite Hl in Hl'. injection Hl' as <-.
    destruct (upToDateb head d) eqn:Hup; [now apply upToDateb_spec|].
    assert (existsb (fun d => String.eqb (DifferentialReview.ID d) id
                              && negb (upToDateb head d)) listed = true); [|congruence].
    apply List.existsb_exists. exists d. split; [exact Hin|].
    rewrite Hup. cbn. rewrite andb_true_r. now apply String.eqb_eq.
Qed.

Lemma update_loop_settles (req : request.Request) (r : review.Review)
    (listed : list DifferentialReview.t) (s : State R) :
  result (forEach listed (fun d => updateReviewDiffs env repo d head req r) s) = Some tt ->
  listing env revision (remote s) = Some listed ->
  listed <> [] ->
  let p' :=
    remote (after (forEach listed (fun d => updateReviewDiffs env repo d head req r) s)) in
  (forall id, reconciled env revision head id p') /\ listsSome env revision p'.
Proof.
  intros Hres Hl Hne. cbv zeta.
  destruct (update_loop_reconciles req r listed s Hres) as [Hrec Hsome]. split.
  - intros id. apply Hrec. now apply listed_reconciled.
  - apply Hsome. intros listed' Hl'. rewrite Hl in Hl'. now injection Hl' as <-.
Qed.

(** A first call for a pending review with a base and a head commit that
    returns has ended with the loop of [updateReviewDiffs] over the
    revisions the tool listed last, of which there is at least one. *)
Lemma first_call_shape (review : review.Review) (s : State R) (base : string) :
  review.Revision review = revision ->
  review.Submitted review = false ->
  default false (closedRevisionsMap s !! revision) = false ->
  repository.GetBaseCommit repo review = Some base ->
  repository.GetHeadCommit repo review = Some head ->
  result (EnsureRequestExists env repo review s) = Some tt ->
  exists s0 listed,
    let loop :=
      forEach listed (fun d =>
        updateReviewDiffs env repo d head (review.Request review) review) s0 in
    listing env revision (remote s0) = Some listed
    /\ listed <> []
    /\ result loop = Some tt
    /\ after (EnsureRequestExists env repo review s) = after loop
    /\ (forall c, In c (calls loop) -> In c (calls (EnsureRequestExists env repo review s))).
Proof.
  intros Hrev Hsub Hc Hbase Hhead. cbv zeta.
  remember (EnsureRequestExists env repo review s) as run eqn:Hrun.
  unfold EnsureRequestExists in Hrun. rewrite Hrev, Hsub, Hbase, Hhead in Hrun.
  rewrite (bind_some _ _ s false) in Hrun by (cbn; now rewrite Hc).
  cbn [getClosed calls result after app] in Hrun.
  pose proof (listDifferentialReviewsOrDie_run env revision s) as Hlist.
  destruct (do_differential_query env (revisionQuery revision) (remote s))
    as [[response p0]|] eqn:Hq.
  2: { rewrite bind_none in Hrun by now rewrite Hlist. subst run. discriminate. }
  pose proof (proj1 (query_extends env revision head tool _ _ _ _ Hq)) as Hkept.
  assert (Hl : listing env revision p0 = Some (queryResponse.Response response)).
  { rewrite Hkept. unfold listing. now rewrite Hq. }
  rewrite (bind_some _ _ s (queryResponse.Response response)) in Hrun by now rewrite Hlist.
  rewrite Hlist in Hrun. cbn [calls result after] in Hrun.
  destruct (queryResponse.Response response) as [|d rest] eqn:Hresp.
  - (* no revision yet: a diff and a revision are created, then listed again *)
    change (0 <? length (@nil DifferentialReview.t))%nat with false in Hrun. cbv iota in Hrun.
    set (s0 := mkState p0 (closedRevisionsMap s)) in *.
    destruct (do_createDifferentialDiff env base revision (review.Request review) [] p0)
      as [[[msg| |diff] p1]|] eqn:Hdiff.
    4: { rewrite bind_none in Hrun
           by (unfold createDifferentialDiff, invoke; cbn; now rewrite Hdiff).
         subst run. discriminate. }
    2: { exfalso. exact (createDiff_given env revision head tool _ _ _ _ _ _ Hdiff). }
    { rewrite (bind_some _ _ s0 (go.Err msg)) in Hrun
        by (unfold createDifferentialDiff, invoke; cbn; now rewrite Hdiff).
      subst run. discriminate. }
    rewrite (bind_some _ _ s0 (go.Ptr diff)) in Hrun
      by (unfold createDifferentialDiff, invoke; cbn; now rewrite Hdiff).
    assert (Hafter : after (createDifferentialDiff env base revision (review.Request review)
                              [] s0) = mkState p1 (closedRevisionsMap s)).
    { unfold createDifferentialDiff, invoke. cbn. now rewrite Hdiff. }
    rewrite Hafter in Hrun. set (s1 := mkState p1 (closedRevisionsMap s)) in *.
    destruct (result (createDifferentialRevision env repo revision (differentialDiff.ID diff)
                        (review.Request review) s1)) as [[msg|rev]|] eqn:Hcreate.
    3: { rewrite bind_none in Hrun by exact Hcreate. subst run. discriminate. }
    { rewrite (bind_some _ _ s1 (go.Failed msg)) in Hrun by exact Hcreate.
      subst run. discriminate. }
    rewrite (bind_some _ _ s1 (go.Ok rev)) in Hrun by exact Hcreate.
    destruct (createDifferentialRevision_created _ _ _ _ _ Hcreate)
      as (fields & created & p2 & Hcreated & Herr & Hp2).
    pose proof (create_lists env revision head tool _ _ _ _ _ _ _ _ Hdiff Hcreated Herr)
      as Hsome.
    set (s2 := after (createDifferentialRevision env repo revision
                        (differentialDiff.ID diff) (review.Request review) s1)) in *.
    pose proof (listDifferentialReviewsOrDie_run env revision s2) as Hlist2.
    rewrite Hp2 in Hlist2.
    destruct (do_differential_query env (revisionQuery revision) p2)
      as [[response2 p3]|] eqn:Hq2.
    2: { rewrite bind_none in Hrun by now rewrite Hlist2. subst run. discriminate. }
    pose proof (proj1 (query_extends env revision head tool _ _ _ _ Hq2)) as Hkept2.
    rewrite (bind_some _ _ s2 (queryResponse.Response response2)) in Hrun
      by now rewrite Hlist2.
    rewrite Hlist2 in Hrun. cbn [calls result after] in Hrun.
    intros Hres. subst run. cbn [result after calls] in *.
    exists (mkState p3 (closedRevisionsMap s2)), (queryResponse.Response response2).
    split; [cbn [remote]; rewrite Hkept2; unfold listing; now rewrite Hq2|].
    split; [apply (Hsome (queryResponse.Response response2)); unfold listing;
            now rewrite Hq2|].
    split; [exact Hres|]. split; [reflexivity|].
    intros c Hin. cbn [app In]. rewrite !List.in_app_iff. cbn [In]. tauto.
  - change (0 <? length (d :: rest))%nat with true in Hrun. cbv iota in Hrun.
    intros Hres. subst run. cbn [result after calls] in *.
    exists (mkState p0 (closedRevisionsMap s)), (d :: rest).
    split; [exact Hl|]. split; [discriminate|]. split; [exact Hres|].
    split; [reflexivity|]. intros c Hin. cbn [app In]. tauto.
Qed.

(** Such a first call leaves every listed revision up to date, and at least
    one listed. *)
Lemma first_call_settles (review : review.Review) (s : State R) (base : string) :
  review.Revision review = revision ->
  review.Submitted review = false ->
  default false (closedRevisionsMap s !! revision) = false ->
  repository.GetBaseCommit repo review = Some base ->
  repository.GetHeadCommit repo review = Some head ->
  result (EnsureRequestExists env repo review s) = Some tt ->
  let p' := remote (after (EnsureRequestExists env repo review s)) in
  (forall id, reconciled env revision head id p') /\ listsSome env revision p'.
Proof.
  intros Hrev Hsub Hc Hbase Hhead Hres. cbv zeta.
  destruct (first_call_shape review s base Hrev Hsub Hc Hbase Hhead Hres)
    as (s0 & listed & Hl & Hne & Hloop & -> & _).
  now apply update_loop_settles.
Qed.

End Twice.

(* ===================================================================== *)
(** ** Two calls in a row: the comments                                   *)
(* ===================================================================== *)

Section Posted.

Context {R : Type} (env : arcanist.Env R) (repo : repository.Repo).
Import arcanist arcanist_facts twice.
Variables revision head : string.
Hypothesis tool : Faithful env revision head.

Lemma inlineRequestsOfThread_anchor_map (d : DifferentialReview.t)
    (existing : list comment.Comment) (m : gmap string string) (t : review.CommentThread) :
  inlineRequestsOfThread env d existing m t
  = match anchor m t with
    | Some (diffID, path, lineNumber) =>
        map (inlineRequestFor env d diffID path lineNumber)
          (List.filter (fun c => negb (overlapsAny env c existing)) (review.threadComments t))
    | None => []
    end.
Proof.
  unfold inlineRequestsOfThread, anchor.
  destruct (comment.Location_ (review.Comment t)) as [location|]; [|reflexivity].
  destruct (negb (String.eqb (comment.Path location) "")); [|reflexivity].
  cbv zeta.
  destruct (negb (String.eqb (default "" (m !! comment.Commit location)) ""));
    [|reflexivity].
  apply buildCommentRequestsForThread_map.
Qed.

Lemma prepares_posts_nothing (c : Call) : prepares c -> postsComment c = false.
Proof. destruct c; cbn; intros H; try reflexivity; destruct H. Qed.

(** In two states with the same diffs, [findCommitForDiff] gives the same
    commit and leaves states with the same diffs. *)
Lemma findCommitForDiff_same (diffIDString : string) (s s' : State R) :
  (forall diffID, readAt env diffID (remote s') = readAt env diffID (remote s)) ->
  result (findCommitForDiff env diffIDString s')
  = result (findCommitForDiff env diffIDString s)
  /\ (forall diffID,
        readAt env diffID (remote (after (findCommitForDiff env diffIDString s')))
        = readAt env diffID (remote (after (findCommitForDiff env diffIDString s)))).
Proof.
  intros Hsame. unfold findCommitForDiff.
  destruct (go.Atoi diffIDString) as [diffID|]; [|split; [reflexivity | exact Hsame]].
  unfold readDiff, bind, invoke.
  pose proof (Hsame diffID) as Hd. unfold readAt in Hd.
  destruct (do_readDiff env diffID (remote s)) as [[a p1]|] eqn:E;
    destruct (do_readDiff env diffID (remote s')) as [[a' p1']|] eqn:E';
    try discriminate; cbn.
  - injection Hd as ->.
    pose proof (readDiff_extends env revision head tool _ _ _ _ E) as (_ & Hr & _).
    pose proof (readDiff_extends env revision head tool _ _ _ _ E') as (_ & Hr' & _).
    destruct a as [msg|diff]; cbn; (split; [reflexivity|]);
      intros id; now rewrite Hr, Hr'.
  - split; [reflexivity | exact Hsame].
Qed.

Lemma bind_result_same {A B} (m : M R A) (f : A -> M R B) (s s' : State R) :
  result (m s') = result (m s) ->
  (forall a, result (m s) = Some a ->
             result (f a (after (m s'))) = result (f a (after (m s)))) ->
  result (bind m f s') = result (bind m f s).
Proof.
  intros Hm Hf. unfold bind. rewrite Hm.
  destruct (result (m s)) as [a|]; cbn; [now apply Hf | reflexivity].
Qed.

Lemma recordCommit_same (m1 : gmap string string) (m2 : gmap string Z)
    (diffIDString : string) (s s' : State R) :
  (forall diffID, readAt env diffID (remote s') = readAt env diffID (remote s)) ->
  let body :=
    bind (findCommitForDiff env diffIDString)
      (fun lastCommit =>
         let commitToDiffMap := <[lastCommit := diffIDString]> m1 in
         match go.Atoi diffIDString with
         | Some diffID => ret (commitToDiffMap, <[lastCommit := diffID]> m2)
         | None => ret (commitToDiffMap, m2)
         end) in
  result (body s') = result (body s)
  /\ (forall diffID,
        readAt env diffID (remote (after (body s')))
        = readAt env diffID (remote (after (body s)))).
Proof.
  intros Hsame. cbv zeta.
  destruct (findCommitForDiff_same diffIDString s s' Hsame) as [Hres Hafter].
  unfold bind. rewrite Hres.
  destruct (result (findCommitForDiff env diffIDString s)) as [lastCommit|]; cbn.
  - destruct (go.Atoi diffIDString); cbn; split; auto.
  - split; auto.
Qed.

Lemma commitMaps_fold_same (diffs : list string) :
  forall (acc : gmap string string * gmap string Z) (s s' : State R),
    (forall diffID, readAt env diffID (remote s') = readAt env diffID (remote s)) ->
    result
      (foldEach diffs acc
         (fun '(commitToDiffMap, commitToDiffIDMap) diffIDString =>
            bind (findCommitForDiff env diffIDString)
              (fun lastCommit =>
                 let commitToDiffMap := <[lastCommit := diffIDString]> commitToDiffMap in
                 match go.Atoi diffIDString with
                 | Some diffID =>
                     ret (commitToDiffMap, <[lastCommit := diffID]> commitToDiffIDMap)
                 | None => ret (commitToDiffMap, commitToDiffIDMap)
                 end)) s')
    = result
        (foldEach diffs acc
           (fun '(commitToDiffMap, commitToDiffIDMap) diffIDString =>
              bind (findCommitForDiff env diffIDString)
                (fun lastCommit =>
                   let commitToDiffMap := <[lastCommit := diffIDString]> commitToDiffMap in
                   match go.Atoi diffIDString with
                   | Some diffID =>
                       ret (commitToDiffMap, <[lastCommit := diffID]> commitToDiffIDMap)
                   | None => ret (commitToDiffMap, commitToDiffIDMap)
                   end)) s).
Proof.
  induction diffs as [|diffIDString rest IH]; intros [m1 m2] s s' Hsame; [reflexivity|].
  cbn [foldEach].
  destruct (recordCommit_same m1 m2 diffIDString s s' Hsame) as [Hres Hafter].
  apply bind_result_same; [exact Hres|].
  intros acc _. apply IH. exact Hafter.
Qed.

Lemma commitMaps_same (diffs : list string) (s s' : State R) :
  extends env revision (remote s) (remote s') ->
  result (commitMaps env diffs s') = result (commitMaps env diffs s).
Proof. intros (_ & Hd & _). unfold commitMaps. now apply commitMaps_fold_same. Qed.

(** The loop that posts the inline comments, when it returns, leaves every
    comment it posted covered. *)
Lemma post_loop_covers (requests : list createInlineRequest.t) :
  forall s,
    result
      (forEach requests
         (fun request =>
            bind (invoke (CallCreateInline request)
                    (do_differential_createinline env request))
              (fun _ => ret tt)) s) = Some tt ->
    forall d diffID path lineNumber c,
      In (inlineRequestFor env d diffID path lineNumber c) requests ->
      covers env d c
        (remote
           (after
              (forEach requests
                 (fun request =>
                    bind (invoke (CallCreateInline request)
                            (do_differential_createinline env request))
                      (fun _ => ret tt)) s))).
Proof.
  induction requests as [|q rest IH]; intros s Hres d diffID path lineNumber c Hin;
    [destruct Hin|].
  cbn [forEach] in *.
  apply bind_returns in Hres as ([] & Hq & Hrest & _).
  rewrite (bind_after _ _ _ _ Hq).
  destruct Hin as [Heq|Hin]; [|now apply (IH _ Hrest d diffID path lineNumber c)].
  assert (Hlater :
    extends env revision
      (remote
         (after
            (bind (invoke (CallCreateInline q) (do_differential_createinline env q))
               (fun _ => ret tt) s)))
      (remote
         (after
            (forEach rest
               (fun request =>
                  bind (invoke (CallCreateInline request)
                          (do_differential_createinline env request))
                    (fun _ => ret tt))
               (after
                  (bind (invoke (CallCreateInline q)
                           (do_differential_createinline env q))
                     (fun _ => ret tt) s)))))).
  { apply (advancing_forEach env revision). intros x.
    repeat advancing_step. apply (createinline_extends env revision head tool). }
  destruct Hlater as (_ & _ & Hcovers). apply Hcovers.
  unfold bind, invoke in *.
  destruct (do_differential_createinline env q (remote s)) as [[response p1]|] eqn:E;
    [|discriminate].
  cbn. subst q. exact (createinline_lists env revision head tool _ _ _ _ _ _ _ _ E).
Qed.

Lemma LoadComments_answer (d : DifferentialReview.t) (s : State R)
    (existing : list comment.Comment) :
  result (LoadComments env d s) = Some existing ->
  do_LoadComments env d (remote s)
  = Some (existing, remote (after (LoadComments env d s))).
Proof.
  unfold LoadComments, invoke.
  destruct (do_LoadComments env d (remote s)) as [[l p']|]; cbn; [|discriminate].
  now intros [= ->].
Qed.

(** A call of [mirrorCommentsIntoReview] that returns leaves covered every
    comment it would post. *)
Lemma mirrorCommentsIntoReview_mirrors (d : DifferentialReview.t) (r : review.Review)
    (s : State R) :
  result (mirrorCommentsIntoReview env repo d r s) = Some tt ->
  mirrored env d r (remote (after (mirrorCommentsIntoReview env repo d r s))).
Proof.
  intros H.
  pose proof (mirrorCommentsIntoReview_advancing env repo revision head tool d r s)
    as Hwhole.
  revert H Hwhole. unfold mirrorCommentsIntoReview.
  fold (commitMaps env (DifferentialReview.Diffs d)). intros H Hwhole.
  apply bind_returns in H as ([m1 m2] & Hmaps & H & _).
  rewrite (bind_after _ _ _ _ Hmaps) in Hwhole |- *.
  set (s0 := after (commitMaps env (DifferentialReview.Diffs d) s)) in *.
  apply bind_returns in H as ([] & Hstatus & H & _).
  rewrite (bind_after _ _ _ _ Hstatus) in Hwhole |- *.
  set (s1 := after (mirrorStatusesForEachCommit env repo r m2 s0)) in *.
  apply bind_returns in H as (existing & Hload & H & _).
  rewrite (bind_after _ _ _ _ Hload) in Hwhole |- *.
  pose proof (LoadComments_answer d s1 existing Hload) as Hanswer.
  set (s2 := after (LoadComments env d s1)) in *.
  pose proof (eq_refl : fst (buildCommentRequests env d (review.Comments r) existing m1)
                        = flat_map (inlineRequestsOfThread env d existing m1)
                            (review.Comments r)) as Hinline.
  destruct (buildCommentRequests env d (review.Comments r) existing m1)
    as [inlineRequests commentRequests].
  cbn [fst] in Hinline.
  apply bind_returns in H as ([] & Hinl & Hcmt & _).
  rewrite (bind_after _ _ _ _ Hinl) in Hwhole |- *.
  pose proof (post_loop_covers inlineRequests s2 Hinl) as Hposted.
  match type of Hinl with
  | result (?loop s2) = _ => set (s3 := after (loop s2)) in *
  end.
  match type of Hcmt with
  | result (?loop s3) = _ =>
      assert (Hlast : extends env revision (remote s3) (remote (after (loop s3))));
      [|set (s4 := after (loop s3)) in *]
  end.
  { apply (advancing_forEach env revision). intros x. repeat advancing_step.
    apply (createcomment_extends env revision head tool). }
  assert (Hload' : extends env revision (remote s1) (remote s2)).
  { apply (advancing_invoke env revision).
    apply (LoadComments_extends env revision head tool). }
  assert (Hposts : extends env revision (remote s2) (remote s3)).
  { apply (advancing_forEach env revision). intros x. repeat advancing_step.
    apply (createinline_extends env revision head tool). }
  intros s' maps t c Hs' Hmaps' Ht Hanchor Hc.
  assert (maps = (m1, m2)) as ->.
  { rewrite (commitMaps_same (DifferentialReview.Diffs d) s s') in Hmaps'
      by (rewrite Hs'; exact Hwhole).
    congruence. }
  cbn [fst] in Hanchor.
  destruct (overlapsAny env c existing) eqn:Hover.
  - (* the comment overlapped a listed one *)
    destruct (extends_trans env revision _ _ _ Hload'
                (extends_trans env revision _ _ _ Hposts Hlast)) as (_ & _ & Hcov).
    apply Hcov. intros existing' p' Hl. rewrite Hanswer in Hl. now injection Hl as <- _.
  - (* the comment was posted *)
    destruct Hlast as (_ & _ & Hcov). apply Hcov.
    destruct (anchor m1 t) as [[[diffID path] lineNumber]|] eqn:Ha; [|contradiction].
    apply (Hposted d diffID path lineNumber c).
    rewrite Hinline. apply List.in_flat_map. exists t. split; [exact Ht|].
    rewrite inlineRequestsOfThread_anchor_map, Ha.
    apply List.in_map. apply List.filter_In. split; [exact Hc|]. now rewrite Hover.
Qed.

(** On a revision whose comments are covered, [mirrorCommentsIntoReview]
    posts nothing. *)
Lemma mirrorCommentsIntoReview_posts_nothing (d : DifferentialReview.t)
    (r : review.Review) (s : State R) :
  mirrored env d r (remote s) ->
  Forall (fun c => postsComment c = false)
    (calls (mirrorCommentsIntoReview env repo d r s)).
Proof.
  intros Hmirrored. unfold mirrorCommentsIntoReview.
  fold (commitMaps env (DifferentialReview.Diffs d)).
  pose proof (proj1 (mirrors_prepares_before_posting env d r s)) as Hreads.
  fold (commitMaps env (DifferentialReview.Diffs d)) in Hreads.
  pose proof (commitMaps_advancing env revision head tool (DifferentialReview.Diffs d) s)
    as Hadv0.
  assert (Hquiet : forall l, Forall prepares l -> Forall (fun c => postsComment c = false) l).
  { intros l. apply List.Forall_impl. exact prepares_posts_nothing. }
  destruct (result (commitMaps env (DifferentialReview.Diffs d) s)) as [[m1 m2]|] eqn:Hmaps.
  2: { rewrite bind_none by exact Hmaps. cbn. now apply Hquiet. }
  rewrite (bind_some _ _ s (m1, m2)) by exact Hmaps. cbn [calls].
  apply Forall_app. split; [now apply Hquiet|].
  set (s0 := after (commitMaps env (DifferentialReview.Diffs d) s)) in *.
  pose proof (proj1 (mirrorStatusesForEachCommit_prepares env repo r m2 s0)) as Hstatus.
  pose proof (mirrorStatusesForEachCommit_advancing env repo revision head tool r m2 s0)
    as Hadv1.
  destruct (result (mirrorStatusesForEachCommit env repo r m2 s0)) as [[]|] eqn:Hst.
  2: { rewrite bind_none by exact Hst. cbn. now apply Hquiet. }
  rewrite (bind_some _ _ s0 tt) by exact Hst. cbn [calls].
  apply Forall_app. split; [now apply Hquiet|].
  set (s1 := after (mirrorStatusesForEachCommit env repo r m2 s0)) in *.
  assert (Hload : Forall (fun c => postsComment c = false)
                    (calls (LoadComments env d s1))).
  { apply Hquiet. unfold LoadComments. apply (emits_invoke prepares). exact I. }
  destruct (result (LoadComments env d s1)) as [existing|] eqn:Hl.
  2: { rewrite bind_none by exact Hl. cbn. exact Hload. }
  rewrite (bind_some _ _ s1 existing) by exact Hl. cbn [calls].
  apply Forall_app. split; [exact Hload|].
  assert (Hnone : flat_map (inlineRequestsOfThread env d existing m1) (review.Comments r)
                  = []).
  { pose proof (LoadComments_answer d s1 existing Hl) as Hanswer.
    assert (Hcovered : forall t c,
               In t (review.Comments r) -> anchor m1 t <> None ->
               In c (review.threadComments t) -> overlapsAny env c existing = true).
    { intros t c Ht Hanchor Hc.
      destruct (extends_trans env revision _ _ _ Hadv0 Hadv1) as (_ & _ & Hcov).
      exact (Hcov d c (Hmirrored s (m1, m2) t c eq_refl Hmaps Ht Hanchor Hc) _ _ Hanswer). }
    revert Hcovered. generalize (review.Comments r) as threads.
    induction threads as [|t rest IH]; intros Hcovered; [reflexivity|].
    cbn [flat_map]. rewrite IH by (intros t' c Ht'; apply Hcovered; now right).
    rewrite app_nil_r, inlineRequestsOfThread_anchor_map.
    destruct (anchor m1 t) as [[[diffID path] lineNumber]|] eqn:Ha; [|reflexivity].
    assert (Hthread : forall c, In c (review.threadComments t) ->
                                overlapsAny env c existing = true).
    { intros c Hc. apply (Hcovered t c); [now left | now rewrite Ha | exact Hc]. }
    revert Hthread. generalize (review.threadComments t) as cs.
    induction cs as [|c cs IHcs]; intros Hthread; [reflexivity|].
    cbn [List.filter]. rewrite (Hthread c) by now left. cbn.
    apply IHcs. intros c' Hc'. apply Hthread. now right. }
  unfold buildCommentRequests. rewrite Hnone. cbn. constructor.
Qed.

Lemma mirrored_extends (d : DifferentialReview.t) (r : review.Review) (p p' : R) :
  extends env revision p p' -> mirrored env d r p -> mirrored env d r p'.
Proof.
  intros Hext Hm s' maps t c Hs' Hmaps Ht Hanchor Hc.
  destruct Hext as (Hl & Hd & Hcov). apply Hcov.
  apply (Hm (mkState p (closedRevisionsMap s')) maps t c eq_refl); try assumption.
  rewrite <- Hmaps. symmetry. apply commitMaps_same. cbn [remote]. rewrite Hs'.
  repeat split; assumption.
Qed.

Lemma settledComments_extends (r : review.Review) (d : DifferentialReview.t) (p p' : R) :
  extends env revision p p' ->
  settledComments env head r p d -> settledComments env head r p' d.
Proof.
  intros Hext [Hclosed|[Hhead Hm]]; [now left | right].
  split; [exact Hhead | now apply (mirrored_extends d r p)].
Qed.

(** One round of the loop of the first call, when it returns without an
    update of the revision. *)
Lemma updateReviewDiffs_mirrors (d : DifferentialReview.t) (req : request.Request)
    (r : review.Review) (s : State R) :
  result (updateReviewDiffs env repo d head req r s) = Some tt ->
  (forall q, ~ In (CallUpdateRevision q) (calls (updateReviewDiffs env repo d head req r s))) ->
  let p' := remote (after (updateReviewDiffs env repo d head req r s)) in
  extends env revision (remote s) p' /\ settledComments env head r p' d.
Proof.
  unfold updateReviewDiffs, settledComments.
  destruct (isClosed d) eqn:Hclosed.
  { intros _ _. cbn. split; [apply extends_refl | now left]. }
  destruct (repository.MergeBase repo (request.TargetRef req) head) as [mergeBase|];
    [|discriminate].
  destruct (existsb (isCommitHash head) (DifferentialReview.Hashes d)) eqn:Hhead.
  { intros Hres _. cbv zeta. split.
    - apply (mirrorCommentsIntoReview_advancing env repo revision head tool).
    - right. split; [reflexivity|]. now apply mirrorCommentsIntoReview_mirrors. }
  unfold createDifferentialDiff, bind, invoke.
  destruct (do_createDifferentialDiff env mergeBase head req (DifferentialReview.Diffs d)
              (remote s)) as [[[msg| |diff] p1]|] eqn:Hdiff; cbn;
    try discriminate.
  { exfalso. exact (createDiff_given env revision head tool _ _ _ _ _ _ Hdiff). }
  destruct (do_differential_updaterevision env
              (differentialUpdateRevisionRequest.mk (DifferentialReview.ID d)
                 (go.Itoa (differentialDiff.ID diff))) p1) as [[response p2]|];
    cbn; [|discriminate].
  intros _ Hnone. exfalso. eapply Hnone. right. left. reflexivity.
Qed.

Lemma update_loop_mirrors (req : request.Request) (r : review.Review)
    (l : list DifferentialReview.t) :
  forall s,
    let loop := forEach l (fun d => updateReviewDiffs env repo d head req r) s in
    result loop = Some tt ->
    (forall q, ~ In (CallUpdateRevision q) (calls loop)) ->
    extends env revision (remote s) (remote (after loop))
    /\ Forall (settledComments env head r (remote (after loop))) l.
Proof.
  induction l as [|d rest IH]; intros s; cbv zeta.
  - intros _ _. split; [apply extends_refl | constructor].
  - cbn [forEach]. intros Hres Hnone.
    apply bind_returns in Hres as ([] & Hd & Hrest & Hcalls).
    rewrite Hcalls in Hnone. rewrite (bind_after _ _ _ _ Hd).
    destruct (updateReviewDiffs_mirrors d req r s Hd) as [Hext Hsettled].
    { intros q Hin. apply (Hnone q). apply List.in_or_app. now left. }
    destruct (IH _ Hrest) as [Hext' Hall].
    { intros q Hin. apply (Hnone q). apply List.in_or_app. now right. }
    split; [eapply extends_trans; eassumption|].
    constructor; [|exact Hall].
    now apply (settledComments_extends r d _ _ Hext').
Qed.

(** One round of the loop of the second call, on a revision that is closed
    or whose comments are covered. *)
Lemma updateReviewDiffs_posts_nothing (d : DifferentialReview.t) (req : request.Request)
    (r : review.Review) (s : State R) :
  settledComments env head r (remote s) d ->
  Forall (fun c => postsComment c = false)
    (calls (updateReviewDiffs env repo d head req r s))
  /\ extends env revision (remote s)
       (remote (after (updateReviewDiffs env repo d head req r s))).
Proof.
  intros Hsettled. unfold updateReviewDiffs.
  destruct (isClosed d) eqn:Hclosed.
  { cbn. split; [constructor | apply extends_refl]. }
  destruct Hsettled as [Habs|[Hhead Hm]]; [congruence|].
  destruct (repository.MergeBase repo (request.TargetRef req) head) as [mergeBase|].
  - rewrite Hhead. split.
    + now apply mirrorCommentsIntoReview_posts_nothing.
    + apply (mirrorCommentsIntoReview_advancing env repo revision head tool).
  - cbn. split; [constructor | apply extends_refl].
Qed.

Lemma update_loop_posts_nothing (req : request.Request) (r : review.Review)
    (l : list DifferentialReview.t) :
  forall s,
    Forall (settledComments env head r (remote s)) l ->
    Forall (fun c => postsComment c = false)
      (calls (forEach l (fun d => updateReviewDiffs env repo d head req r) s)).
Proof.
  induction l as [|d rest IH]; intros s Hall; [constructor|].
  cbn [forEach]. inversion Hall as [|? ? Hd Hrest]; subst.
  destruct (updateReviewDiffs_posts_nothing d req r s Hd) as [Hcalls Hext].
  unfold bind.
  destruct (result (updateReviewDiffs env repo d head req r s)) as [[]|]; cbn;
    [|exact Hcalls].
  apply Forall_app. split; [exact Hcalls|]. apply IH.
  eapply List.Forall_impl; [|exact Hrest].
  intros d'. now apply settledComments_extends.
Qed.

(** A first call for a pending review that returns without an update of a
    revision leaves the comments of every listed revision covered. *)
Lemma first_call_mirrors (review : review.Review) (s : State R) (base : string) :
  review.Revision review = revision ->
  review.Submitted review = false ->
  default false (closedRevisionsMap s !! revision) = false ->
  repository.GetBaseCommit repo review = Some base ->
  repository.GetHeadCommit repo review = Some head ->
  result (EnsureRequestExists env repo review s) = Some tt ->
  (forall q, ~ In (CallUpdateRevision q) (calls (EnsureRequestExists env repo review s))) ->
  let p' := remote (after (EnsureRequestExists env repo review s)) in
  exists listed,
    listing env revision p' = Some listed
    /\ listed <> []
    /\ Forall (settledComments env head review p') listed.
Proof.
  intros Hrev Hsub Hc Hbase Hhead Hres Hnone. cbv zeta.
  destruct (first_call_shape env repo revision head tool review s base Hrev Hsub Hc Hbase
              Hhead Hres) as (s0 & listed & Hl & Hne & Hloop & Hafter & Hcalls).
  rewrite Hafter.
  destruct (update_loop_mirrors (review.Request review) review listed s0 Hloop)
    as [(Hlist & _) Hall].
  { intros q Hin. exact (Hnone q (Hcalls _ Hin)). }
  exists listed. split; [now rewrite Hlist|]. split; assumption.
Qed.

(** The second call on such a state posts no comment. *)
Lemma second_call_posts_nothing (review : review.Review) (s : State R)
    (listed : list DifferentialReview.t) :
  review.Revision review = revision ->
  review.Submitted review = false ->
  repository.GetHeadCommit repo review = Some head ->
  listing env revision (remote s) = Some listed ->
  listed <> [] ->
  Forall (settledComments env head review (remote s)) listed ->
  Forall (fun c => postsComment c = false) (calls (EnsureRequestExists env repo review s)).
Proof.
  intros Hrev Hsub Hhead Hl Hne Hall.
  destruct (default false (closedRevisionsMap s !! review.Revision review)) eqn:Hc.
  { rewrite EnsureRequestExists_cached by exact Hc. constructor. }
  unfold EnsureRequestExists. rewrite Hsub, Hhead, Hrev in *.
  rewrite (bind_some _ _ s false) by (cbn; now rewrite Hc).
  cbn [getClosed calls result after app].
  pose proof (listDifferentialReviewsOrDie_run env revision s) as Hlist.
  unfold listing in Hl.
  destruct (do_differential_query env (revisionQuery revision) (remote s))
    as [[response p0]|] eqn:Hq; [|discriminate].
  injection Hl as Hl.
  pose proof (query_extends env revision head tool _ _ _ _ Hq) as Hext.
  rewrite (bind_some _ _ s (queryResponse.Response response)) by now rewrite Hlist.
  rewrite Hlist. cbn [calls result after]. rewrite Hl.
  constructor; [reflexivity|].
  destruct (repository.GetBaseCommit repo review); [|constructor].
  destruct listed as [|d rest]; [contradiction|].
  change (0 <? length (d :: rest))%nat with true. cbv iota.
  apply update_loop_posts_nothing. cbn [remote].
  eapply List.Forall_impl; [|exact Hall].
  intros d'. now apply settledComments_extends.
Qed.

End Posted.

Section SecondCall.

Context {R : Type} (env : arcanist.Env R) (repo : repository.Repo).
Import arcanist twice.

Lemma EnsureRequestExists_without_commits (P : Call -> Prop) (review : review.Review)
    (s : State R) :
  (forall q, P (CallQuery q)) ->
  review.Submitted review = false ->
  repository.GetBaseCommit repo review = None
  \/ repository.GetHeadCommit repo review = None ->
  Forall P (calls (EnsureRequestExists env repo review s)).
Proof.
  intros HP Hsub Hnone.
  destruct (default false (closedRevisionsMap s !! review.Revision review)) eqn:Hc.
  { rewrite EnsureRequestExists_cached by exact Hc. constructor. }
  unfold EnsureRequestExists. rewrite Hsub.
  rewrite (bind_some _ _ s false) by (cbn; now rewrite Hc).
  cbn [getClosed calls result after app].
  pose proof (listDifferentialReviewsOrDie_run env (review.Revision review) s) as Hlist.
  destruct (do_differential_query env _ (remote s)) as [[response r']|].
  - rewrite (bind_some _ _ s (queryResponse.Response response)) by now rewrite Hlist.
    rewrite Hlist. cbn [calls result after].
    constructor; [apply HP|].
    destruct Hnone as [-> | Hhead]; [constructor|].
    destruct (repository.GetBaseCommit repo review); [|constructor].
    rewrite Hhead. constructor.
  - rewrite bind_none by now rewrite Hlist. rewrite Hlist. repeat constructor. apply HP.
Qed.


End SecondCall.

(* ===================================================================== *)
(** ** The tool that keeps what it is sent is faithful                    *)
(* ===================================================================== *)

Section Keeper.

Import arcanist arcanist_facts twice.

Lemma keeper_listing (revision : string) (p : keeper.Store) :
  listing keeper.phabricator revision p
  = Some (List.filter (examples.carries [[commitHashType; revision]])
            (examples.revisions (keeper.tool p))).
Proof. reflexivity. Qed.

Lemma keeper_covers (d : DifferentialReview.t) (c : comment.Comment) (p : keeper.Store) :
  covers keeper.phabricator d c p
  <-> overlapsAny keeper.phabricator c
        (map keeper.listedComment (List.filter (keeper.sentTo d) (keeper.inlines p)))
      = true.
Proof.
  unfold covers. cbn [do_LoadComments keeper.phabricator]. split.
  - intros H. exact (H _ p eq_refl).
  - intros H existing p' [= <- <-]. exact H.
Qed.

(** A later state of the tool: the same revisions and diffs, and more
    inline comments. *)
Lemma keeper_extends (revision : string) (p p' : keeper.Store) :
  examples.revisions (keeper.tool p') = examples.revisions (keeper.tool p) ->
  examples.diffs (keeper.tool p') = examples.diffs (keeper.tool p) ->
  (exists more, keeper.inlines p' = keeper.inlines p ++ more) ->
  extends keeper.phabricator revision p p'.
Proof.
  intros Hr Hd (more & Hi). split; [|split].
  - rewrite !keeper_listing. now rewrite Hr.
  - intros diffID. unfold readAt. cbn. unfold keeper.lift. cbn. now rewrite Hd.
  - intros d c. rewrite !keeper_covers, Hi, List.filter_app, map_app.
    unfold overlapsAny. rewrite List.existsb_app. intros ->. reflexivity.
Qed.

Lemma carries_updateRevision (hashes : list (list string)) (id diffID commit : string)
    (r : DifferentialReview.t) :
  examples.carries hashes r = true ->
  examples.carries hashes (keeper.updateRevision id diffID commit r) = true.
Proof.
  unfold keeper.updateRevision.
  destruct (String.eqb (DifferentialReview.ID r) id); [|auto].
  unfold examples.carries. intros H. apply List.forallb_forall. intros h Hh.
  rewrite List.forallb_forall in H. specialize (H h Hh). cbn.
  rewrite List.existsb_app, H. reflexivity.
Qed.

Lemma updateRevision_upToDate (head id diffID : string) (r : DifferentialReview.t) :
  DifferentialReview.ID (keeper.updateRevision id diffID head r) = id ->
  upToDate head (keeper.updateRevision id diffID head r).
Proof.
  unfold keeper.updateRevision.
  destruct (String.eqb_spec (DifferentialReview.ID r) id) as [Heq|Hne].
  - intros _. right. cbn. apply List.in_or_app. right. now left.
  - intros Hid. contradiction.
Qed.

Lemma keeper_faithful (revision head : string) :
  Faithful keeper.phabricator revision head.
Proof.
  constructor.
  - intros q p a p' H. cbn in H. injection H as _ <-.
    apply keeper_extends; [reflexivity | reflexivity | exists []; now rewrite app_nil_r].
  - intros diffID p a p' H. cbn in H. injection H as _ <-.
    apply keeper_extends; [reflexivity | reflexivity | exists []; now rewrite app_nil_r].
  - intros d p a p' H. cbn in H. injection H as _ <-.
    apply keeper_extends; [reflexivity | reflexivity | exists []; now rewrite app_nil_r].
  - intros diffID name value p a p' H. cbn in H. injection H as _ <-.
    apply keeper_extends; [reflexivity | reflexivity | exists []; now rewrite app_nil_r].
  - intros q p a p' H. cbn in H. injection H as _ <-.
    apply keeper_extends; [reflexivity | reflexivity | now exists [q]].
  - intros q p a p' H. cbn in H. injection H as _ <-.
    apply keeper_extends; [reflexivity | reflexivity | exists []; now rewrite app_nil_r].
  - intros d diffID path lineNumber c p response p' H. cbn in H. injection H as _ <-.
    apply keeper_covers. cbn [keeper.inlines]. rewrite List.filter_app, map_app.
    unfold overlapsAny. rewrite List.existsb_app. apply orb_true_iff. right.
    cbn. unfold keeper.sentTo. cbn. rewrite String.eqb_refl. cbn.
    unfold keeper.overlapsByQuote. cbn. now rewrite String.eqb_refl.
  - intros mergeBase commit req priorDiffs p a p' H. cbn in H. injection H as _ <-.
    reflexivity.
  - intros email [t i] a p' H. cbn in H. now injection H as _ <-.
  - intros mergeBase commit req priorDiffs p p' H. cbn in H. discriminate.
  - intros base req fields p0 d p1 response p2 Hdiff Hcreate Herr.
    cbn in Hdiff. injection Hdiff as <- <-.
    cbn in Hcreate. unfold keeper.lift, keeper.createRevision in Hcreate. cbn in Hcreate.
    rewrite Z.eqb_refl in Hcreate. injection Hcreate as _ <-.
    intros listed Hl. rewrite keeper_listing in Hl. injection Hl as <-.
    cbn [examples.revisions keeper.tool]. rewrite List.filter_app. cbn [List.filter].
    unfold examples.carries at 2. cbn [forallb existsb DifferentialReview.Hashes
                                        differentialDiff.findLastCommit].
    unfold examples.sameHash. rewrite bool_decide_eq_true_2 by reflexivity.
    cbn. intros Habs. now apply List.app_eq_nil in Habs as [_ Habs].
  - intros mergeBase req priorDiffs p0 d p1 id response p2 Hdiff Hupdate Herr.
    cbn in Hdiff. injection Hdiff as <- <-.
    cbn in Hupdate. unfold keeper.lift, keeper.updateWithDiff, keeper.diffNamed in Hupdate.
    cbn in Hupdate. rewrite String.eqb_refl in Hupdate. injection Hupdate as _ <-.
    set (diffID := go.Itoa (keeper.freshDiff (examples.diffs (keeper.tool p0)))).
    split; [|split].
    + intros listed d Hl Hin Hid. rewrite keeper_listing in Hl. injection Hl as <-.
      cbn [examples.revisions keeper.tool] in Hin. apply List.filter_In in Hin as [Hin _].
      apply List.in_map_iff in Hin as (r & <- & _).
      now apply updateRevision_upToDate.
    + intros id' Hrec listed d Hl Hin Hid. rewrite keeper_listing in Hl.
      injection Hl as <-. cbn [examples.revisions keeper.tool] in Hin.
      apply List.filter_In in Hin as [Hin Hcarries].
      apply List.in_map_iff in Hin as (r & Hd & Hr).
      unfold keeper.updateRevision in Hd.
      destruct (String.eqb_spec (DifferentialReview.ID r) id) as [Heq|Hne].
      * subst d. right. cbn. apply List.in_or_app. right. now left.
      * subst d. apply (Hrec _ r (keeper_listing revision _)); [|exact Hid].
        cbn [examples.revisions keeper.tool]. apply List.filter_In. split; assumption.
    + intros Hsome listed Hl. rewrite keeper_listing in Hl. injection Hl as <-.
      cbn [examples.revisions keeper.tool].
      specialize (Hsome _ (keeper_listing revision _)).
      cbn [examples.revisions keeper.tool] in Hsome.
      destruct (List.filter _ (examples.revisions (keeper.tool p0))) as [|r rest] eqn:Hf;
        [contradiction|].
      assert (Hin : In r (List.filter (examples.carries [[commitHashType; revision]])
                            (examples.revisions (keeper.tool p0))))
        by (rewrite Hf; now left).
      apply List.filter_In in Hin as [Hin Hcarries].
      intros Habs.
      assert (Hin' : In (keeper.updateRevision id diffID head r)
                       (List.filter (examples.carries [[commitHashType; revision]])
                          (map (keeper.updateRevision id diffID head)
                             (examples.revisions (keeper.tool p0))))).
      { apply List.filter_In. split; [now apply List.in_map|].
        now apply carries_updateRevision. }
      rewrite Habs in Hin'. destruct Hin'.
Qed.

End Keeper.



(** Against a tool that refuses the diff, the second call asks for it
    again. *)
Lemma refused_diff_is_asked_again :
  arcanist.result
    (arcanist.EnsureRequestExists examples.phabricator examples.repo examples.pending
       cases.noRevisions) = Some tt
  /\ List.filter arcanist.isMutation
       (arcanist.calls
          (arcanist.EnsureRequestExists examples.phabricator examples.repo examples.pending
             (arcanist.after
                (arcanist.EnsureRequestExists examples.phabricator examples.repo
                   examples.pending cases.noRevisions))))
     = [arcanist.CallCreateDiff "BASE" "FIRST" examples.shortRequest []].
Proof. split; vm_compute; reflexivity. Qed.

(** Against a tool that accepts comments without keeping them, the second
    call posts again the comments the first call posted. *)
Lemma unkept_comments_are_posted_again :
  List.filter twice.postsComment
    (arcanist.calls
       (arcanist.EnsureRequestExists examples.phabricator examples.repo cases.commented
          examples.start))
  = List.filter twice.postsComment
      (arcanist.calls
         (arcanist.EnsureRequestExists examples.phabricator examples.repo cases.commented
            (arcanist.after
               (arcanist.EnsureRequestExists examples.phabricator examples.repo
                  cases.commented examples.start))))
  /\ List.filter twice.postsComment
       (arcanist.calls
          (arcanist.EnsureRequestExists examples.phabricator examples.repo cases.commented
             examples.start))
     = [arcanist.CallCreateInline
          (arcanist.createInlineRequest.mk "12" "7" "hello.txt" 42
             "foo@bar.com wrote: Some comment description" 1);
        arcanist.CallCreateInline
          (arcanist.createInlineRequest.mk "12" "7" "hello.txt" 42
             "bot@robots-r-us.com wrote: Actually, I disagree" 1);
        arcanist.CallCreateComment
          (arcanist.createCommentRequest.mk "12" "" "comment" true)].
Proof. split; vm_compute; reflexivity. Qed.

(* ===================================================================== *)
(** ** The properties above on the concrete cases                         *)
(* ===================================================================== *)


Lemma reviewers_resolved_witness :
  arcanist.calls
    (arcanist.createDifferentialRevision cases.phabricator examples.repo "FIRST" 7
       cases.reviewedRequest examples.start)
  = map arcanist.CallQueryUser
      ["alice@example.com"; "bob@example.com"; "carol@example.com"; "dave@example.com"]
    ++ [arcanist.CallCreateRevision
          (arcanist.createRevisionRequest.mk 7 cases.reviewedFields)].
Proof.
  apply (reviewers_resolved cases.phabricator examples.repo cases.directory "FIRST" 7
           cases.reviewedRequest examples.start
           (arcanist.createRevisionResponse.mk "" ""
              (arcanist.differentialRevision.mk 0 "" "" "" []))
           (arcanist.remote examples.start)).
  - intros e p. reflexivity.
  - reflexivity.
Defined.

Lemma anchored_thread_requests_witness :
  fst (arcanist.buildCommentRequests examples.phabricator examples.revision12
         ([examples.wholeReview] ++ examples.thread :: []) [examples.reply]
         {["ABCDEFG" := "7"]})
  = fst (arcanist.buildCommentRequests examples.phabricator examples.revision12
           [examples.wholeReview] [examples.reply] {["ABCDEFG" := "7"]})
    ++ map (arcanist_facts.inlineRequestFor examples.phabricator examples.revision12 "7"
              "hello.txt" 42)
         [examples.original]
    ++ fst (arcanist.buildCommentRequests examples.phabricator examples.revision12
              [] [examples.reply] {["ABCDEFG" := "7"]}).
Proof.
  apply (anchored_thread_requests examples.phabricator examples.revision12
           [examples.wholeReview] [] examples.thread [examples.reply]
           {["ABCDEFG" := "7"]} examples.hello "7").
  - reflexivity.
  - discriminate.
  - reflexivity.
  - discriminate.
Defined.


Lemma statuses_set_only_report_properties_witness :
  arcanist.mirrorStatusesForEachCommit examples.phabricator cases.bareRepo
    examples.pending {["HEAD" := 7%Z]} examples.start
  = arcanist.mkRun [] (Some tt) examples.start.
Proof.
  apply (statuses_set_only_report_properties examples.phabricator cases.bareRepo
           examples.pending {["HEAD" := 7%Z]} examples.start).
  intros commitHash. split.
  - intros report. discriminate.
  - intros report H. discriminate.
Defined.

Lemma closed_revisions_untouched_witness :
  arcanist.isClosed examples.revision13 = true
  /\ arcanist.updateReviewDiffs examples.phabricator examples.repo examples.revision13
       "HEAD" examples.shortRequest examples.pending examples.start
     = arcanist.mkRun [] (Some tt) examples.start
  /\ arcanist.calls
       (arcanist.EnsureRequestExists examples.phabricator examples.repo examples.pending
          cases.closedOnly)
     = [arcanist.CallQuery (arcanist.revisionQuery "FIRST")].
Proof.
  destruct (closed_revisions_untouched examples.phabricator examples.repo
              examples.revision13 "HEAD" examples.shortRequest examples.pending
              examples.start
              (arcanist.queryResponse.mk "" "" [examples.revision13])
              (arcanist.remote cases.closedOnly)) as [Hupdate _].
  destruct (closed_revisions_untouched examples.phabricator examples.repo
              examples.revision13 "HEAD" examples.shortRequest examples.pending
              cases.closedOnly
              (arcanist.queryResponse.mk "" "" [examples.revision13])
              (arcanist.remote cases.closedOnly)) as [_ Hpass].
  split; [reflexivity|]. split; [apply Hupdate; reflexivity|].
  apply Hpass.
  - reflexivity.
  - reflexivity.
  - repeat constructor.
  - right. discriminate.
Defined.

Lemma head_changed_adds_one_diff_witness :
  arcanist.isClosed cases.revision14 = false
  /\ existsb (arcanist.isCommitHash "HEAD")
       (arcanist.DifferentialReview.Hashes cases.revision14) = false
  /\ arcanist.updateReviewDiffs examples.phabricator examples.repo cases.revision14 "HEAD"
       examples.shortRequest examples.pending examples.start
     = arcanist.mkRun [arcanist.CallCreateDiff "BASE" "HEAD" examples.shortRequest ["5"]]
         (Some tt)
         (arcanist.mkState (arcanist.remote examples.start)
            (arcanist.closedRevisionsMap examples.start)).
Proof.
  split; [reflexivity|]. split; [reflexivity|].
  apply (head_changed_adds_one_diff examples.phabricator examples.repo cases.revision14
           "HEAD" "BASE" examples.shortRequest examples.pending examples.start);
    reflexivity.
Defined.

Lemma missing_base_or_head_is_skipped_witness :
  repository.GetHeadCommit cases.headlessRepo examples.pending = None
  /\ arcanist.EnsureRequestExists examples.phabricator cases.headlessRepo examples.pending
       examples.start
     = arcanist.mkRun [arcanist.CallQuery (arcanist.revisionQuery "FIRST")] (Some tt)
         (arcanist.mkState (arcanist.remote examples.start)
            (arcanist.closedRevisionsMap examples.start)).
Proof.
  split; [reflexivity|].
  apply (missing_base_or_head_is_skipped examples.phabricator cases.headlessRepo
           examples.pending examples.start
           (arcanist.queryResponse.mk "" "" [examples.revision12; examples.revision13])
           (arcanist.remote examples.start)).
  - reflexivity.
  - reflexivity.
  - reflexivity.
  - right. reflexivity.
Defined.

Lemma submitted_closes_pending_never_witness :
  Forall arcanist_facts.queriesOrCloses
    (arcanist.calls
       (arcanist.EnsureRequestExists examples.phabricator examples.repo examples.submitted
          examples.start))
  /\ Forall arcanist_facts.neverCloses
       (arcanist.calls
          (arcanist.EnsureRequestExists examples.phabricator examples.repo
             examples.pending examples.start)).
Proof.
  split.
  - apply (submitted_closes_pending_never examples.phabricator examples.repo
             examples.submitted examples.start). reflexivity.
  - apply (submitted_closes_pending_never examples.phabricator examples.repo
             examples.pending examples.start). reflexivity.
Defined.

Lemma no_revision_creates_diff_first_witness :
  arcanist.EnsureRequestExists examples.phabricator examples.repo examples.pending
    cases.noRevisions
  = arcanist.mkRun
      [arcanist.CallQuery (arcanist.revisionQuery "FIRST");
       arcanist.CallCreateDiff "BASE" "FIRST" examples.shortRequest []]
      (Some tt)
      (arcanist.mkState (arcanist.remote cases.noRevisions)
         (arcanist.closedRevisionsMap cases.noRevisions)).
Proof.
  apply (no_revision_creates_diff_first examples.phabricator examples.repo
           examples.pending cases.noRevisions
           (arcanist.queryResponse.mk "" "" [])
           (arcanist.remote cases.noRevisions) "BASE" "HEAD"); reflexivity.
Defined.


Lemma abbreviateRefName_strips_heads_witness :
  arcanist_reviews.abbreviateRefName "refs/heads/master" = "master"
  /\ arcanist_reviews.abbreviateRefName "refs/tags/v1" = "refs/tags/v1".
Proof.
  destruct (abbreviateRefName_strips_heads "refs/tags/v1" "master") as (Hheads & Hother & _).
  split; [exact Hheads | apply Hother; reflexivity].
Defined.

Lemma first_commit_is_earliest_witness :
  arcanist_reviews.datedCommits cases.fourCommits
    (arcanist.DifferentialReview.Hashes cases.revisionOfFour)
  = [(200%Z, "C1"); (100%Z, "C2"); (100%Z, "C3")]
  /\ exists before t c after,
       arcanist_reviews.datedCommits cases.fourCommits
         (arcanist.DifferentialReview.Hashes cases.revisionOfFour)
       = before ++ (t, c) :: after
       /\ arcanist_reviews.GetFirstCommit cases.revisionOfFour cases.fourCommits = c.
Proof.
  split; [vm_compute; reflexivity|].
  destruct (first_commit_is_earliest cases.revisionOfFour cases.fourCommits) as [_ Hsome].
  destruct Hsome as (before & t & c & after & Heq & _ & _ & Hc);
    [vm_compute; discriminate|].
  exists before, t, c, after. split; assumption.
Defined.

Lemma new_comments_appended_in_order_witness :
  mirror.effects
    (mirror.appendNewComments cases.phabricator cases.localRepo "FIRST" [examples.thread]
       [examples.original; cases.remoteReply; cases.remoteReply] cases.fresh)
  = [mirror.AppendNote "refs/notes/devtools/discuss" "FIRST" "Please rename";
     mirror.AppendNote "refs/notes/devtools/discuss" "FIRST" "Please rename"].
Proof.
  rewrite (new_comments_appended_in_order cases.phabricator cases.localRepo "FIRST"
             [examples.thread] [examples.original; cases.remoteReply; cases.remoteReply]
             comment.Description cases.fresh).
  - vm_compute. reflexivity.
  - intros c _. reflexivity.
Defined.


Lemma refresh_only_under_default_prefix_witness :
  mirror.effects (mirror.Refresh cases.localRepo cases.looksoon cases.fresh)
  = [mirror.LookSoon ["DEMO"]].
Proof.
  apply (refresh_only_under_default_prefix cases.localRepo cases.looksoon cases.fresh
           "DEMO").
  reflexivity.
Defined.

Lemma returned_pass_records_state_witness :
  mirror.outcome
    (mirror.mirrorRepoToReview cases.phabricator cases.localRepo cases.looksoon true
       cases.fresh) = Some tt
  /\ default ""
       (mirror.processedStates
          (mirror.final
             (mirror.mirrorRepoToReview cases.phabricator cases.localRepo cases.looksoon
                true cases.fresh)) !! "/var/repo/DEMO") = "0".
Proof.
  assert (Hout : mirror.outcome
                   (mirror.mirrorRepoToReview cases.phabricator cases.localRepo
                      cases.looksoon true cases.fresh) = Some tt)
    by (vm_compute; reflexivity).
  split; [exact Hout|].
  apply (returned_pass_records_state cases.phabricator cases.localRepo cases.looksoon
           true cases.fresh "0" "/var/repo/DEMO").
  - intros l. reflexivity.
  - reflexivity.
  - exact Hout.
Defined.

Lemma inlines_posted_before_comment_witness :
  arcanist.calls
    (arcanist.mirrorCommentsIntoReview examples.phabricator examples.repo
       examples.revision12 cases.commented examples.start)
  = [arcanist.CallReadDiff 7;
     arcanist.CallSetDiffProperty 7 arcanist.unitDiffPropertyName examples.passProperty;
     arcanist.CallLoadComments examples.revision12;
     arcanist.CallCreateInline
       (arcanist.createInlineRequest.mk "12" "7" "hello.txt" 42
          "foo@bar.com wrote: Some comment description" 1);
     arcanist.CallCreateInline
       (arcanist.createInlineRequest.mk "12" "7" "hello.txt" 42
          "bot@robots-r-us.com wrote: Actually, I disagree" 1);
     arcanist.CallCreateComment (arcanist.createCommentRequest.mk "12" "" "comment" true)]
  /\ exists commitToDiffMap commitToDiffIDMap existing,
       arcanist.result
         (arcanist_facts.commitMaps examples.phabricator
            (arcanist.DifferentialReview.Diffs examples.revision12) examples.start)
       = Some (commitToDiffMap, commitToDiffIDMap)
       /\ map arcanist.CallCreateInline
            (fst (arcanist.buildCommentRequests examples.phabricator examples.revision12
                    (review.Comments cases.commented) existing commitToDiffMap))
          = [arcanist.CallCreateInline
               (arcanist.createInlineRequest.mk "12" "7" "hello.txt" 42
                  "foo@bar.com wrote: Some comment description" 1);
             arcanist.CallCreateInline
               (arcanist.createInlineRequest.mk "12" "7" "hello.txt" 42
                  "bot@robots-r-us.com wrote: Actually, I disagree" 1)].
Proof.
  assert (Hres : arcanist.result
                   (arcanist.mirrorCommentsIntoReview examples.phabricator examples.repo
                      examples.revision12 cases.commented examples.start) = Some tt)
    by (vm_compute; reflexivity).
  split; [vm_compute; reflexivity|].
  destruct (inlines_posted_before_comment examples.phabricator examples.repo
              examples.revision12 cases.commented examples.start Hres)
    as (commitToDiffMap & commitToDiffIDMap & existing & Hmaps & Hexisting & _).
  exists commitToDiffMap, commitToDiffIDMap, existing. split; [exact Hmaps|].
  vm_compute in Hmaps. injection Hmaps as <- _.
  vm_compute in Hexisting. injection Hexisting as <-.
  vm_compute. reflexivity.
Defined.

Lemma findRepos_outermost_witness :
  main.readable sites.tree = true
  /\ main.findRepos sites.Join sites.NewGitRepo "/var/repo" sites.tree
     = (["/var/repo/a"; "/var/repo/b/c"; "/var/repo/z"], None)
  /\ main.findRepos sites.Join sites.NewGitRepo "/var/repo" sites.unlistable
     = (["/var/repo/a"], None)
  /\ exists rest,
       flat_map (main.outermost sites.NewGitRepo)
         (main.directories sites.Join "/var/repo" [] sites.unlistable)
       = fst (main.findRepos sites.Join sites.NewGitRepo "/var/repo" sites.unlistable)
         ++ rest.
Proof.
  split; [reflexivity|]. split; [reflexivity|]. split; [reflexivity|].
  destruct (findRepos_outermost sites.Join sites.NewGitRepo "/var/repo" sites.unlistable)
    as (_ & rest & Hspec & _).
  exists rest. exact Hspec.
Defined.
